(** * Level editor core (src/level_editor.py)

    A shallow embedding of the editing core of the level editor: the
    entity registry and selection of a scene cell, the undo log, the
    release step of the three manipulators, deletion, scene persistence
    and scene-grid navigation.

    Python objects live in a heap indexed by identity; the registry
    ([LevelEditorScene.entities]) and the selection hold references into
    that heap, so that a [setattr] through the registry is seen through
    the selection.  Methods are written in a small state-and-exception
    monad: a raised exception keeps the mutations made before it, as in
    Python. *)

From Stdlib Require Import ZArith QArith Lia.
From stdpp Require Import base tactics option list gmap strings pretty.


(** ** Values and objects *)

(** A reference is the identity of a Python object. *)
Abbreviation ref := nat (only parsing).

(** [Vec3] components are exact rationals standing for the engine's
    floats; a transform is the triple (position, rotation, scale) that
    [Entity.world_transform] returns. *)
Definition Vec3 : Type := Q * Q * Q.
Definition Transform : Type := Vec3 * Vec3 * Vec3.

Inductive value :=
| VNone
| VBool (b : bool)
| VNum (q : Q)
| VStr (s : string)
| VSym (s : string)          (* a named engine object: a shader, a colour *)
| VVec (v : Vec3)
| VTransform (t : Transform)
| VRef (r : ref).

(** An entity: its class name, its open set of attributes, and whether
    [destroy] has been called on it. *)
Record obj := Obj {
  cls : string;
  attrs : gmap string value;
  destroyed : bool }.

Definition with_attr (k : string) (v : value) (o : obj) : obj :=
  {| cls := cls o; attrs := <[k := v]> (attrs o); destroyed := destroyed o |}.

Definition mark_destroyed (o : obj) : obj :=
  {| cls := cls o; attrs := attrs o; destroyed := true |}.

(** ** Undo records

    [Undo.undo_data] holds either the tuple
    [('restore entities', ids, recipes)], the tuple
    [('delete entities', ids, recipes)], or a list of
    [(index, attribute, old, new)] changes.  Indices are produced by
    [list.index] and are therefore natural numbers. *)

Definition change : Type := nat * string * value * value.

Inductive undo_record :=
| restore_entities (ids : list nat) (recipes : list string)
| delete_entities (ids : list nat) (recipes : list string)
| attribute_changes (changes : list change).

(** ** Scene cells and the editor state *)

Record csv_file := CsvFile {
  fieldnames : list string;
  rows : list (gmap string string) }.

(** The fields of [LevelEditorScene]; [undo_data] and [undo_index] are
    the two fields of its [Undo] object. *)
Record LevelEditorScene := Scene {
  coordinates : Z * Z;
  name : string;
  path : option string;
  entities : list ref;
  selection : list ref;
  scene_parent : option ref;
  undo_data : list undo_record;
  undo_index : Z }.

Definition with_path (p : option string) (sc : LevelEditorScene) :=
  Scene (coordinates sc) (name sc) p (entities sc) (selection sc)
        (scene_parent sc) (undo_data sc) (undo_index sc).
Definition with_entities (l : list ref) (sc : LevelEditorScene) :=
  Scene (coordinates sc) (name sc) (path sc) l (selection sc)
        (scene_parent sc) (undo_data sc) (undo_index sc).
Definition with_selection (l : list ref) (sc : LevelEditorScene) :=
  Scene (coordinates sc) (name sc) (path sc) (entities sc) l
        (scene_parent sc) (undo_data sc) (undo_index sc).
Definition with_scene_parent (p : option ref) (sc : LevelEditorScene) :=
  Scene (coordinates sc) (name sc) (path sc) (entities sc) (selection sc)
        p (undo_data sc) (undo_index sc).
Definition with_undo (d : list undo_record) (i : Z) (sc : LevelEditorScene) :=
  Scene (coordinates sc) (name sc) (path sc) (entities sc) (selection sc)
        (scene_parent sc) d i.

(** [LevelEditorScene.__init__]. *)
Definition new_scene (x y : Z) (nm : string) : LevelEditorScene :=
  Scene (x, y) nm None [] [] None [] (-1).

(** What a method of a scene (or of a tool acting on the current scene)
    can touch: the object heap, the scene folder, and the scene itself.
    For the tools, [scene] is [LEVEL_EDITOR.current_scene], so
    [LEVEL_EDITOR.entities] is [entities (scene s)]. *)
Record ctx := Ctx {
  heap : gmap ref obj;
  next_ref : ref;
  files : gmap string csv_file;
  scene : LevelEditorScene }.

Definition with_heap (h : gmap ref obj) (s : ctx) : ctx :=
  Ctx h (next_ref s) (files s) (scene s).
Definition with_scene (sc : LevelEditorScene) (s : ctx) : ctx :=
  Ctx (heap s) (next_ref s) (files s) sc.
Definition on_scene (f : LevelEditorScene → LevelEditorScene) (s : ctx) : ctx :=
  with_scene (f (scene s)) s.

(** ** Python's lists *)

(** [l[i]] with Python's negative indexing. *)
Definition py_getitem {A} (l : list A) (i : Z) : option A :=
  if decide (0 ≤ i)%Z then l !! Z.to_nat i
  else if decide (- Z.of_nat (length l) ≤ i)%Z
       then l !! Z.to_nat (Z.of_nat (length l) + i)
       else None.

(** [l[:stop]]. *)
Definition py_slice_to {A} (l : list A) (stop : Z) : list A :=
  if decide (0 ≤ stop)%Z then take (Z.to_nat stop) l
  else take (Z.to_nat (Z.of_nat (length l) + stop)) l.

(** [l.index(x)]: the first position of [x], if any. *)
Fixpoint py_index (x : ref) (l : list ref) : option nat :=
  match l with
  | [] => None
  | y :: l' => if decide (x = y) then Some 0 else S <$> py_index x l'
  end.

(** [l.remove(x)] for an [x] known to be in [l]: drops the first occurrence. *)
Fixpoint py_remove (x : ref) (l : list ref) : list ref :=
  match l with
  | [] => []
  | y :: l' => if decide (x = y) then l' else y :: py_remove x l'
  end.

(** [l.insert(i, x)] for [0 <= i]; past the end it appends. *)
Definition py_insert {A} (i : nat) (x : A) (l : list A) : list A :=
  take i l ++ x :: drop i l.

(** ** The state-and-exception monad *)

Inductive exn :=
| IndexError | ValueError | AttributeError | KeyError | TypeError
| OSError | EvalError.

Inductive outcome (A : Type) :=
| Ok (a : A)
| Raise (e : exn).
Arguments Ok {A} a.
Arguments Raise {A} e.

Definition py (S A : Type) : Type := S → outcome A * S.

Definition ret {S A} (a : A) : py S A := λ s, (Ok a, s).
Definition raise {S A} (e : exn) : py S A := λ s, (Raise e, s).
Definition bind {S A B} (m : py S A) (k : A → py S B) : py S B :=
  λ s, match m s with
       | (Ok a, s') => k a s'
       | (Raise e, s') => (Raise e, s')
       end.
Definition gets {S A} (f : S → A) : py S A := λ s, (Ok (f s), s).
Definition modify {S} (f : S → S) : py S unit := λ s, (Ok tt, f s).

(** [try: m  except Exception: h]. *)
Definition try_except {S A} (m : py S A) (h : exn → py S A) : py S A :=
  λ s, match m s with
       | (Ok a, s') => (Ok a, s')
       | (Raise e, s') => h e s'
       end.

(** [try: m  except ValueError: h]. *)
Definition try_except_value_error {S A} (m : py S A) (h : py S A) : py S A :=
  try_except m (λ e, match e with ValueError => h | _ => raise e end).

Definition of_option {S A} (e : exn) (o : option A) : py S A :=
  match o with Some a => ret a | None => raise e end.

Declare Scope py_scope.
Delimit Scope py_scope with py.
Notation "x <- m ;; k" := (bind m (λ x, k))
  (at level 100, m at next level, right associativity) : py_scope.
Notation "m ;; k" := (bind m (λ _, k))
  (at level 100, right associativity) : py_scope.
Open Scope py_scope.

(** [for x in l: f x]. *)
Fixpoint for_each {S B} (l : list B) (f : B → py S unit) : py S unit :=
  match l with
  | [] => ret tt
  | x :: l' => f x ;; for_each l' f
  end.

(** [[f x for x in l]]. *)
Fixpoint map_m {S B C} (f : B → py S C) (l : list B) : py S (list C) :=
  match l with
  | [] => ret []
  | x :: l' => y <- f x ;; ys <- map_m f l' ;; ret (y :: ys)
  end.

Definition exec {S A} (m : py S A) (s : S) : S := (m s).2.
Definition result {S A} (m : py S A) (s : S) : outcome A := (m s).1.

(** ** Attribute access on heap objects *)

Definition getattr (e : ref) (k : string) : py ctx value :=
  s <- gets heap ;;
  of_option AttributeError (o ← s !! e; attrs o !! k).

Definition hasattr (e : ref) (k : string) : py ctx bool :=
  s <- gets heap ;;
  ret (bool_decide (is_Some (o ← s !! e; attrs o !! k))).

Definition setattr (e : ref) (k : string) (v : value) : py ctx unit :=
  modify (λ s, with_heap (alter (with_attr k v) e (heap s)) s).

(** [e.parent]: an entity created without an explicit parent hangs
    under the engine's [scene] root. *)
Definition get_parent (e : ref) : py ctx value :=
  s <- gets heap ;;
  o <- of_option AttributeError (s !! e) ;;
  ret (default (VSym "scene") (attrs o !! "parent")).

Definition deref (e : ref) : py ctx obj :=
  s <- gets heap ;;
  of_option AttributeError (s !! e).

(** The truth value of an attribute value. *)
Definition value_truthy (v : value) : bool :=
  match v with
  | VNone => false
  | VBool b => b
  | VNum q => negb (Qeq_bool q 0)
  | VStr s => negb (bool_decide (s = ""))
  | _ => true
  end.

(** [destroy(e)]. *)
Definition destroy (e : ref) : py ctx unit :=
  modify (λ s, with_heap (alter mark_destroyed e (heap s)) s).

(** Allocation of a fresh object. *)
Definition alloc (o : obj) : py ctx ref :=
  λ s, (Ok (next_ref s),
        Ctx (<[next_ref s := o]> (heap s)) (S (next_ref s)) (files s) (scene s)).

(** The truth value of an entity: an [Entity] is a scene-graph node
    handle, and [destroy] empties the handle, which makes it falsy.  The
    guard [if self.scene_parent] of [load], which must let a cell be
    loaded again after [unload] destroyed its [scene_parent], relies on
    this. *)
Definition truthy (h : gmap ref obj) (e : ref) : bool :=
  match h !! e with
  | Some o => negb (destroyed o)
  | None => false
  end.

(** ** What the embedding takes from the engine and the interpreter *)

Class Python := {
  (** [repr(e)] of an entity: its reconstruction recipe. *)
  repr_entity : obj → string;
  (** [eval(recipe)]: the entity the recipe builds, or an exception. *)
  eval_recipe : string → option obj;
  (** [e.get_changes(e.__class__)]: the attributes that differ from the
      class defaults. *)
  get_changes : obj → gmap string value;
  (** [str(v)] as the csv writer applies it. *)
  py_str : value → string;
  (** [eval(text)] of a field, or an exception. *)
  py_eval : string → option value;
  (** [imported_classes.get(name)], and the call of the class found on
      the keyword arguments, which may raise. *)
  imported_classes : string → option (gmap string value → option obj) }.

Definition lit_with_shadows_shader : value := VSym "lit_with_shadows_shader".

Section Editor.
Context `{!Python}.

(** ** [LevelEditor.render_selection]

    Of its effects only the one on the state of the model is kept:
    [self.selection = [e for e in self.selection if e]].  The rest moves
    the gizmo and the highlight cubes. *)
Definition render_selection : py ctx unit :=
  modify (λ s, on_scene (with_selection (filter (λ e, truthy (heap s) e = true)
                                                (selection (scene s)))) s).

(** ** [Undo] *)

(** [Undo.record_undo]. *)
Definition record_undo (data : undo_record) : py ctx unit :=
  modify (on_scene (λ sc,
    with_undo (py_slice_to (undo_data sc) (undo_index sc + 1) ++ [data])
              (undo_index sc + 1) sc)).

(** The body shared by the 'restore entities' branch of [undo] and the
    'delete entities' branch of [redo]: rebuild each entity from its
    recipe and insert it at its saved index; a failing item is skipped. *)
Definition reinsert_one (id : nat) (recipe : string) : py ctx unit :=
  try_except
    (o <- of_option EvalError (eval_recipe recipe) ;;
     clone <- alloc o ;;
     setattr clone "selectable" (VBool true) ;;
     p <- get_parent clone ;;
     setattr clone "original_parent" p ;;
     setattr clone "shader" lit_with_shadows_shader ;;
     modify (on_scene (λ sc, with_entities (py_insert id clone (entities sc)) sc)))
    (λ _, ret tt).

Definition reinsert_entities (ids : list nat) (recipes : list string) : py ctx unit :=
  for_each (zip ids recipes) (λ '(id, recipe), reinsert_one id recipe).

(** The body shared by the 'delete entities' branch of [undo] and the
    'restore entities' branch of [redo]. *)
Definition remove_entities (ids : list nat) : py ctx unit :=
  target_entities <-
    map_m (λ id, l <- gets (λ s, entities (scene s)) ;;
                 of_option IndexError (l !! id)) ids ;;
  for_each target_entities (λ e,
    sel <- gets (λ s, selection (scene s)) ;;
    if decide (e ∈ sel)
    then modify (on_scene (λ sc, with_selection (py_remove e (selection sc)) sc))
    else ret tt) ;;
  for_each target_entities (λ e,
    l <- gets (λ s, entities (scene s)) ;;
    (if decide (e ∈ l)
     then modify (on_scene (λ sc, with_entities (py_remove e (entities sc)) sc))
     else ret tt) ;;
    destroy e).

(** The generic branch: set each listed attribute to the value [pick]
    selects ([original] for undo, [new] for redo).  The test
    [current_undo_data[0] == ...] that leads here raises [IndexError] on
    an empty list of changes. *)
Definition set_one (pick : change → value) (c : change) : py ctx unit :=
  try_except
    (l <- gets (λ s, entities (scene s)) ;;
     e <- of_option IndexError (l !! c.1.1.1) ;;
     setattr e c.1.1.2 (pick c))
    (λ _, ret tt).

Definition set_attributes (pick : change → value) (changes : list change) : py ctx unit :=
  match changes with
  | [] => raise IndexError
  | _ => for_each changes (set_one pick)
  end.

Definition old_value (c : change) : value := c.1.2.
Definition new_value (c : change) : value := c.2.

Definition apply_undo (r : undo_record) : py ctx unit :=
  match r with
  | restore_entities ids recipes => reinsert_entities ids recipes
  | delete_entities ids _ => remove_entities ids
  | attribute_changes changes => set_attributes old_value changes
  end.

Definition apply_redo (r : undo_record) : py ctx unit :=
  match r with
  | delete_entities ids recipes => reinsert_entities ids recipes
  | restore_entities ids _ => remove_entities ids
  | attribute_changes changes => set_attributes new_value changes
  end.

(** [Undo.undo]. *)
Definition undo : py ctx unit :=
  i <- gets (λ s, undo_index (scene s)) ;;
  if decide (i < 0)%Z then ret tt else
  d <- gets (λ s, undo_data (scene s)) ;;
  current_undo_data <- of_option IndexError (py_getitem d i) ;;
  try_except (apply_undo current_undo_data) (λ _, ret tt) ;;
  render_selection ;;
  modify (on_scene (λ sc, with_undo (undo_data sc) (undo_index sc - 1) sc)).

(** [Undo.redo]. *)
Definition redo : py ctx unit :=
  i <- gets (λ s, undo_index (scene s)) ;;
  d <- gets (λ s, undo_data (scene s)) ;;
  if decide (i + 2 > Z.of_nat (length d))%Z then ret tt else
  current_undo_data <- of_option IndexError (py_getitem d (i + 1)) ;;
  try_except (apply_redo current_undo_data) (λ _, ret tt) ;;
  render_selection ;;
  modify (on_scene (λ sc, with_undo (undo_data sc) (undo_index sc + 1) sc)).

(** ** [Deleter.delete_selected] *)
Definition delete_selected : py ctx unit :=
  try_except
    (sel <- gets (λ s, selection (scene s)) ;;
     ids <- map_m (λ e, l <- gets (λ s, entities (scene s)) ;;
                        of_option ValueError (py_index e l)) sel ;;
     recipes <- map_m (λ e, o <- deref e ;; ret (repr_entity o)) sel ;;
     record_undo (restore_entities ids recipes) ;;
     for_each sel (λ e,
       l <- gets (λ s, entities (scene s)) ;;
       if decide (e ∈ l)
       then modify (on_scene (λ sc, with_entities (py_remove e (entities sc)) sc))
       else ret tt) ;;
     for_each sel destroy ;;
     modify (on_scene (with_selection [])) ;;
     render_selection)
    (λ _, ret tt).

(** ** The manipulators *)

(** [e.world_parent = p]: reparent and keep the world transform. *)
Definition set_world_parent (e : ref) (p : value) : py ctx unit :=
  setattr e "parent" p.

(** [e.world_parent = e.original_parent]. *)
Definition restore_parent (e : ref) : py ctx unit :=
  p <- getattr e "original_parent" ;;
  set_world_parent e p.

(** [e._original_world_transform = e.world_transform]. *)
Definition snapshot (e : ref) : py ctx unit :=
  t <- getattr e "world_transform" ;;
  setattr e "_original_world_transform" t.

(** The squared Euclidean distance of two vectors; [far a b] is
    [distance(a, b) > 0.0001]. *)
Definition dist2 (a b : Vec3) : Q :=
  let '(ax, ay, az) := a in
  let '(bx, by_, bz) := b in
  ((ax - bx) * (ax - bx) + (ay - by_) * (ay - by_) + (az - bz) * (az - bz))%Q.

Definition far (a b : Vec3) : bool :=
  negb (Qle_bool (dist2 a b) (1 # 100000000)).

(** [any(distance(wt[i], ot[i]) > 0.0001 for i in range(3))]; indexing
    something that is not a transform raises. *)
Definition transform_changed (wt ot : value) : py ctx bool :=
  match wt, ot with
  | VTransform (p, r, sc), VTransform (p', r', sc') =>
      ret (far p p' || far r r' || far sc sc')
  | _, _ => raise TypeError
  end.

(** The tuple one release records for entity [e]. *)
Definition transform_change (e : ref) : py ctx change :=
  l <- gets (λ s, entities (scene s)) ;;
  index <- of_option ValueError (py_index e l) ;;
  old <- getattr e "_original_world_transform" ;;
  new <- getattr e "world_transform" ;;
  ret (index, "world_transform", old, new).

(** A loop that appends to a list, an item whose body was abandoned
    contributing nothing. *)
Fixpoint gather {S B C} (f : B → py S (option C)) (l : list B) : py S (list C) :=
  match l with
  | [] => ret []
  | x :: l' =>
      y <- f x ;; ys <- gather f l' ;;
      ret (match y with Some c => c :: ys | None => ys end)
  end.

End Editor.

Module GizmoArrow.
Section GizmoArrow.
Context `{!Python}.

(** [GizmoArrow.drag]; [self] is the arrow, [fake_gizmo] the pivot of
    local mode, [global_mode] is
    [LEVEL_EDITOR.local_global_menu.value == 'global']. *)
Definition drag (self fake_gizmo : ref) (global_mode : bool) : py ctx unit :=
  sel <- gets (λ s, selection (scene s)) ;;
  for_each sel (λ e,
    p <- get_parent e ;;
    is_gizmo <- match p with
                | VRef pr => try_except (g <- getattr pr "is_gizmo" ;; ret (value_truthy g))
                                        (λ _, ret false)
                | _ => ret false
                end ;;
    (if is_gizmo then setattr e "original_parent" (VSym "scene")
     else setattr e "original_parent" p) ;;
    set_world_parent e (VRef (if global_mode then self else fake_gizmo)) ;;
    setattr e "always_on_top" (VBool false) ;;
    snapshot e).

(** [GizmoArrow.drop]; [self_record_undo] is [self.record_undo]. *)
Definition drop (self_record_undo : bool) : py ctx unit :=
  sel <- gets (λ s, selection (scene s)) ;;
  for_each sel restore_parent ;;
  match sel with
  | [] => ret tt
  | first :: _ =>
      changed <- try_except
                   (wt <- getattr first "world_transform" ;;
                    ot <- getattr first "_original_world_transform" ;;
                    transform_changed wt ot)
                   (λ _, ret false) ;;
      (if self_record_undo && changed
       then changes <- gather (λ e, try_except_value_error
                                      (c <- transform_change e ;; ret (Some c))
                                      (ret None)) sel ;;
            record_undo (attribute_changes changes)
       else ret tt) ;;
      render_selection
  end.

End GizmoArrow.
End GizmoArrow.

Module RotationGizmo.
Section RotationGizmo.
Context `{!Python}.

(** [RotationGizmo.drag]; [rotator] is the pivot. *)
Definition drag (rotator : ref) : py ctx unit :=
  sel <- gets (λ s, selection (scene s)) ;;
  for_each sel (λ e, set_world_parent e (VRef rotator) ;; snapshot e).

(** [RotationGizmo.drop]. *)
Definition drop : py ctx unit :=
  sel <- gets (λ s, selection (scene s)) ;;
  changes <- map_m (λ e, restore_parent e ;; transform_change e) sel ;;
  record_undo (attribute_changes changes) ;;
  render_selection.

End RotationGizmo.
End RotationGizmo.

Module ScaleGizmo.
Section ScaleGizmo.
Context `{!Python}.

(** [ScaleGizmo.drag]; [scaler] is the pivot. *)
Definition drag (scaler : ref) : py ctx unit :=
  sel <- gets (λ s, selection (scene s)) ;;
  for_each sel (λ e, set_world_parent e (VRef scaler) ;; snapshot e).

(** [ScaleGizmo.drop]. *)
Definition drop : py ctx unit :=
  sel <- gets (λ s, selection (scene s)) ;;
  changes <- map_m (λ e, restore_parent e ;; transform_change e) sel ;;
  record_undo (attribute_changes changes) ;;
  render_selection.

End ScaleGizmo.
End ScaleGizmo.

Module BoxGizmo.
Section BoxGizmo.
Context `{!Python}.

(** [abs(int(e))] of a float component. *)
Definition abs_int (q : Q) : Z := Z.abs (Z.quot (Qnum q) (Z.pos (Qden q))).

(** ['xyz'[[abs(int(e)) for e in normal].index(1)]], as a position. *)
Definition axis_of_normal (normal : Vec3) : option nat :=
  let '(x, y, z) := normal in
  if decide (abs_int x = 1%Z) then Some 0
  else if decide (abs_int y = 1%Z) then Some 1
  else if decide (abs_int z = 1%Z) then Some 2
  else None.

Definition is_zero_vec (v : Vec3) : bool :=
  let '(x, y, z) := v in Qeq_bool x 0 && Qeq_bool y 0 && Qeq_bool z 0.

(** [BoxGizmo.start_scaling] up to the hand-over to the translate
    gizmo; [helper] and [scaler] are the tool's two entities,
    [hovered_entity] and [normal] are [mouse.hovered_entity] and
    [mouse.normal] after [mouse.update()]. *)
Definition start_scaling (helper scaler : ref)
    (hovered_entity : option ref) (normal : option Vec3) : py ctx unit :=
  l <- gets (λ s, entities (scene s)) ;;
  for_each l (λ e, setattr e "collision" (VBool true)) ;;
  match hovered_entity, normal with
  | Some target, Some n =>
      if bool_decide (target ∈ l) && negb (is_zero_vec n) then
        snapshot target ;;
        _ <- of_option ValueError (axis_of_normal n) ;;
        set_world_parent target (VRef scaler) ;;
        setattr helper "parent" (VRef target) ;;
        modify (on_scene (with_selection [helper])) ;;
        render_selection
      else ret tt
  | _, _ => ret tt
  end.

End BoxGizmo.
End BoxGizmo.

(** ** [LevelEditorScene]: persistence *)

Section Persistence.
Context `{!Python}.

(** [str(v)]: a string is written as it is. *)
Definition str_value (v : value) : string :=
  match v with
  | VStr s => s
  | _ => py_str v
  end.

Definition none_to_false (v : value) : value :=
  match v with
  | VNone => VBool false
  | _ => v
  end.

(** The dict [save] builds for one entity: its changes with [None]
    replaced by [False], its class name, and its [collider_type], if it
    has one, wrapped in quotes. *)
Definition entity_changes (o : obj) : gmap string value :=
  let changes := <["class" := VStr (cls o)]> (none_to_false <$> get_changes o) in
  match attrs o !! "collider_type" with
  | Some ct => <["collider_type" := VStr ("'" +:+ str_value ct +:+ "'")]> changes
  | None => changes
  end.

(** [for key in changes: if key not in fields: fields.append(key)]. *)
Definition add_fields (fields : list string) (keys : list string) : list string :=
  foldl (λ fs key, if decide (key ∈ fs) then fs else fs ++ [key]) fields keys.

(** The row [csv.DictWriter] writes for a dict and [csv.DictReader]
    reads back: every column of the header, a missing value as the
    empty text. *)
Definition written_row (fields : list string) (d : gmap string value)
    : gmap string string :=
  list_to_map ((λ key, (key, from_option str_value "" (d !! key))) <$> fields).


(** [eval(value)], the raw text kept when it raises. *)
Definition eval_or_raw (text : string) : value :=
  default (VStr text) (py_eval text).

(** The keyword arguments [load] builds from one row. *)
Definition row_kwargs (sp : ref) (line : gmap string string) : gmap string value :=
  let kwargs : gmap string value :=
    VStr <$> filter (λ kv, kv.2 ≠ "" ∧ kv.1 ≠ "class") line in
  let kwargs :=
    match kwargs !! "parent" with
    | Some _ => kwargs
    | None => <["parent" := VRef sp]> kwargs
    end in
  let kwargs :=
    map_imap (λ key v, Some (if decide (key = "parent") then v
                             else match v with
                                  | VStr text => eval_or_raw text
                                  | _ => v
                                  end)) kwargs in
  match kwargs !! "parent" with
  | Some (VStr _) => <["parent" := VRef sp]> kwargs
  | _ => kwargs
  end.

(** [ErrorEntity(model='wireframe_cube', color=color.red, **kwargs)];
    its [__init__] catches what the base constructor raises. *)
Definition ErrorEntity (kwargs : gmap string value) : obj :=
  Obj "ErrorEntity"
      (kwargs ∪ <["model" := VStr "wireframe_cube"]> {["color" := VSym "color.red"]})
      false.

(** [imported_classes.get(class_name, ErrorEntity)], the call, and the
    fallback [ErrorEntity()] when the call raises. *)
Definition instantiate (class_name : option string) (kwargs : gmap string value) : obj :=
  let target_class :=
    default (λ kw, Some (ErrorEntity kw)) (class_name ≫= imported_classes) in
  default (ErrorEntity ∅) (target_class kwargs).

(** The post-load adjustments of one entity. *)
Definition post_load (e : ref) : py ctx unit :=
  o <- deref e ;;
  (if value_truthy (default VNone (attrs o !! "shader")) then ret tt
   else setattr e "shader" lit_with_shadows_shader) ;;
  setattr e "selectable" (VBool true) ;;
  p <- get_parent e ;;
  setattr e "original_parent" p ;;
  (if bool_decide (is_Some (attrs o !! "collider_type")) then ret tt
   else setattr e "collider_type" VNone) ;;
  match attrs o !! "model" with
  | Some (VStr model_name) =>
      if decide (model_name = "cube")
      then setattr e "collider" (VStr "box") ;; setattr e "collision" (VBool false)
      else ret tt
  | _ => ret tt
  end.

(** The body of the loop of [load] over the rows. *)
Definition load_row (f : csv_file) (sp : ref) (line : gmap string string) : py ctx unit :=
  let kwargs := row_kwargs sp line in
  class_name <- (if decide ("class" ∈ fieldnames f) then ret (line !! "class")
                 else raise KeyError) ;;
  instance <- alloc (instantiate class_name kwargs) ;;
  modify (on_scene (λ sc, with_entities (entities sc ++ [instance]) sc)).

(** [LevelEditorScene.load]. *)
Definition load : py ctx (option ref) :=
  sc <- gets scene ;;
  match path sc with
  | None => ret None
  | Some p =>
      h <- gets heap ;;
      if from_option (truthy h) false (scene_parent sc) then ret None else
      try_except
        (fs <- gets files ;;
         f <- of_option OSError (fs !! p) ;;
         sp <- alloc (Obj "Entity" ∅ false) ;;
         modify (on_scene (with_scene_parent (Some sp))) ;;
         for_each (rows f) (load_row f sp) ;;
         l <- gets (λ s, entities (scene s)) ;;
         for_each l post_load ;;
         h' <- gets heap ;;
         ret (if truthy h' sp then Some sp else None))
        (λ _, ret None)
  end.

(** [LevelEditorScene.unload]. *)
Definition unload : py ctx unit :=
  try_except
    (l <- gets (λ s, entities (scene s)) ;;
     for_each l destroy ;;
     modify (on_scene (with_selection [])) ;;
     modify (on_scene (with_entities [])) ;;
     sc <- gets scene ;;
     h <- gets heap ;;
     match scene_parent sc with
     | Some sp => if truthy h sp then destroy sp else ret tt
     | None => ret tt
     end)
    (λ _, ret tt).

End Persistence.

(** ** The scene grid *)

Record LevelEditor := Editor {
  ed_heap : gmap ref obj;
  ed_next_ref : ref;
  ed_files : gmap string csv_file;
  scenes : list (list LevelEditorScene);
  (** [current_scene] aliases a cell of the grid *)
  current_scene : option (nat * nat) }.

Definition cell (g : list (list LevelEditorScene)) (x y : nat) : option LevelEditorScene :=
  col ← g !! x; col !! y.

Definition set_cell (x y : nat) (sc : LevelEditorScene)
    (g : list (list LevelEditorScene)) : list (list LevelEditorScene) :=
  alter (λ col, <[y := sc]> col) x g.

(** Run a method of the scene object [scenes[x][y]]. *)
Definition at_cell {A} (x y : nat) (m : py ctx A) : py LevelEditor A :=
  λ ed, match cell (scenes ed) x y with
        | None => (Raise IndexError, ed)
        | Some sc =>
            let r := m (Ctx (ed_heap ed) (ed_next_ref ed) (ed_files ed) sc) in
            (r.1, Editor (heap r.2) (next_ref r.2) (files r.2)
                         (set_cell x y (scene r.2) (scenes ed)) (current_scene ed))
        end.

(** The position a Python index denotes in a list of length [len]. *)
Definition py_position (len : nat) (i : Z) : option nat :=
  if decide (0 ≤ i < Z.of_nat len)%Z then Some (Z.to_nat i)
  else if decide (- Z.of_nat len ≤ i < 0)%Z then Some (Z.to_nat (Z.of_nat len + i))
  else None.

(** [LevelEditor.__init__]: the grid of untitled scenes. *)
Definition scene_name (x y : nat) : string :=
  "untitled_scene[" +:+ pretty x +:+ "," +:+ pretty y +:+ "]".

Definition init_editor : LevelEditor :=
  Editor ∅ 0 ∅
    ((λ x, (λ y, new_scene (Z.of_nat x) (Z.of_nat y) (scene_name x y)) <$> seq 0 8) <$> seq 0 8)
    None.

(** [clamp(value, floor, ceiling)]. *)
Definition clamp (v floor ceiling : Z) : Z := Z.max (Z.min v ceiling) floor.

(** [a in b] for strings. *)
Fixpoint substringb (a b : string) : bool :=
  String.prefix a b ||
  match b with
  | EmptyString => false
  | String _ b' => substringb a b'
  end.

Module LevelMenu.
Section LevelMenu.
Context `{!Python}.

(** [LevelMenu.goto_scene]. *)
Definition goto_scene (x y : Z) : py LevelEditor unit :=
  for_each (seq 0 8) (λ _y, for_each (seq 0 8) (λ _x, at_cell _x _y unload)) ;;
  g <- gets scenes ;;
  x' <- of_option IndexError (py_position (length g) x) ;;
  col <- of_option IndexError (g !! x') ;;
  y' <- of_option IndexError (py_position (length col) y) ;;
  modify (λ ed, Editor (ed_heap ed) (ed_next_ref ed) (ed_files ed) (scenes ed)
                       (Some (x', y'))) ;;
  loaded_scene <- at_cell x' y' load ;;
  match loaded_scene with
  | None => at_cell x' y' (sp <- alloc (Obj "Entity" ∅ false) ;;
                           modify (on_scene (with_scene_parent (Some sp))))
  | Some _ => ret tt
  end ;;
  at_cell x' y' render_selection.

(** The branch of [LevelMenu.input] for the adjacent-scene hotkeys;
    [shift] and [alt] are [held_keys['shift']] and [held_keys['alt']]. *)
Definition input (shift alt : bool) (key : string) : py LevelEditor unit :=
  if shift && alt && substringb key "wasd" then
    cur <- gets current_scene ;;
    match cur with
    | None => ret tt
    | Some (cx, cy) =>
        sc <- at_cell cx cy (gets scene) ;;
        let '(c0, c1) := coordinates sc in
        let c0 := if decide (key = "d") then (c0 + 1)%Z else c0 in
        let c0 := if decide (key = "a") then (c0 - 1)%Z else c0 in
        let c1 := if decide (key = "w") then (c1 + 1)%Z else c1 in
        let c1 := if decide (key = "s") then (c1 - 1)%Z else c1 in
        goto_scene (clamp c0 0 8) (clamp c1 0 8)
    end
  else ret tt.

End LevelMenu.
End LevelMenu.

(** ** Predicates used in the statements *)

(** The cursor points into the log, or is -1. *)
Definition log_wf (sc : LevelEditorScene) : Prop :=
  (-1 ≤ undo_index sc < Z.of_nat (length (undo_data sc)))%Z.

(** The log and its cursor as a unit. *)
Definition same_log (s s' : ctx) : Prop :=
  undo_data (scene s') = undo_data (scene s) ∧
  undo_index (scene s') = undo_index (scene s).

(** The state in which [undo] and [redo] leave the scene once the guard
    passed and the entry was read, before the cursor moves. *)
Definition after_apply `{!Python} (m : py ctx unit) (s : ctx) : ctx :=
  (render_selection (try_except m (λ _, ret tt) s).2).2.

(** ** A small engine and interpreter, to run the model on examples

    A recipe is the class name and rebuilds a bare entity of that
    class; every attribute counts as changed; only the literals [None],
    [True] and [False] evaluate; two classes are imported. *)

Module Sample.

Definition str (v : value) : string :=
  match v with
  | VNone => "None"
  | VBool true => "True"
  | VBool false => "False"
  | VStr s => s
  | VSym s => s
  | _ => "<object>"
  end.

Definition eval (text : string) : option value :=
  if decide (text = "None") then Some VNone
  else if decide (text = "True") then Some (VBool true)
  else if decide (text = "False") then Some (VBool false)
  else None.

Definition classes (class_name : string) : option (gmap string value → option obj) :=
  if decide (class_name ∈ ["Entity"; "WhiteCube"])
  then Some (λ kwargs, Some (Obj class_name kwargs false))
  else None.

Definition python : Python := {|
  repr_entity o := cls o;
  eval_recipe recipe := Some (Obj recipe ∅ false);
  get_changes := attrs;
  py_str := str;
  py_eval := eval;
  imported_classes := classes |}.

(** A bare entity of a class, parented to [parent]. *)
Definition entity (class_name : string) : obj := Obj class_name ∅ false.

(** An entity in the middle of a drag: it hangs under [pivot],
    remembers [parent], and carries a snapshot and a current transform. *)
Definition dragged (class_name : string) (pivot parent : ref)
    (old new : Transform) : obj :=
  Obj class_name
      (<["parent" := VRef pivot]>
       (<["original_parent" := VRef parent]>
        (<["_original_world_transform" := VTransform old]>
         {["world_transform" := VTransform new]})))
      false.

(** An entity at rest under [parent]. *)
Definition placed (class_name : string) (parent : ref) (t : Transform) : obj :=
  Obj class_name
      (<["parent" := VRef parent]>
       (<["original_parent" := VRef parent]>
        {["world_transform" := VTransform t]}))
      false.

Definition origin : Transform := ((0, 0, 0), (0, 0, 0), (1, 1, 1))%Q.
Definition shifted : Transform := ((1, 0, 0), (0, 0, 0), (1, 1, 1))%Q.

(** A scene holding the entities [l], none selected, nothing recorded. *)
Definition scene_of (l : list ref) : LevelEditorScene :=
  Scene (0, 0)%Z "sample" None l [] (Some 0) [] (-1).

End Sample.

(** ** Predicates on the selection and the heap *)

(** Every selected entity is in the registry. *)
Definition selection_in_registry (sc : LevelEditorScene) : Prop :=
  ∀ e, e ∈ selection sc → e ∈ entities sc.

(** The allocator hands out references that are not in use. *)
Definition heap_fresh (s : ctx) : Prop :=
  ∀ r, is_Some (heap s !! r) → r < next_ref s.

(** Every selected reference denotes an object. *)
Definition selection_on_heap (s : ctx) : Prop :=
  ∀ e, e ∈ selection (scene s) → is_Some (heap s !! e).

(** What holds of the selection between the steps of an operation: a
    selected entity is in the registry or has been destroyed. *)
Definition selection_registered_or_destroyed (s : ctx) : Prop :=
  heap_fresh s ∧
  ∀ e, e ∈ selection (scene s) →
       ∃ o, heap s !! e = Some o ∧ (e ∈ entities (scene s) ∨ destroyed o = true).

Definition keeps_selection (s s' : ctx) : Prop :=
  selection_registered_or_destroyed s → selection_registered_or_destroyed s'.

(** ** Weakest preconditions

    [wp m Q E s]: run from [s], [m] ends normally in a state and with a
    value satisfying [Q], or raises in a state satisfying [E]. *)
Definition wp {S A} (m : py S A) (Q : A → S → Prop) (E : exn → S → Prop) (s : S) : Prop :=
  match m s with
  | (Ok a, s') => Q a s'
  | (Raise e, s') => E e s'
  end.

(** [steps R m]: whatever [m] returns or raises, its final state is
    related by [R] to its initial state. *)
Definition steps {S} (R : S → S → Prop) {A} (m : py S A) : Prop :=
  ∀ s, R s (m s).2.

(** ** Predicates on a manipulator release *)

(** The tuple a release records for [e] in state [s]. *)
Definition change_of (s : ctx) (e : ref) : option change :=
  index ← py_index e (entities (scene s));
  o ← heap s !! e;
  old ← attrs o !! "_original_world_transform";
  new ← attrs o !! "world_transform";
  Some (index, "world_transform", old, new).

(** [e] moved: its position, its rotation or its scale is farther than
    the epsilon from its value in the snapshot. *)
Definition movedb (s : ctx) (e : ref) : bool :=
  match heap s !! e with
  | Some o =>
      match attrs o !! "world_transform", attrs o !! "_original_world_transform" with
      | Some (VTransform (p, r, sc)), Some (VTransform (p', r', sc')) =>
          far p p' || far r r' || far sc sc'
      | _, _ => false
      end
  | None => false
  end.

(** [e] went through a manipulator's [drag]: it is in the registry, has
    a snapshot and a current transform, and remembers its parent. *)
Definition engaged (s : ctx) (e : ref) : Prop :=
  is_Some (change_of s e) ∧
  ∃ o, heap s !! e = Some o ∧ is_Some (attrs o !! "original_parent").

(** In [s'], [e] hangs under the parent it remembered in [s]. *)
Definition parent_restored (s s' : ctx) (e : ref) : Prop :=
  ∃ o o', heap s !! e = Some o ∧ heap s' !! e = Some o' ∧
          is_Some (attrs o !! "original_parent") ∧
          attrs o' !! "parent" = attrs o !! "original_parent".

(** The log of a state: its records and its cursor. *)
Definition log_of (s : ctx) : list undo_record * Z :=
  (undo_data (scene s), undo_index (scene s)).

(** [s'] differs from [s] in [parent] attributes at most. *)
Definition only_parents (s s' : ctx) : Prop :=
  scene s' = scene s ∧
  ∀ r, match heap s !! r, heap s' !! r with
       | Some o, Some o' =>
           cls o' = cls o ∧ destroyed o' = destroyed o ∧
           ∀ k, k ≠ "parent" → attrs o' !! k = attrs o !! k
       | None, None => True
       | _, _ => False
       end.

(** The batch a release records: one tuple for each selected entity. *)
Definition recorded_changes (s : ctx) : list change :=
  omap (change_of s) (selection (scene s)).

(** The log after one record [r] was recorded in state [s]. *)
Definition log_with (r : undo_record) (s : ctx) : list undo_record * Z :=
  log_of (exec (record_undo r) s).

(** What a release must establish. *)
Definition released (s : ctx) (log : list undo_record * Z) (s' : ctx) : Prop :=
  (∀ e, e ∈ selection (scene s) → parent_restored s s' e) ∧ log_of s' = log.

(** ** Predicates on loading *)

(** [s'] has the objects of [s], with their class and their liveness. *)
Definition same_objects (s s' : ctx) : Prop :=
  ∀ r o, heap s !! r = Some o →
         ∃ o', heap s' !! r = Some o' ∧ cls o' = cls o ∧ destroyed o' = destroyed o.

(** [s'] has the scene of [s]. *)
Definition same_scene (s s' : ctx) : Prop := scene s' = scene s.


(** ** Predicates on saving *)

Section SavedRows.
Context `{!Python}.

(** The entities [save] writes a row for: those of the registry that
    have no [is_gizmo] attribute. *)
Definition saved_entities (s : ctx) : list obj :=
  omap (λ e, o ← heap s !! e;
             if bool_decide (is_Some (attrs o !! "is_gizmo")) then None else Some o)
       (entities (scene s)).

(** The header [save] writes for a list of dicts. *)
Definition header (dicts : list (gmap string value)) : list string :=
  foldl (λ fs d, add_fields fs (map_to_list d).*1) ["class"] dicts.

(** The file [save] writes in state [s]. *)
Definition saved_file (s : ctx) : csv_file :=
  let dicts := entity_changes <$> saved_entities s in
  CsvFile (header dicts) (written_row (header dicts) <$> dicts).


End SavedRows.

(** ** Predicates on the scene grid *)

(** Every cell of the 8×8 grid exists. *)
Definition full_grid (ed : LevelEditor) : Prop :=
  ∀ x y, x < 8 → y < 8 → is_Some (cell (scenes ed) x y).

(** The cell (x, y) holds a scene with the log [d] and the cursor [i]. *)
Definition cell_has_log (x y : nat) (d : list undo_record) (i : Z)
    (ed : LevelEditor) : Prop :=
  ∃ sc, cell (scenes ed) x y = Some sc ∧ undo_data sc = d ∧ undo_index sc = i.

(** The cell (x, y) holds a scene with no entity and no selection. *)
Definition cell_emptied (x y : nat) (ed : LevelEditor) : Prop :=
  ∃ sc, cell (scenes ed) x y = Some sc ∧ entities sc = [] ∧ selection sc = [].

(** What [goto_scene] keeps of the scene it loads: its log and cursor;
    and what it makes of it: nothing selected, and a registry of
    objects allocated from [n0] on. *)
Definition reloaded (n0 : nat) (d : list undo_record) (i : Z) (s : ctx) : Prop :=
  undo_data (scene s) = d ∧ undo_index (scene s) = i ∧
  selection (scene s) = [] ∧ n0 ≤ next_ref s ∧
  ∀ e, e ∈ entities (scene s) → n0 ≤ e.

Definition keeps_reloaded (n0 : nat) (d : list undo_record) (i : Z)
    (s s' : ctx) : Prop :=
  reloaded n0 d i s → reloaded n0 d i s'.

(** The editor state with the cell (x, y) and the store taken from [s]. *)
Definition put_cell (x y : nat) (ed : LevelEditor) (s : ctx) : LevelEditor :=
  Editor (heap s) (next_ref s) (files s)
         (set_cell x y (scene s) (scenes ed)) (current_scene ed).

(** The store of the editor with the scene [sc] in focus. *)
Definition focus (ed : LevelEditor) (sc : LevelEditorScene) : ctx :=
  Ctx (ed_heap ed) (ed_next_ref ed) (ed_files ed) sc.

(** What the unloading loops of [goto_scene x y] keep: the grid, the
    allocator's position, the log of the target cell. *)
Definition unloading (n0 x y : nat) (d : list undo_record) (i : Z)
    (ed : LevelEditor) : Prop :=
  full_grid ed ∧ n0 ≤ ed_next_ref ed ∧ cell_has_log x y d i ed.

(** What [goto_scene x y] establishes. *)
Definition went_to (n0 x y : nat) (d : list undo_record) (i : Z)
    (ed : LevelEditor) : Prop :=
  current_scene ed = Some (x, y) ∧
  ∃ sc, cell (scenes ed) x y = Some sc ∧ reloaded n0 d i (focus ed sc).

(** An editor whose scene (0, 0) was saved to a file of one row, holds
    one entity, which is selected, and has one recorded entry. *)
Module SampleEditor.

Definition entry : undo_record :=
  attribute_changes [(0, "color", VSym "color.white", VSym "color.red")].

Definition level : csv_file :=
  CsvFile ["class"] [{["class" := "Entity"]}].

Definition edited_scene : LevelEditorScene :=
  Scene (0, 0)%Z "level" (Some "level.csv") [1] [1] None [entry] 0.

Definition editor : LevelEditor :=
  Editor {[1 := Sample.entity "Entity"]} 2 {["level.csv" := level]}
         (set_cell 0 0 edited_scene (scenes init_editor)) (Some (0, 0)).

End SampleEditor.

(** ** Predicates on deleting and restoring *)

Section Restoring.
Context `{!Python}.



(** The state after one iteration of the generic branch. *)
Definition set_one_state (pick : change → value) (c : change) (s : ctx) : ctx :=
  match entities (scene s) !! c.1.1.1 with
  | Some e => with_heap (alter (with_attr c.1.1.2 (pick c)) e (heap s)) s
  | None => s
  end.

End Restoring.

(** [l.index(e)], 0 standing for the exception. *)
Definition index_of (l : list ref) (e : ref) : nat := default 0 (py_index e l).


Section Deleting.
Context `{!Python}.

(** [repr(e)], the empty string standing for a dangling reference. *)
Definition recipe_of (s : ctx) (e : ref) : string :=
  default "" (repr_entity <$> heap s !! e).

(** The entry [delete_selected] records in state [s]. *)
Definition restore_record (s : ctx) : undo_record :=
  restore_entities (index_of (entities (scene s)) <$> selection (scene s))
                   (recipe_of s <$> selection (scene s)).

(** [s'] is [s] with the selection deleted and the deletion recorded. *)
Definition deleted (s s' : ctx) : Prop :=
  entities (scene s') =
    foldl (λ acc e, py_remove e acc) (entities (scene s)) (selection (scene s)) ∧
  selection (scene s') = [] ∧
  undo_data (scene s') =
    py_slice_to (undo_data (scene s)) (undo_index (scene s) + 1) ++ [restore_record s] ∧
  undo_index (scene s') = (undo_index (scene s) + 1)%Z ∧
  next_ref s' = next_ref s ∧
  (∀ r, r ∉ selection (scene s) → heap s' !! r = heap s !! r) ∧
  (∀ r, r ∈ selection (scene s) → truthy (heap s') r = false).


End Deleting.

(** The heap after the generic branch of [undo] or [redo] ran over
    [changes] with the registry [l], and what it makes of the
    attributes of one entity [e]. *)
Definition changed_heap (l : list ref) (pick : change → value)
    (changes : list change) (h : gmap ref obj) : gmap ref obj :=
  foldl (λ h c, match l !! c.1.1.1 with
                | Some e => alter (with_attr c.1.1.2 (pick c)) e h
                | None => h
                end) h changes.

Definition changed_attrs (l : list ref) (e : ref) (pick : change → value)
    (changes : list change) (m : gmap string value) : gmap string value :=
  foldl (λ m c, if decide (l !! c.1.1.1 = Some e)
                then <[c.1.1.2 := pick c]> m else m) m changes.



(** * Further parts of the editor

    The tools around the core: what else touches the registry, the
    selection and the log. *)

(** [[entities[id] for id in ids]], for indices that are all in range. *)
Definition targets_of (l : list ref) (ids : list nat) : list ref :=
  omap (λ id, l !! id) ids.

(** Equality of values is decidable: [set(...)] and [==] need it. *)
Global Instance Q_eq_dec : EqDecision Q.
Proof. solve_decision. Defined.
Global Instance value_eq_dec : EqDecision value.
Proof. solve_decision. Defined.

(** Run code that touches only the store (the heap, the allocator, the
    files), whether or not a scene is current. *)
Definition on_store {A} (m : py ctx A) : py LevelEditor A :=
  λ ed, let r := m (Ctx (ed_heap ed) (ed_next_ref ed) (ed_files ed) (new_scene 0 0 "")) in
        (r.1, Editor (heap r.2) (next_ref r.2) (files r.2) (scenes ed) (current_scene ed)).

(** [try: m  except IndexError: h]. *)
Definition try_except_index_error {S A} (m : py S A) (h : py S A) : py S A :=
  try_except m (λ e, match e with IndexError => h | _ => raise e end).

(** The entity the base class [Entity] builds from keyword arguments. *)
Definition Entity (kwargs : gmap string value) : obj := Obj "Entity" kwargs false.

(** A scene root as a keyword argument: [None] when there is none. *)
Definition parent_value (sp : option ref) : value :=
  match sp with Some r => VRef r | None => VNone end.

Section Tools.
Context `{!Python}.

(** ** [LevelEditor.add_entity] *)

(** The defaults, in the order of the dict literal. *)
Definition editing_defaults : list (string * value) :=
  [("original_parent", VSym "LEVEL_EDITOR"); ("selectable", VBool true);
   ("collision", VBool false); ("collider_type", VStr "None")].

Definition set_default (entity : ref) (kv : string * value) : py ctx unit :=
  has <- hasattr entity kv.1 ;;
  if has then ret tt else setattr entity kv.1 kv.2.

(** The second half of [add_entity], on the current scene. *)
Definition append_to_scene (entity : ref) : py ctx unit :=
  sc <- gets scene ;;
  h <- gets heap ;;
  match scene_parent sc with
  | Some sp =>
      if truthy h sp
      then setattr entity "parent" (VRef sp) ;;
           modify (on_scene (λ sc, with_entities (entities sc ++ [entity]) sc))
      else ret tt
  | None => ret tt
  end.

Definition add_entity (entity : ref) : py LevelEditor unit :=
  try_except
    (on_store (for_each editing_defaults (set_default entity)) ;;
     cur <- gets current_scene ;;
     match cur with
     | Some (x, y) => at_cell x y (append_to_scene entity)
     | None => ret tt
     end)
    (λ _, ret tt).

End Tools.

(** ** [Spawner] *)

Module Spawner.
Section Spawner.
Context `{!Python}.

(** The keyword arguments of the constructor call in [spawn_entity]. *)
Definition spawn_kwargs (sp : option ref) (world_point : option Vec3)
    : gmap string value :=
  <["parent" := parent_value sp]>
  (<["position" := VVec (default (0, 0, 0)%Q world_point)]>
   (<["original_parent" := VSym "LEVEL_EDITOR"]>
    (<["selectable" := VBool true]>
     {["collision" := VBool false]}))).

(** [spawn_entity] on the current scene; [_class] is the class called,
    [None] standing for an exception of its constructor, [world_point]
    is [mouse.world_point].  The value is the new [self.target]. *)
Definition spawn_in_scene (_class : gmap string value → option obj)
    (world_point : option Vec3) : py ctx ref :=
  sc <- gets scene ;;
  o <- of_option TypeError (_class (spawn_kwargs (scene_parent sc) world_point)) ;;
  target <- alloc o ;;
  has <- hasattr target "collider_type" ;;
  (if has then ret tt else setattr target "collider_type" (VStr "None")) ;;
  (if value_truthy (default VNone (attrs o !! "shader")) then ret tt
   else setattr target "shader" lit_with_shadows_shader) ;;
  modify (on_scene (λ sc, with_entities (entities sc ++ [target]) sc)) ;;
  render_selection ;;
  ret target.

(** [Spawner.spawn_entity]; [self_target] is [self.target] before the
    call, the value is [self.target] after it. *)
Definition spawn_entity (self_target : option ref)
    (_class : gmap string value → option obj) (world_point : option Vec3)
    : py LevelEditor (option ref) :=
  cur <- gets current_scene ;;
  match cur with
  | None => ret self_target
  | Some (x, y) => target <- at_cell x y (spawn_in_scene _class world_point) ;;
                   ret (Some target)
  end.

(** The body of the [try] of [drop_entity], on the current scene. *)
Definition drop_in_scene (self_target : option ref) : py ctx (option ref) :=
  l <- gets (λ s, entities (scene s)) ;;
  target <- of_option ValueError self_target ;;
  index <- of_option ValueError (py_index target l) ;;
  o <- deref target ;;
  record_undo (delete_entities [index] [repr_entity o]) ;;
  modify (on_scene (with_selection [target])) ;;
  ret None.

(** [Spawner.drop_entity], with [self.target] passed and returned. *)
Definition drop_entity (self_target : option ref) : py LevelEditor (option ref) :=
  try_except
    (cur <- gets current_scene ;;
     match cur with
     | None => raise AttributeError
     | Some (x, y) => at_cell x y (drop_in_scene self_target)
     end)
    (λ _, ret self_target).

End Spawner.
End Spawner.

(** ** [Grouper] *)

Module Grouper.
Section Grouper.
Context `{!Python}.

(** [sum([e.world_position for e in selection]) / len(selection)] is
    the engine's vector arithmetic; [None] stands for its raising. *)
Variable mean_position : list value → option value.

(** [Grouper.input]; [control] is [held_keys['control']]. *)
Definition input (control : bool) (key : string) : py ctx unit :=
  try_except
    (sel <- gets (λ s, selection (scene s)) ;;
     if control && bool_decide (key = "g") && negb (bool_decide (sel = [])) then
       sc <- gets scene ;;
       group_entity <- alloc (Entity (<["parent" := parent_value (scene_parent sc)]>
                                      (<["name" := VStr "[group]"]>
                                       {["selectable" := VBool true]}))) ;;
       modify (on_scene (λ sc, with_entities (entities sc ++ [group_entity]) sc)) ;;
       parents <- map_m get_parent sel ;;
       (match remove_dups parents with
        | [p] => set_world_parent group_entity p
        | _ => ret tt
        end) ;;
       positions <- map_m (λ e, getattr e "world_position") sel ;;
       position <- of_option TypeError (mean_position positions) ;;
       setattr group_entity "world_position" position ;;
       for_each sel (λ e, set_world_parent e (VRef group_entity)) ;;
       modify (on_scene (with_selection [group_entity])) ;;
       render_selection
     else ret tt)
    (λ _, ret tt).

End Grouper.
End Grouper.

(** ** [Selector] *)

Module Selector.
Section Selector.
Context `{!Python}.

(** [Selector.input] for the keys that touch the selection;
    [mouse_hovered_entity] is the truth value of [mouse.hovered_entity],
    [clicked_entity] is what [get_hovered_entity()] returned, and
    [shift], [alt], [control] are the held keys. *)
Definition input (key : string) (mouse_hovered_entity : bool)
    (clicked_entity : option ref) (shift alt control : bool) : py ctx unit :=
  try_except
    (if bool_decide (key = "left mouse down") then
       if mouse_hovered_entity then ret tt else
       l <- gets (λ s, entities (scene s)) ;;
       (match clicked_entity with
        | Some e =>
            if bool_decide (e ∈ l) && negb alt then
              if shift then
                sel <- gets (λ s, selection (scene s)) ;;
                if bool_decide (e ∈ sel) then ret tt
                else modify (on_scene (λ sc, with_selection (selection sc ++ [e]) sc))
              else modify (on_scene (with_selection [e]))
            else ret tt
        | None => ret tt
        end) ;;
       sel <- gets (λ s, selection (scene s)) ;;
       (match clicked_entity with
        | Some e =>
            if alt && bool_decide (e ∈ sel)
            then modify (on_scene (λ sc, with_selection (py_remove e (selection sc)) sc))
            else ret tt
        | None => ret tt
        end) ;;
       h <- gets heap ;;
       (if negb (from_option (truthy h) false clicked_entity) && negb shift && negb alt
        then modify (on_scene (with_selection []))
        else ret tt) ;;
       render_selection
     else if control && bool_decide (key = "a") then
       modify (on_scene (λ sc, with_selection (entities sc) sc)) ;;
       render_selection
     else ret tt)
    (λ _, ret tt).

End Selector.
End Selector.

(** ** [HierarchyList] *)

Module HierarchyList.
Section HierarchyList.
Context `{!Python}.

(** [LEVEL_EDITOR.entities[self.entity_indices[row]]]. *)
Definition entity_of_row (entity_indices : list Z) (row : Z) : py ctx ref :=
  index <- of_option IndexError (py_getitem entity_indices row) ;;
  l <- gets (λ s, entities (scene s)) ;;
  of_option IndexError (py_getitem l index).

(** [HierarchyList.input]; [bg_hovered] is [self.bg.hovered], [y] the
    row the mouse position gives, [prev_y] is [self.prev_y] before the
    call and the value is [self.prev_y] after it. *)
Definition input (key : string) (bg_hovered : bool) (y : Z)
    (entity_indices : list Z) (prev_y : option Z) (control shift : bool)
    : py ctx (option Z) :=
  prev_y' <-
    (if bool_decide (key = "left mouse down") && bg_hovered then
       try_except_index_error
         (l <- gets (λ s, entities (scene s)) ;;
          if bool_decide (y < Z.of_nat (length l))%Z then
            if negb control && negb shift then
              e <- entity_of_row entity_indices y ;;
              modify (on_scene (with_selection [e]))
            else if control && negb shift then
              e <- entity_of_row entity_indices y ;;
              modify (on_scene (λ sc, with_selection (selection sc ++ [e]) sc))
            else
              match prev_y with
              | Some prev =>
                  if shift && negb (bool_decide (prev = 0%Z)) then
                    let from_y := Z.min prev y in
                    let to_y := Z.max prev y in
                    for_each (seqZ from_y (to_y + 1 - from_y)) (λ row,
                      e <- entity_of_row entity_indices row ;;
                      modify (on_scene (λ sc, with_selection (selection sc ++ [e]) sc)))
                  else ret tt
              | None => ret tt
              end
          else ret tt)
         (ret tt) ;;
       (if negb control && negb shift
        then modify (on_scene (with_selection []))
        else ret tt) ;;
       render_selection ;;
       ret (Some y)
     else ret prev_y) ;;
  (if bool_decide (key = "left mouse up") then render_selection else ret tt) ;;
  ret prev_y'.

End HierarchyList.
End HierarchyList.

(** ** [MenuHandler] *)

Module MenuHandler.

(** [self._state] ([None] before the first change, then a state name)
    and the [enabled] flag of the entity of every state. *)
Record t := Self {
  _state : option string;
  enabled : gmap string bool }.

(** The keys of [self.states]. *)
Definition states : list string :=
  ["None"; "model_menu"; "texture_menu"; "shader_menu"; "color_menu";
   "collider_menu"; "class_menu"].

Definition keybinds : list (string * string) :=
  [("m", "model_menu"); ("v", "texture_menu"); ("n", "shader_menu");
   ("b", "color_menu"); ("escape", "None")].

(** The setter of [state].  Every entity of [self.states] is a live
    entity, so [if e] holds for each of them. *)
Definition set_state (value : string) (self : t) : t :=
  if bool_decide (value ∈ states) then
    if bool_decide (_state self = Some value)
    then Self (_state self) (alter negb value (enabled self))
    else Self (Some value)
              (foldl (λ en key, <[key := bool_decide (key = value)]> en)
                     (enabled self) states)
  else self.

(** [MenuHandler.input]; [control], [shift], [alt] are the held keys
    and [selection] is [LEVEL_EDITOR.selection]. *)
Definition input (key : string) (control shift alt : bool) (selection : list ref)
    (self : t) : t :=
  if bool_decide (key = "escape") && negb (bool_decide (_state self = Some "None"))
  then set_state "None" self
  else if negb (bool_decide (_state self = Some "None")) then self
  else if negb control && negb shift && negb alt
          && negb (bool_decide (selection = []))
       then match list_to_map (M := gmap string string) keybinds !! key with
            | Some menu => set_state menu self
            | None => self
            end
       else self.

End MenuHandler.

(** ** [ColorMenu.close] *)

Module ColorMenu.
Section ColorMenu.
Context `{!Python}.

(** [ColorMenu.close]; the menu handler is passed and returned. *)
Definition close (menu_handler : MenuHandler.t) : py ctx MenuHandler.t :=
  let menu_handler := MenuHandler.set_state "None" menu_handler in
  try_except
    (sel <- gets (λ s, selection (scene s)) ;;
     undo_entries <-
       map_m (λ e, l <- gets (λ s, entities (scene s)) ;;
                   index <- of_option ValueError (py_index e l) ;;
                   original_color <- getattr e "original_color" ;;
                   color <- getattr e "color" ;;
                   ret (index, "color", original_color, color)) sel ;;
     record_undo (attribute_changes undo_entries))
    (λ _, ret tt) ;;
  ret menu_handler.

End ColorMenu.
End ColorMenu.

(** ** [QuickGrabber.drop] *)

Module QuickGrabber.
Section QuickGrabber.
Context `{!Python}.

(** [a != b] on positions: vectors are compared component by
    component. *)
Definition vec_eqb (u v : Vec3) : bool :=
  let '(ux, uy, uz) := u in
  let '(vx, vy, vz) := v in
  Qeq_bool ux vx && Qeq_bool uy vy && Qeq_bool uz vz.

Definition py_ne (a b : value) : bool :=
  match a, b with
  | VVec u, VVec v => negb (vec_eqb u v)
  | _, _ => negb (bool_decide (a = b))
  end.

(** [QuickGrabber.drop]; [target_entity] is [self.target_entity]. *)
Definition drop (target_entity : option ref) : py ctx unit :=
  try_except
    (target <- of_option AttributeError target_entity ;;
     restore_parent target ;;
     world_position <- getattr target "world_position" ;;
     original <- getattr target "_original_world_position" ;;
     if py_ne world_position original then
       sel <- gets (λ s, selection (scene s)) ;;
       changes <-
         map_m (λ e, l <- gets (λ s, entities (scene s)) ;;
                     index <- of_option ValueError (py_index e l) ;;
                     old <- getattr e "_original_world_position" ;;
                     new <- getattr e "world_position" ;;
                     ret (index, "world_position", old, new)) sel ;;
       record_undo (attribute_changes changes) ;;
       modify (on_scene (with_selection [])) ;;
       render_selection
     else
       modify (on_scene (with_selection [target])) ;;
       render_selection)
    (λ _, ret tt).

End QuickGrabber.
End QuickGrabber.

(** ** Predicates on the tools *)

(** The attributes of an entity after [add_entity] gave it the
    defaults it lacked. *)
Definition with_defaults (o : obj) : obj :=
  Obj (cls o) (attrs o ∪ list_to_map editing_defaults) (destroyed o).

(** The entity [spawn_entity] registers for the object [o] its class
    built. *)
Definition spawned (o : obj) : obj :=
  let o1 := if bool_decide (is_Some (attrs o !! "collider_type")) then o
            else with_attr "collider_type" (VStr "None") o in
  if value_truthy (default VNone (attrs o !! "shader")) then o1
  else with_attr "shader" lit_with_shadows_shader o1.

(** The log is what it was and the registry has only grown at its end. *)
Definition only_adds (s s' : ctx) : Prop :=
  same_log s s' ∧ entities (scene s) `prefix_of` entities (scene s').

(** [[e.world_position for e in selection]], as far as the selected
    entities have one. *)
Definition world_positions (s : ctx) : list value :=
  omap (λ e, heap s !! e ≫= λ o, attrs o !! "world_position") (selection (scene s)).

(** [e.parent] in state [s]. *)
Definition parent_of (s : ctx) (e : ref) : option value :=
  o ← heap s !! e; Some (default (VSym "scene") (attrs o !! "parent")).


(** What a click in the hierarchy list may change: the selection only,
    which stays inside the registry. *)
Definition selects_registered (s s' : ctx) : Prop :=
  heap s' = heap s ∧ entities (scene s') = entities (scene s) ∧
  same_log s s' ∧ selection_in_registry (scene s').

(** At most one menu is shown: the flags belong to the states, and an
    enabled entity is the one of the current state. *)
Definition one_menu (self : MenuHandler.t) : Prop :=
  (∀ k, is_Some (MenuHandler.enabled self !! k) → k ∈ MenuHandler.states) ∧
  (∀ k, MenuHandler.enabled self !! k = Some true → MenuHandler._state self = Some k).

(** A handler with every menu closed, for the examples. *)
Definition closed_menus : MenuHandler.t :=
  MenuHandler.Self (Some "None")
    (list_to_map [("None", true); ("model_menu", false); ("texture_menu", false);
                  ("shader_menu", false); ("color_menu", false);
                  ("collider_menu", false); ("class_menu", false)]).

(** The tuple [ColorMenu.close] records for the selected entity [e];
    [None] stands for a missing attribute, 0 for an unregistered
    entity. *)
Definition attr_of (s : ctx) (e : ref) (k : string) : value :=
  default VNone (heap s !! e ≫= λ o, attrs o !! k).

Definition color_change (s : ctx) (e : ref) : change :=
  (index_of (entities (scene s)) e, "color",
   attr_of s e "original_color", attr_of s e "color").

(** Every selected entity has a colour and its colour when the menu
    opened. *)
Definition selection_coloured (s : ctx) : Prop :=
  ∀ e, e ∈ selection (scene s) →
       ∃ o, heap s !! e = Some o ∧ is_Some (attrs o !! "original_color") ∧
            is_Some (attrs o !! "color").

(** The tuple [QuickGrabber.drop] records for the selected entity [e]. *)
Definition position_change (s : ctx) (e : ref) : change :=
  (index_of (entities (scene s)) e, "world_position",
   attr_of s e "_original_world_position", attr_of s e "world_position").

(** Every selected entity has a position and the position it had when
    the drag began. *)
Definition selection_positioned (s : ctx) : Prop :=
  ∀ e, e ∈ selection (scene s) →
       ∃ o, heap s !! e = Some o ∧
            is_Some (attrs o !! "_original_world_position") ∧
            is_Some (attrs o !! "world_position").

(** [hasattr(p, 'is_gizmo') and p.is_gizmo] on the heap [h]. *)
Definition is_gizmo_value (h : gmap ref obj) (p : value) : bool :=
  match p with
  | VRef pr => default false (value_truthy <$> (h !! pr ≫= λ o, attrs o !! "is_gizmo"))
  | _ => false
  end.

(** The parent [GizmoArrow.drag] remembers for [e] in state [s]: its
    parent, or the engine's root when that parent is a gizmo. *)
Definition remembered_parent (s : ctx) (e : ref) : value :=
  let p := default (VSym "scene") (parent_of s e) in
  if is_gizmo_value (heap s) p then VSym "scene" else p.

(** The object [GizmoArrow.drag] makes of [o]. *)
Definition drag_object (original_parent pivot transform : value) (o : obj) : obj :=
  with_attr "_original_world_transform" transform
    (with_attr "always_on_top" (VBool false)
       (with_attr "parent" pivot
          (with_attr "original_parent" original_parent o))).

(** Every selected entity has a transform. *)
Definition selection_placed (s : ctx) : Prop :=
  ∀ e, e ∈ selection (scene s) →
       ∃ o, heap s !! e = Some o ∧ is_Some (attrs o !! "world_transform").

(** What [GizmoArrow.drag] with the pivot [pivot] makes of the entity
    [e] of state [s], whose object is [o]. *)
Definition drag_of (s : ctx) (pivot e : ref) (o : obj) : obj :=
  drag_object (remembered_parent s e) (VRef pivot)
              (default VNone (attrs o !! "world_transform")) o.

(** The mouse is over no registered entity, or gives no usable normal. *)
Definition missed (s : ctx) (hovered_entity : option ref) (normal : option Vec3) : Prop :=
  match hovered_entity, normal with
  | Some target, Some n =>
      target ∉ entities (scene s) ∨ BoxGizmo.is_zero_vec n = true
  | _, _ => True
  end.
(** * Properties *)

(** ** Reasoning about monadic code: relations every step respects *)

Section Steps.
Context {S : Type} (R : S → S → Prop) `{!PreOrder R}.

Lemma steps_ret {A} (a : A) : steps R (ret a).
Proof. intros s. reflexivity. Qed.

Lemma steps_raise {A} e : steps R (@raise S A e).
Proof. intros s. reflexivity. Qed.

Lemma steps_gets {A} (f : S → A) : steps R (gets f).
Proof. intros s. reflexivity. Qed.

Lemma steps_of_option {A} e (o : option A) : steps R (of_option e o).
Proof. destruct o; [apply steps_ret | apply steps_raise]. Qed.

Lemma steps_modify (f : S → S) : (∀ s, R s (f s)) → steps R (modify f).
Proof. intros Hf s. apply Hf. Qed.

Lemma steps_bind {A B} (m : py S A) (k : A → py S B) :
  steps R m → (∀ a, steps R (k a)) → steps R (bind m k).
Proof.
  intros Hm Hk s. unfold bind. specialize (Hm s).
  destruct (m s) as [[a|e] s1]; simpl in *; [|done].
  etrans; [exact Hm | apply Hk].
Qed.

Lemma steps_try_except {A} (m : py S A) h :
  steps R m → (∀ e, steps R (h e)) → steps R (try_except m h).
Proof.
  intros Hm Hh s. unfold try_except. specialize (Hm s).
  destruct (m s) as [[a|e] s1]; simpl in *; [done|].
  etrans; [exact Hm | apply Hh].
Qed.

Lemma steps_try_except_value_error {A} (m h : py S A) :
  steps R m → steps R h → steps R (try_except_value_error m h).
Proof.
  intros Hm Hh. apply steps_try_except; [done|].
  intros []; first [exact Hh | apply steps_raise].
Qed.

Lemma steps_for_each {B} (l : list B) (f : B → py S unit) :
  (∀ x, steps R (f x)) → steps R (for_each l f).
Proof.
  intros Hf. induction l as [|x l IH]; simpl.
  - apply steps_ret.
  - apply steps_bind; [apply Hf | intros _; exact IH].
Qed.

Lemma steps_map_m {B C} (f : B → py S C) (l : list B) :
  (∀ x, steps R (f x)) → steps R (map_m f l).
Proof.
  intros Hf. induction l as [|x l IH]; simpl.
  - apply steps_ret.
  - apply steps_bind; [apply Hf | intros y].
    apply steps_bind; [exact IH | intros ys; apply steps_ret].
Qed.

Lemma steps_gather {B C} (f : B → py S (option C)) (l : list B) :
  (∀ x, steps R (f x)) → steps R (gather f l).
Proof.
  intros Hf. induction l as [|x l IH]; simpl.
  - apply steps_ret.
  - apply steps_bind; [apply Hf | intros y].
    apply steps_bind; [exact IH | intros ys; apply steps_ret].
Qed.

End Steps.

(** Break a program down to its state updates. *)
Ltac solve_preorder :=
  lazymatch goal with
  | |- PreOrder _ => apply _
  | _ => idtac
  end.

Tactic Notation "step_with" uconstr(lem) := apply lem; solve_preorder.

Ltac steps_tac :=
  repeat first
    [ step_with steps_ret | step_with steps_raise | step_with steps_gets
    | step_with steps_of_option
    | step_with steps_bind; [|intros ?]
    | step_with steps_try_except; [|intros ?]
    | step_with steps_try_except_value_error
    | step_with steps_for_each; intros ?
    | step_with steps_map_m; intros ?
    | step_with steps_gather; intros ?
    | match goal with
      | |- steps _ (if ?c then _ else _) => destruct c
      | |- steps _ (match ?x with _ => _ end) => destruct x
      | |- steps _ (let '(_, _) := ?x in _) => destruct x
      end ].

(** A handler that swallows the exception always ends normally. *)
Lemma try_except_swallow {S} (m : py S unit) s :
  (try_except m (λ _, ret tt) s).1 = Ok tt.
Proof. unfold try_except. by destruct (m s) as [[[]|e] s1]. Qed.

(** ** The undo log *)

Lemma py_getitem_nonneg {A} (l : list A) (i : Z) :
  (0 ≤ i)%Z → py_getitem l i = l !! Z.to_nat i.
Proof. intros Hi. unfold py_getitem. by rewrite decide_True. Qed.

Lemma py_getitem_in_range {A} (l : list A) (i : Z) :
  (0 ≤ i < Z.of_nat (length l))%Z → is_Some (py_getitem l i).
Proof.
  intros Hi. rewrite py_getitem_nonneg by lia.
  apply lookup_lt_is_Some. lia.
Qed.

Section UndoLog.
Context `{!Python}.

Global Instance same_log_preorder : PreOrder same_log.
Proof.
  split.
  - by intros s.
  - intros s1 s2 s3 [H1 H2] [H3 H4]. split; congruence.
Qed.

Lemma same_log_modify f :
  (∀ s, undo_data (scene (f s)) = undo_data (scene s) ∧
        undo_index (scene (f s)) = undo_index (scene s)) →
  steps same_log (modify f).
Proof. intros Hf. step_with steps_modify. exact Hf. Qed.

Lemma same_log_setattr e k v : steps same_log (setattr e k v).
Proof. by apply same_log_modify. Qed.

Lemma same_log_destroy e : steps same_log (destroy e).
Proof. by apply same_log_modify. Qed.

Lemma same_log_alloc o : steps same_log (alloc o).
Proof. by intros s. Qed.

Lemma same_log_getattr e k : steps same_log (getattr e k).
Proof. unfold getattr. steps_tac. Qed.

Lemma same_log_get_parent e : steps same_log (get_parent e).
Proof. unfold get_parent. steps_tac. Qed.

Lemma same_log_render_selection : steps same_log render_selection.
Proof. by apply same_log_modify. Qed.

Lemma same_log_apply_undo r : steps same_log (apply_undo r).
Proof.
  destruct r as [ids recipes|ids recipes|changes]; simpl.
  - unfold reinsert_entities, reinsert_one. steps_tac;
      first [apply same_log_setattr | apply same_log_alloc
            | apply same_log_get_parent | by apply same_log_modify].
  - unfold remove_entities. steps_tac;
      first [apply same_log_destroy | by apply same_log_modify].
  - unfold set_attributes, set_one. steps_tac; apply same_log_setattr.
Qed.

Lemma same_log_apply_redo r : steps same_log (apply_redo r).
Proof.
  destruct r as [ids recipes|ids recipes|changes]; simpl.
  - unfold remove_entities. steps_tac;
      first [apply same_log_destroy | by apply same_log_modify].
  - unfold reinsert_entities, reinsert_one. steps_tac;
      first [apply same_log_setattr | apply same_log_alloc
            | apply same_log_get_parent | by apply same_log_modify].
  - unfold set_attributes, set_one. steps_tac; apply same_log_setattr.
Qed.

Lemma same_log_after_apply m s :
  steps same_log m → same_log s (after_apply m s).
Proof.
  intros Hm. unfold after_apply.
  etrans; [|apply same_log_render_selection].
  step_with (steps_try_except same_log); [done|intros; step_with steps_ret].
Qed.

Lemma undo_unfold s r :
  (0 ≤ undo_index (scene s))%Z →
  py_getitem (undo_data (scene s)) (undo_index (scene s)) = Some r →
  undo s = (Ok tt, on_scene (λ sc, with_undo (undo_data sc) (undo_index sc - 1) sc)
                            (after_apply (apply_undo r) s)).
Proof.
  intros Hi Hr. unfold undo, bind at 1, gets; simpl.
  rewrite decide_False by lia.
  unfold bind at 1; simpl. unfold bind at 1; simpl. rewrite Hr; simpl.
  unfold bind at 1. unfold after_apply.
  pose proof (try_except_swallow (apply_undo r) s) as Hok.
  destruct (try_except (apply_undo r) (λ _, ret tt) s) as [o s1]; simpl in *.
  subst o. reflexivity.
Qed.

Lemma redo_unfold s r :
  (undo_index (scene s) + 2 ≤ Z.of_nat (length (undo_data (scene s))))%Z →
  py_getitem (undo_data (scene s)) (undo_index (scene s) + 1) = Some r →
  redo s = (Ok tt, on_scene (λ sc, with_undo (undo_data sc) (undo_index sc + 1) sc)
                            (after_apply (apply_redo r) s)).
Proof.
  intros Hi Hr. unfold redo, bind at 1, gets; simpl.
  unfold bind at 1; simpl.
  rewrite decide_False by lia.
  unfold bind at 1; simpl. rewrite Hr; simpl.
  unfold bind at 1. unfold after_apply.
  pose proof (try_except_swallow (apply_redo r) s) as Hok.
  destruct (try_except (apply_redo r) (λ _, ret tt) s) as [o s1]; simpl in *.
  subst o. reflexivity.
Qed.

End UndoLog.

(** ** Recording an entry *)

Section RecordUndo.

(** C4. Recording an entry on a log whose cursor is in range (-1 meaning
    nothing applied) keeps the entries up to the cursor, appends the new
    record and advances the cursor by one: the entries after the cursor
    are gone, the cursor points at the new record, which is the last
    one, and nothing but the log changes. *)
Theorem record_undo_truncates_then_appends (s : ctx) (data : undo_record) :
  log_wf (scene s) →
  let s' := exec (record_undo data) s in
  result (record_undo data) s = Ok tt ∧
  undo_data (scene s') =
    take (Z.to_nat (undo_index (scene s) + 1)) (undo_data (scene s)) ++ [data] ∧
  undo_index (scene s') = (undo_index (scene s) + 1)%Z ∧
  py_getitem (undo_data (scene s')) (undo_index (scene s')) = Some data ∧
  Z.of_nat (length (undo_data (scene s'))) = (undo_index (scene s') + 1)%Z ∧
  heap s' = heap s ∧
  entities (scene s') = entities (scene s) ∧
  selection (scene s') = selection (scene s).
Proof.
  intros [Hlo Hhi]; simpl.
  unfold exec, result, record_undo, modify, on_scene; simpl.
  unfold py_slice_to. rewrite decide_True by lia.
  set (n := Z.to_nat (undo_index (scene s) + 1)).
  assert (Hn : length (take n (undo_data (scene s))) = n).
  { rewrite length_take. lia. }
  repeat split.
  - rewrite py_getitem_nonneg by lia. fold n.
    rewrite lookup_app_r by lia. rewrite Hn, Nat.sub_diag. done.
  - rewrite length_app, Hn. simpl. lia.
Qed.

End RecordUndo.

(** Recording on the log [r1; r2; r3] with the cursor on [r1]. *)
Lemma record_undo_truncates_then_appends_witness :
  let r1 := attribute_changes [(0, "color", VSym "white", VSym "red")] in
  let r2 := delete_entities [1] ["WhiteCube"] in
  let r3 := restore_entities [0] ["Entity"] in
  let s := Ctx ∅ 0 ∅ (with_undo [r1; r2; r3] 0 (Sample.scene_of [])) in
  log_wf (scene s) ∧
  undo_data (scene (exec (record_undo r3) s)) = [r1; r3] ∧
  undo_index (scene (exec (record_undo r3) s)) = 1%Z.
Proof.
  intros r1 r2 r3 s.
  assert (Hwf : log_wf (scene s)) by (unfold log_wf; simpl; lia).
  split; [exact Hwf|].
  destruct (record_undo_truncates_then_appends s r3 Hwf)
    as (_ & Hdata & Hindex & _).
  split; [exact Hdata | exact Hindex].
Defined.

(** ** The cursor moves whether or not the entry applies *)

Section Cursor.
Context `{!Python}.

(** C10. Once the guard of [undo] (cursor >= 0) or of [redo] (an entry
    after the cursor) passes on a log whose cursor is in range, the call
    ends normally and the cursor has moved by one, whatever applying the
    entry did: an exception raised while applying it is caught and the
    entry is consumed all the same.  The log itself is not changed. *)
Theorem cursor_moves_whatever_applying_does (s : ctx) :
  log_wf (scene s) →
  ((0 ≤ undo_index (scene s))%Z →
     result undo s = Ok tt ∧
     undo_index (scene (exec undo s)) = (undo_index (scene s) - 1)%Z ∧
     undo_data (scene (exec undo s)) = undo_data (scene s)) ∧
  ((undo_index (scene s) + 2 ≤ Z.of_nat (length (undo_data (scene s))))%Z →
     result redo s = Ok tt ∧
     undo_index (scene (exec redo s)) = (undo_index (scene s) + 1)%Z ∧
     undo_data (scene (exec redo s)) = undo_data (scene s)).
Proof.
  intros [Hlo Hhi]. split; intros Hguard.
  - destruct (py_getitem_in_range (undo_data (scene s)) (undo_index (scene s)))
      as [r Hr]; [lia|].
    unfold result, exec. rewrite (undo_unfold s r) by done.
    destruct (same_log_after_apply (apply_undo r) s (same_log_apply_undo r))
      as [Hd Hi].
    cbn [fst snd]. unfold on_scene.
    cbn [scene with_scene with_undo undo_index undo_data].
    rewrite Hd, Hi. done.
  - destruct (py_getitem_in_range (undo_data (scene s)) (undo_index (scene s) + 1))
      as [r Hr]; [lia|].
    unfold result, exec. rewrite (redo_unfold s r) by done.
    destruct (same_log_after_apply (apply_redo r) s (same_log_apply_redo r))
      as [Hd Hi].
    cbn [fst snd]. unfold on_scene.
    cbn [scene with_scene with_undo undo_index undo_data].
    rewrite Hd, Hi. done.
Qed.

End Cursor.

(** An entry that cannot be applied: it names index 5 of a registry of
    one entity.  Applying it raises, [undo] ends normally, the registry
    is untouched and the cursor has moved. *)
Lemma cursor_moves_whatever_applying_does_witness :
  let r := delete_entities [5] ["Entity"] in
  let s := Ctx {[1 := Sample.entity "Entity"]} 2 ∅
               (with_undo [r] 0 (Sample.scene_of [1])) in
  log_wf (scene s) ∧
  result (@apply_undo Sample.python r) s = Raise IndexError ∧
  result (@undo Sample.python) s = Ok tt ∧
  undo_index (scene (exec (@undo Sample.python) s)) = (-1)%Z ∧
  entities (scene (exec (@undo Sample.python) s)) = [1].
Proof.
  intros r s.
  assert (Hwf : log_wf (scene s)) by (unfold log_wf; simpl; lia).
  destruct (@cursor_moves_whatever_applying_does Sample.python s Hwf)
    as [Hundo _].
  destruct Hundo as (Hres & Hidx & _); [simpl; lia|].
  split; [exact Hwf|].
  split; [reflexivity|].
  split; [exact Hres|].
  split; [exact Hidx | reflexivity].
Defined.

(** ** Loops whose body is a state update *)

Lemma for_each_update {S B} (f : B → py S unit) (g : B → S → S) l s :
  (∀ x s, f x s = (Ok tt, g x s)) →
  for_each l f s = (Ok tt, foldl (λ s x, g x s) s l).
Proof.
  intros Hf. revert s. induction l as [|x l IH]; intros s; simpl; [done|].
  unfold bind. rewrite Hf. apply IH.
Qed.

Lemma map_m_read {S B C} (f : B → py S C) (g : B → C) l s :
  (∀ x, x ∈ l → f x s = (Ok (g x), s)) →
  map_m f l s = (Ok (g <$> l), s).
Proof.
  induction l as [|x l IH]; intros Hf; simpl; [done|].
  unfold bind at 1. rewrite Hf by set_solver.
  unfold bind at 1. rewrite IH by set_solver. done.
Qed.

(** ** Python's list operations *)

Lemma elem_of_py_remove x y l : x ∈ py_remove y l → x ∈ l.
Proof.
  induction l as [|z l IH]; simpl; [done|].
  destruct (decide (y = z)); set_solver.
Qed.

Lemma elem_of_py_remove_ne x y l : x ∈ l → x ≠ y → x ∈ py_remove y l.
Proof.
  induction l as [|z l IH]; simpl; [done|].
  destruct (decide (y = z)); set_solver.
Qed.

Lemma py_remove_absent x l : x ∉ l → py_remove x l = l.
Proof.
  induction l as [|z l IH]; simpl; [done|].
  intros Hx. destruct (decide (x = z)); [set_solver|].
  f_equal. apply IH. set_solver.
Qed.

Lemma elem_of_py_insert {A} (x y : A) i l : x ∈ l → x ∈ py_insert i y l.
Proof.
  intros Hx. unfold py_insert.
  rewrite <- (take_drop i l) in Hx. set_solver.
Qed.

Lemma length_py_insert {A} (y : A) i l : length (py_insert i y l) = S (length l).
Proof.
  unfold py_insert. rewrite length_app. simpl.
  rewrite length_take, length_drop. lia.
Qed.

(** ** The selection stays within the registry *)

Section SelectionInvariant.
Context `{!Python}.

Global Instance keeps_selection_preorder : PreOrder keeps_selection.
Proof.
  split.
  - intros s Hs. exact Hs.
  - intros s1 s2 s3 H12 H23 Hs. apply H23, H12, Hs.
Qed.

Lemma heap_fresh_alter (f : obj → obj) e s :
  heap_fresh s → heap_fresh (with_heap (alter f e (heap s)) s).
Proof.
  intros Hfresh r Hr. apply Hfresh. simpl in Hr.
  rewrite lookup_alter in Hr. case_decide; [subst|done].
  by apply fmap_is_Some in Hr.
Qed.

(** An update of one heap object that never revives it. *)
Lemma keeps_selection_alter (f : obj → obj) e :
  (∀ o, destroyed o = true → destroyed (f o) = true) →
  steps keeps_selection (modify (λ s, with_heap (alter f e (heap s)) s)).
Proof.
  intros Hf. step_with steps_modify. intros s [Hfresh Hsel].
  split; [by apply heap_fresh_alter|].
  intros x Hx. destruct (Hsel x Hx) as (o & Ho & Hcase).
  simpl. rewrite lookup_alter. case_decide as Heq.
  - subst x. rewrite Ho. simpl. exists (f o). split; [done|].
    destruct Hcase; [by left | right; by apply Hf].
  - exists o. done.
Qed.

Lemma keeps_selection_setattr e k v : steps keeps_selection (setattr e k v).
Proof. by apply keeps_selection_alter. Qed.

Lemma keeps_selection_destroy e : steps keeps_selection (destroy e).
Proof. by apply keeps_selection_alter. Qed.

Lemma keeps_selection_alloc o : steps keeps_selection (alloc o).
Proof.
  intros s [Hfresh Hsel]. split.
  - intros r Hr. simpl in *.
    rewrite lookup_insert in Hr. case_decide; [subst; lia|].
    specialize (Hfresh r Hr). lia.
  - intros x Hx. destruct (Hsel x Hx) as (ox & Ho & Hcase).
    exists ox. split; [|done]. simpl.
    rewrite lookup_insert_ne; [done|].
    intros Heq. assert (next_ref s < next_ref s); [|lia].
    apply Hfresh. subst x. by exists ox.
Qed.

Lemma keeps_selection_get_parent e : steps keeps_selection (get_parent e).
Proof. unfold get_parent. steps_tac. Qed.

Lemma keeps_selection_insert id clone :
  steps keeps_selection
    (modify (on_scene (λ sc, with_entities (py_insert id clone (entities sc)) sc))).
Proof.
  step_with steps_modify. intros s [Hfresh Hsel]. split; [done|].
  intros x Hx. destruct (Hsel x Hx) as (o & Ho & Hcase).
  exists o. split; [done|]. destruct Hcase; [left|by right].
  simpl. by apply elem_of_py_insert.
Qed.

Lemma keeps_selection_deselect e :
  steps keeps_selection
    (modify (on_scene (λ sc, with_selection (py_remove e (selection sc)) sc))).
Proof.
  step_with steps_modify. intros s [Hfresh Hsel]. split; [done|].
  intros x Hx. simpl in Hx. apply elem_of_py_remove in Hx. by apply Hsel.
Qed.

(** The body of the second loop of [remove_entities]: the entity leaves
    the registry and is destroyed. *)
Lemma keeps_selection_remove_destroy e :
  steps keeps_selection
    (l <- gets (λ s, entities (scene s)) ;;
     (if decide (e ∈ l)
      then modify (on_scene (λ sc, with_entities (py_remove e (entities sc)) sc))
      else ret tt) ;;
     destroy e).
Proof.
  intros s [Hfresh Hsel].
  assert (Hgoal : ∀ l', (∀ x, x ∈ entities (scene s) → x ≠ e → x ∈ l') →
     selection_registered_or_destroyed
       (with_heap (alter mark_destroyed e (heap s))
                  (on_scene (with_entities l') s))).
  { intros l' Hl'. split; [by apply (heap_fresh_alter _ _ (on_scene _ s))|].
    intros x Hx. simpl in *.
    destruct (Hsel x Hx) as (o & Ho & Hcase).
    rewrite lookup_alter. case_decide as Heq.
    - subst x. rewrite Ho. simpl. exists (mark_destroyed o). split; [done|by right].
    - exists o. split; [done|]. destruct Hcase; [left|by right].
      apply Hl'; [done|congruence]. }
  unfold bind, gets; simpl. destruct (decide (e ∈ entities (scene s))); simpl.
  - apply Hgoal. intros x Hx Hne. by apply elem_of_py_remove_ne.
  - destruct s as [h nr fs [c nm p l sel sp d i]]. apply (Hgoal l). by intros.
Qed.

Lemma keeps_selection_render : steps keeps_selection render_selection.
Proof.
  step_with steps_modify. intros s [Hfresh Hsel]. split; [done|].
  intros x Hx. simpl in Hx. apply list_elem_of_filter in Hx as [_ Hx].
  by apply Hsel.
Qed.

Lemma keeps_selection_apply_undo r : steps keeps_selection (apply_undo r).
Proof.
  destruct r as [ids recipes|ids recipes|changes]; simpl.
  - unfold reinsert_entities, reinsert_one. steps_tac;
      first [apply keeps_selection_setattr | apply keeps_selection_alloc
            | apply keeps_selection_get_parent | apply keeps_selection_insert].
  - unfold remove_entities.
    step_with steps_bind; [steps_tac|intros targets].
    step_with steps_bind; [|intros _].
    + step_with steps_for_each. intros e. steps_tac. apply keeps_selection_deselect.
    + step_with steps_for_each. intros e. apply keeps_selection_remove_destroy.
  - unfold set_attributes, set_one. steps_tac; apply keeps_selection_setattr.
Qed.

Lemma keeps_selection_apply_redo r : steps keeps_selection (apply_redo r).
Proof.
  destruct r as [ids recipes|ids recipes|changes];
    [apply (keeps_selection_apply_undo (delete_entities ids recipes))
    |apply (keeps_selection_apply_undo (restore_entities ids recipes))|].
  simpl. unfold set_attributes, set_one. steps_tac; apply keeps_selection_setattr.
Qed.

(** After [render_selection] the selected entities are in the registry. *)
Lemma selection_in_registry_after_apply m s :
  steps keeps_selection m →
  selection_registered_or_destroyed s →
  selection_in_registry (scene (after_apply m s)).
Proof.
  intros Hm Hs. unfold after_apply.
  assert (Hs1 : selection_registered_or_destroyed (try_except m (λ _, ret tt) s).2).
  { revert Hs. apply (steps_try_except keeps_selection m (λ _, ret tt));
      [done|]. intros; step_with steps_ret. }
  destruct Hs1 as [_ Hsel]. intros x Hx. simpl in Hx.
  apply list_elem_of_filter in Hx as [Htruthy Hx].
  destruct (Hsel x Hx) as (o & Ho & [Hin|Hd]); [done|].
  unfold truthy in Htruthy. rewrite Ho, Hd in Htruthy. done.
Qed.

Lemma undo_cases s :
  (undo s).2 = s ∨
  ∃ r, (undo s).2 = on_scene (λ sc, with_undo (undo_data sc) (undo_index sc - 1) sc)
                             (after_apply (apply_undo r) s).
Proof.
  destruct (decide (undo_index (scene s) < 0)%Z) as [Hneg|Hpos].
  - left. unfold undo, bind, gets; simpl. by rewrite decide_True.
  - destruct (py_getitem (undo_data (scene s)) (undo_index (scene s))) as [r|] eqn:Hr.
    + right. exists r. rewrite (undo_unfold s r) by (done || lia). done.
    + left. unfold undo, bind, gets; simpl. rewrite decide_False by done.
      rewrite Hr. done.
Qed.

Lemma redo_cases s :
  (redo s).2 = s ∨
  ∃ r, (redo s).2 = on_scene (λ sc, with_undo (undo_data sc) (undo_index sc + 1) sc)
                             (after_apply (apply_redo r) s).
Proof.
  destruct (decide (undo_index (scene s) + 2 > Z.of_nat (length (undo_data (scene s))))%Z)
    as [Hout|Hin].
  - left. unfold redo, bind, gets; simpl. by rewrite decide_True.
  - destruct (py_getitem (undo_data (scene s)) (undo_index (scene s) + 1)) as [r|] eqn:Hr.
    + right. exists r. rewrite (redo_unfold s r) by (done || lia). done.
    + left. unfold redo, bind, gets; simpl. rewrite decide_False by done.
      rewrite Hr. done.
Qed.

End SelectionInvariant.

(** ** Symbolic execution *)

Section Wp.
Context {S : Type}.
Implicit Types s : S.

Lemma wp_final {A} (m : py S A) (P : S → Prop) s :
  wp m (λ _, P) (λ _, P) s → P (m s).2.
Proof. unfold wp. by destruct (m s) as [[a|e] s1]. Qed.

Lemma wp_ret {A} (a : A) Q E s : Q a s → wp (ret a) Q E s.
Proof. done. Qed.

Lemma wp_raise {A} e (Q : A → S → Prop) E s : E e s → wp (raise e) Q E s.
Proof. done. Qed.

Lemma wp_gets {A} (f : S → A) Q E s : Q (f s) s → wp (gets f) Q E s.
Proof. done. Qed.

Lemma wp_modify (f : S → S) Q E s : Q tt (f s) → wp (modify f) Q E s.
Proof. done. Qed.

Lemma wp_of_option {A} e (o : option A) Q E s :
  (∀ a, o = Some a → Q a s) → (o = None → E e s) → wp (of_option e o) Q E s.
Proof. destruct o; intros HQ HE; [by apply HQ | by apply HE]. Qed.

Lemma wp_bind {A B} (m : py S A) (k : A → py S B) Q E s :
  wp m (λ a, wp (k a) Q E) E s → wp (bind m k) Q E s.
Proof. unfold wp, bind. by destruct (m s) as [[a|e] s1]. Qed.

Lemma wp_try_except {A} (m : py S A) h Q E s :
  wp m Q (λ e, wp (h e) Q E) s → wp (try_except m h) Q E s.
Proof. unfold wp, try_except. by destruct (m s) as [[a|e] s1]. Qed.

Lemma wp_mono {A} (m : py S A) (Q Q' : A → S → Prop) (E E' : exn → S → Prop) s :
  wp m Q E s → (∀ a s', Q a s' → Q' a s') → (∀ e s', E e s' → E' e s') →
  wp m Q' E' s.
Proof. unfold wp. destruct (m s) as [[a|e] s1]; auto. Qed.

(** A computation that only reads. *)
Lemma wp_read {A} (m : py S A) Q E s :
  steps eq m → (∀ a, Q a s) → (∀ e, E e s) → wp m Q E s.
Proof.
  intros Hm HQ HE. unfold wp. specialize (Hm s).
  destruct (m s) as [[a|e] s1]; simpl in *; subst; auto.
Qed.

(** A computation whose outcome is known. *)
Lemma wp_known {A} (m : py S A) Q E s r :
  m s = r →
  match r with (Ok a, s') => Q a s' | (Raise e, s') => E e s' end →
  wp m Q E s.
Proof. intros <-. done. Qed.

Lemma wp_known_ok {A} (m : py S A) Q E s a s' :
  m s = (Ok a, s') → Q a s' → wp m Q E s.
Proof. unfold wp. by intros ->. Qed.

Lemma wp_for_each {B} (I : S → Prop) (l : list B) (f : B → py S unit) Q E s :
  I s →
  (∀ x s, x ∈ l → I s → wp (f x) (λ _, I) E s) →
  (∀ s, I s → Q tt s) →
  wp (for_each l f) Q E s.
Proof.
  intros Hs Hf HQ. revert s Hs.
  induction l as [|x l IH]; intros s Hs; simpl.
  - by apply HQ.
  - apply wp_bind. eapply wp_mono; [apply (Hf x s); [by left|done]| |done].
    intros [] s' Hs'. apply IH; [|done].
    intros y s0 Hy. apply Hf. by right.
Qed.

End Wp.

Ltac wp_step :=
  lazymatch goal with
  | |- wp (bind _ _) _ _ _ => apply wp_bind
  | |- wp (try_except _ _) _ _ _ => apply wp_try_except
  | |- wp (gets _) _ _ _ => apply wp_gets
  | |- wp (modify _) _ _ _ => apply wp_modify
  | |- wp (ret _) _ _ _ => apply wp_ret
  | |- wp (raise _) _ _ _ => apply wp_raise
  | |- wp (of_option _ (Some _)) _ _ _ => apply wp_ret
  | |- wp (of_option _ None) _ _ _ => apply wp_raise
  | |- wp (record_undo _) _ _ _ => unfold record_undo; apply wp_modify
  | |- wp render_selection _ _ _ => unfold render_selection; apply wp_modify
  | |- wp (setattr _ _ _) _ _ _ => unfold setattr; apply wp_modify
  | |- wp (destroy _) _ _ _ => unfold destroy; apply wp_modify
  end.

Lemma bind_read {S A B} (m : py S A) (k : A → py S B) s :
  steps eq m →
  bind m k s = match (m s).1 with
               | Ok a => k a s
               | Raise e => (Raise e, s)
               end.
Proof.
  intros Hm. unfold bind. specialize (Hm s).
  destruct (m s) as [[a|e] s1]; simpl in *; by subst.
Qed.

(** ** Deleting the selection *)

Section DeleteSelected.
Context `{!Python}.

Lemma read_index e : steps eq (l <- gets (λ s : ctx, entities (scene s)) ;;
                               of_option ValueError (py_index e l)).
Proof. steps_tac. Qed.

Lemma read_deref e : steps eq (deref e).
Proof. unfold deref. steps_tac. Qed.

Lemma read_repr e : steps eq (o <- deref e ;; ret (repr_entity o)).
Proof. step_with steps_bind; [apply read_deref|intros; step_with steps_ret]. Qed.

(** [delete_selected] either changes nothing, because an index or a
    recipe could not be computed, or ends with an empty selection. *)
Lemma delete_selected_cases s :
  (delete_selected s).2 = s ∨ selection (scene (delete_selected s).2) = [].
Proof.
  apply (wp_final delete_selected (λ s', s' = s ∨ selection (scene s') = [])).
  unfold delete_selected. do 4 wp_step.
  apply wp_read; [step_with steps_map_m; intros; apply read_index| |by left].
  intros ids. wp_step.
  apply wp_read; [step_with steps_map_m; intros; apply read_repr| |by left].
  intros recipes. do 3 wp_step.
  apply (wp_for_each (λ _, True)); [done|..].
  { intros e s1 _ _. do 2 wp_step. destruct (decide _); by wp_step. }
  intros s1 _. wp_step.
  apply (wp_for_each (λ _, True)); [done|intros; by wp_step|].
  intros s2 _. do 3 wp_step. by right.
Qed.

(** C8. Deleting the selection, undoing and redoing each keep every
    selected entity in the registry: what they remove from the registry
    they remove from the selection, in the same call.  (The store is
    taken to be well formed: the selected references denote objects and
    the allocator's next reference is unused.) *)
Theorem removals_keep_selection_in_registry (s : ctx) :
  heap_fresh s → selection_on_heap s → selection_in_registry (scene s) →
  selection_in_registry (scene (exec delete_selected s)) ∧
  selection_in_registry (scene (exec undo s)) ∧
  selection_in_registry (scene (exec redo s)).
Proof.
  intros Hfresh Hheap Hsel.
  assert (Hinv : selection_registered_or_destroyed s).
  { split; [done|]. intros e He. destruct (Hheap e He) as [o Ho].
    exists o. split; [done|left; by apply Hsel]. }
  unfold exec. split; [|split].
  - destruct (delete_selected_cases s) as [->|Hnil]; [done|].
    intros e He. rewrite Hnil in He. by apply elem_of_nil in He.
  - destruct (undo_cases s) as [->|[r ->]]; [done|].
    apply (selection_in_registry_after_apply (apply_undo r) s);
      [apply keeps_selection_apply_undo|done].
  - destruct (redo_cases s) as [->|[r ->]]; [done|].
    apply (selection_in_registry_after_apply (apply_redo r) s);
      [apply keeps_selection_apply_redo|done].
Qed.

End DeleteSelected.

(** Loops, with what has been processed so far. *)
Section WpLoops.
Context {S : Type}.

Lemma wp_for_each_prefix {B} (I : list B → S → Prop) (l : list B)
    (f : B → py S unit) Q E (s : S) :
  I [] s →
  (∀ pre x s, x ∈ l → I pre s → wp (f x) (λ _, I (pre ++ [x])) E s) →
  (∀ s, I l s → Q tt s) →
  wp (for_each l f) Q E s.
Proof.
  intros Hs Hf HQ.
  assert (Hgen : ∀ post pre s, pre ++ post = l → I pre s →
                               wp (for_each post f) Q E s).
  { induction post as [|x post IH]; intros pre s0 Hl Hpre; simpl.
    - rewrite app_nil_r in Hl. subst. by apply HQ.
    - apply wp_bind. eapply wp_mono; [apply (Hf pre x s0)| |done].
      + subst l. apply elem_of_app. right. by left.
      + done.
      + intros [] s1 Hs1. apply (IH (pre ++ [x])); [|done].
        by rewrite <- app_assoc. }
  by apply (Hgen l []).
Qed.

Lemma wp_map_m_prefix {B C} (I : list B → list C → S → Prop) (l : list B)
    (f : B → py S C) Q E (s : S) :
  I [] [] s →
  (∀ pre res x s, x ∈ l → I pre res s →
     wp (f x) (λ c, I (pre ++ [x]) (res ++ [c])) E s) →
  (∀ res s, I l res s → Q res s) →
  wp (map_m f l) Q E s.
Proof.
  intros Hs Hf HQ.
  assert (Hgen : ∀ post pre res s (Q' : list C → S → Prop),
            pre ++ post = l → I pre res s →
            (∀ res' s', I l (res ++ res') s' → Q' res' s') →
            wp (map_m f post) Q' E s).
  { induction post as [|x post IH]; intros pre res s0 Q' Hl Hpre HQ'; simpl.
    - rewrite app_nil_r in Hl. subst. apply HQ'. by rewrite app_nil_r.
    - apply wp_bind. eapply wp_mono; [apply (Hf pre res x s0)| |done].
      + subst l. apply elem_of_app. right. by left.
      + done.
      + intros c s1 Hs1. apply wp_bind.
        apply (IH (pre ++ [x]) (res ++ [c])); [by rewrite <- app_assoc|done|].
        intros res' s' Hres'. apply wp_ret. apply HQ'.
        by rewrite <- app_assoc in Hres'. }
  apply (Hgen l [] []); [done|done|]. intros res' s'. apply HQ.
Qed.

Lemma wp_gather_prefix {B C} (I : list B → list C → S → Prop) (l : list B)
    (f : B → py S (option C)) Q E (s : S) :
  I [] [] s →
  (∀ pre res x s, x ∈ l → I pre res s →
     wp (f x) (λ c, I (pre ++ [x]) (res ++ option_list c)) E s) →
  (∀ res s, I l res s → Q res s) →
  wp (gather f l) Q E s.
Proof.
  intros Hs Hf HQ.
  assert (Hgen : ∀ post pre res s (Q' : list C → S → Prop),
            pre ++ post = l → I pre res s →
            (∀ res' s', I l (res ++ res') s' → Q' res' s') →
            wp (gather f post) Q' E s).
  { induction post as [|x post IH]; intros pre res s0 Q' Hl Hpre HQ'; simpl.
    - rewrite app_nil_r in Hl. subst. apply HQ'. by rewrite app_nil_r.
    - apply wp_bind. eapply wp_mono; [apply (Hf pre res x s0)| |done].
      + subst l. apply elem_of_app. right. by left.
      + done.
      + intros c s1 Hs1. apply wp_bind.
        apply (IH (pre ++ [x]) (res ++ option_list c)); [by rewrite <- app_assoc|done|].
        intros res' s' Hres'. apply wp_ret. apply HQ'.
        rewrite <- app_assoc in Hres'. by destruct c. }
  apply (Hgen l [] []); [done|done|]. intros res' s'. apply HQ.
Qed.

End WpLoops.

(** ** Releasing a manipulator *)

Section Release.

Lemma only_parents_refl s : only_parents s s.
Proof. split; [done|]. intros r. by destruct (heap s !! r). Qed.

Lemma only_parents_change_of s s1 e :
  only_parents s s1 → change_of s1 e = change_of s e.
Proof.
  intros [Hsc Hh]. unfold change_of. rewrite Hsc. specialize (Hh e).
  destruct (py_index e (entities (scene s))); simpl; [|done].
  destruct (heap s !! e) as [o|], (heap s1 !! e) as [o1|]; simpl; try done.
  destruct Hh as (_ & _ & Hk). by rewrite !Hk.
Qed.

Lemma only_parents_movedb s s1 e :
  only_parents s s1 → movedb s1 e = movedb s e.
Proof.
  intros [Hsc Hh]. unfold movedb. specialize (Hh e).
  destruct (heap s !! e) as [o|], (heap s1 !! e) as [o1|]; simpl; try done.
  destruct Hh as (_ & _ & Hk). by rewrite !Hk.
Qed.

Lemma restore_parent_known s s1 e o p :
  only_parents s s1 → heap s !! e = Some o →
  attrs o !! "original_parent" = Some p →
  restore_parent e s1 =
    (Ok tt, with_heap (alter (with_attr "parent" p) e (heap s1)) s1).
Proof.
  intros [Hsc Hh] Ho Hp. specialize (Hh e). rewrite Ho in Hh.
  destruct (heap s1 !! e) as [o1|] eqn:Ho1; [|done].
  destruct Hh as (_ & _ & Hk).
  unfold restore_parent, getattr, bind, gets; simpl.
  rewrite Ho1; simpl. rewrite Hk, Hp by done. done.
Qed.

Lemma wp_restore_parent s s1 e (Q : unit → ctx → Prop) E :
  only_parents s s1 → engaged s e →
  (∀ s2, only_parents s s2 → parent_restored s s2 e →
         (∀ e', parent_restored s s1 e' → parent_restored s s2 e') → Q tt s2) →
  wp (restore_parent e) Q E s1.
Proof.
  intros Hop [_ (o & Ho & [p Hp])] HQ.
  eapply wp_known_ok; [by eapply restore_parent_known|].
  destruct Hop as [Hsc Hh].
  pose proof (Hh e) as He. rewrite Ho in He.
  destruct (heap s1 !! e) as [o1|] eqn:Ho1; [|done].
  apply HQ.
  - split; [done|]. intros r. simpl. rewrite lookup_alter.
    case_decide as Hr.
    + subst r. rewrite Ho, Ho1. simpl. destruct He as (Hc & Hd & Hk).
      repeat split; [done..|]. intros k Hne.
      rewrite lookup_insert_ne by done. by apply Hk.
    + apply Hh.
  - exists o, (with_attr "parent" p o1). simpl.
    rewrite lookup_alter, decide_True, Ho1 by done. simpl.
    rewrite lookup_insert_eq. by rewrite Hp.
  - intros e' (o' & o1' & Ho' & Ho1' & Hp' & Hpar).
    destruct (decide (e = e')) as [<-|Hne].
    + exists o, (with_attr "parent" p o1). simpl.
      rewrite lookup_alter, decide_True, Ho1 by done. simpl.
      rewrite lookup_insert_eq. by rewrite Hp.
    + exists o', o1'. simpl. rewrite lookup_alter, decide_False by done. done.
Qed.

Lemma transform_change_known s s1 e c :
  only_parents s s1 → change_of s e = Some c →
  transform_change e s1 = (Ok c, s1).
Proof.
  intros Hop Hc. rewrite <- (only_parents_change_of s s1 e Hop) in Hc.
  unfold change_of in Hc. unfold transform_change, getattr, bind, gets; simpl.
  destruct (py_index e (entities (scene s1))) as [i|]; simpl in *; [|done].
  destruct (heap s1 !! e) as [o|] eqn:Ho; simpl in *; [|done].
  destruct (attrs o !! "_original_world_transform") as [old|] eqn:Hold;
    simpl in *; [|done].
  destruct (attrs o !! "world_transform") as [new|] eqn:Hnew; simpl in *; [|done].
  rewrite Ho; simpl. rewrite Hnew; simpl. by inversion Hc.
Qed.

(** The test of [GizmoArrow.drop] on the first selected entity. *)
Lemma changed_known (first : ref) s :
  try_except
    (wt <- getattr first "world_transform" ;;
     ot <- getattr first "_original_world_transform" ;;
     transform_changed wt ot)
    (λ _, ret false) s = (Ok (movedb s first), s).
Proof.
  unfold try_except, movedb, getattr, bind, gets; simpl.
  destruct (heap s !! first) as [o|] eqn:Ho; simpl; [|done].
  destruct (attrs o !! "world_transform") as [wt|]; simpl; [|done].
  rewrite Ho; simpl.
  destruct (attrs o !! "_original_world_transform") as [ot|]; simpl.
  - destruct wt as [| | | | | |[[p r] sc]|]; try done.
    destruct ot as [| | | | | |[[p' r'] sc']|]; done.
  - destruct wt as [| | | | | |[[p r] sc]|]; done.
Qed.

Lemma wp_ok {S A} (m : py S A) (Q : A → S → Prop) (s : S) :
  wp m Q (λ _ _, False) s → ∃ a, result m s = Ok a ∧ Q a (exec m s).
Proof.
  unfold wp, result, exec. destruct (m s) as [[a|e] s1]; [|done].
  intros HQ. by exists a.
Qed.

Lemma wp_bind_inv {S A B} (m : py S A) (k : A → py S B) Q E (s : S) :
  wp (bind m k) Q E s → wp m (λ a, wp (k a) Q E) E s.
Proof. unfold wp, bind. by destruct (m s) as [[a|e] s1]. Qed.

Lemma recorded_changes_length s :
  (∀ e, e ∈ selection (scene s) → engaged s e) →
  length (recorded_changes s) = length (selection (scene s)).
Proof.
  unfold recorded_changes. induction (selection (scene s)) as [|e l IH]; [done|].
  intros Hl. simpl. destruct (Hl e) as [[c Hc] _]; [by left|].
  rewrite Hc. simpl. f_equal. apply IH. intros e' He'. apply Hl. by right.
Qed.

Lemma released_after_record s s1 r :
  only_parents s s1 →
  (∀ e, e ∈ selection (scene s) → parent_restored s s1 e) →
  wp (record_undo r ;; render_selection) (λ _, released s (log_with r s))
     (λ _ _, False) s1.
Proof.
  intros [Hsc Hh] Hpar. do 3 wp_step. split.
  - intros e He. destruct (Hpar e He) as (o & o' & Ho & Ho' & Hp & Hpp).
    by exists o, o'.
  - unfold log_with, log_of, exec, record_undo, modify. simpl. by rewrite Hsc.
Qed.

Lemma released_without_record s s1 :
  only_parents s s1 →
  (∀ e, e ∈ selection (scene s) → parent_restored s s1 e) →
  wp render_selection (λ _, released s (log_of s)) (λ _ _, False) s1.
Proof.
  intros [Hsc Hh] Hpar. wp_step. split.
  - intros e He. destruct (Hpar e He) as (o & o' & Ho & Ho' & Hp & Hpp).
    by exists o, o'.
  - unfold log_of. simpl. by rewrite Hsc.
Qed.

(** The loop shared by [RotationGizmo.drop] and [ScaleGizmo.drop]. *)
Lemma wp_restore_and_collect s (Q : list change → ctx → Prop) E :
  (∀ e, e ∈ selection (scene s) → engaged s e) →
  (∀ s1, only_parents s s1 →
         (∀ e, e ∈ selection (scene s) → parent_restored s s1 e) →
         Q (recorded_changes s) s1) →
  wp (map_m (λ e, restore_parent e ;; transform_change e) (selection (scene s)))
     Q E s.
Proof.
  intros Heng HQ.
  apply (wp_map_m_prefix (λ pre res s1,
           only_parents s s1 ∧ (∀ e, e ∈ pre → parent_restored s s1 e) ∧
           res = omap (change_of s) pre)).
  - split; [apply only_parents_refl|]. split; [|done].
    intros e He. by apply elem_of_nil in He.
  - intros pre res x s1 Hx (Hop & Hpar & ->). wp_step.
    apply (wp_restore_parent s); [done|by apply Heng|].
    intros s2 Hop2 Hx2 Hkeep.
    destruct (Heng x Hx) as [[c Hc] _].
    eapply wp_known_ok; [by eapply transform_change_known|].
    split; [done|]. split.
    + intros e He. apply elem_of_app in He as [He|He]; [by apply Hkeep, Hpar|].
      apply list_elem_of_singleton in He. by subst.
    + rewrite omap_app. simpl. by rewrite Hc.
  - intros res s1 (Hop & Hpar & ->). by apply HQ.
Qed.

(** [RotationGizmo.drop] records on every release. *)
Lemma rotation_drop_records s :
  (∀ e, e ∈ selection (scene s) → engaged s e) →
  wp RotationGizmo.drop
     (λ _, released s (log_with (attribute_changes (recorded_changes s)) s))
     (λ _ _, False) s.
Proof.
  intros Heng. unfold RotationGizmo.drop. do 3 wp_step.
  apply (wp_restore_and_collect s); [done|].
  intros s1 Hop Hpar. by apply released_after_record.
Qed.

(** [ScaleGizmo.drop] records on every release. *)
Lemma scale_drop_records s :
  (∀ e, e ∈ selection (scene s) → engaged s e) →
  wp ScaleGizmo.drop
     (λ _, released s (log_with (attribute_changes (recorded_changes s)) s))
     (λ _ _, False) s.
Proof.
  intros Heng. unfold ScaleGizmo.drop. do 3 wp_step.
  apply (wp_restore_and_collect s); [done|].
  intros s1 Hop Hpar. by apply released_after_record.
Qed.

(** [GizmoArrow.drop] records when its flag is set and the first
    selected entity moved. *)
Lemma arrow_drop_records s flag first rest :
  selection (scene s) = first :: rest →
  (∀ e, e ∈ selection (scene s) → engaged s e) →
  wp (GizmoArrow.drop flag)
     (λ _, released s (if flag && movedb s first
                       then log_with (attribute_changes (recorded_changes s)) s
                       else log_of s))
     (λ _ _, False) s.
Proof.
  intros Hsel Heng. unfold GizmoArrow.drop. do 3 wp_step.
  apply (wp_for_each_prefix (λ pre s1,
           only_parents s s1 ∧ (∀ e, e ∈ pre → parent_restored s s1 e))).
  - split; [apply only_parents_refl|]. intros e He. by apply elem_of_nil in He.
  - intros pre x s1 Hx [Hop Hpar].
    apply (wp_restore_parent s); [done|by apply Heng|].
    intros s2 Hop2 Hx2 Hkeep. split; [done|].
    intros e He. apply elem_of_app in He as [He|He]; [by apply Hkeep, Hpar|].
    apply list_elem_of_singleton in He. by subst.
  - intros s1 [Hop Hpar]. rewrite Hsel at 1. wp_step.
    eapply wp_known_ok; [apply changed_known|].
    rewrite (only_parents_movedb s s1 first Hop). wp_step.
    destruct (flag && movedb s first).
    + wp_step.
      apply (wp_gather_prefix (λ pre res s2,
               s2 = s1 ∧ res = omap (change_of s) pre)); [done|..].
      * intros pre res x s2 Hx [-> ->].
        destruct (Heng x Hx) as [[c Hc] _].
        eapply wp_known_ok.
        { unfold try_except_value_error, try_except, bind.
          rewrite (transform_change_known s s1 x c Hop Hc). reflexivity. }
        split; [done|]. rewrite omap_app. simpl. by rewrite Hc.
      * intros res s2 [-> ->]. apply wp_bind_inv.
        by apply released_after_record.
    + wp_step. by apply released_without_record.
Qed.

End Release.

(** C1 (as the code has it). On release every selected entity is put
    back under the parent it remembered, and the batch that is recorded
    holds one (index, "world_transform", old, new) tuple for each
    selected entity, as one record.  The translate manipulator records
    that batch when its [record_undo] flag is set and the first selected
    entity is farther than the epsilon from its snapshot in position,
    rotation or scale, and leaves the log alone otherwise; the rotate
    and scale manipulators record it on every release. *)
Theorem release_restores_parents_and_records
    (s : ctx) (flag : bool) (first : ref) (rest : list ref) :
  selection (scene s) = first :: rest →
  (∀ e, e ∈ selection (scene s) → engaged s e) →
  let batch := attribute_changes (recorded_changes s) in
  length (recorded_changes s) = length (selection (scene s)) ∧
  (result (GizmoArrow.drop flag) s = Ok tt ∧
   released s (if flag && movedb s first then log_with batch s else log_of s)
            (exec (GizmoArrow.drop flag) s)) ∧
  (result RotationGizmo.drop s = Ok tt ∧
   released s (log_with batch s) (exec RotationGizmo.drop s)) ∧
  (result ScaleGizmo.drop s = Ok tt ∧
   released s (log_with batch s) (exec ScaleGizmo.drop s)).
Proof.
  intros Hsel Heng batch.
  split; [by apply recorded_changes_length|].
  split; [|split].
  - destruct (wp_ok _ _ _ (arrow_drop_records s flag first rest Hsel Heng))
      as ([] & Hres & Hpost). done.
  - destruct (wp_ok _ _ _ (rotation_drop_records s Heng)) as ([] & Hres & Hpost).
    done.
  - destruct (wp_ok _ _ _ (scale_drop_records s Heng)) as ([] & Hres & Hpost).
    done.
Qed.

(** Two entities dragged by one unit along x, then released. *)
Lemma release_restores_parents_and_records_witness :
  let s := Ctx (<[1 := Sample.dragged "WhiteCube" 9 0 Sample.origin Sample.shifted]>
                (<[2 := Sample.dragged "Entity" 9 0 Sample.origin Sample.shifted]> ∅))
               10 ∅ (with_selection [1; 2] (Sample.scene_of [1; 2])) in
  (∀ e, e ∈ selection (scene s) → engaged s e) ∧
  log_of (exec (GizmoArrow.drop true) s) =
    ([attribute_changes
        [(0, "world_transform", VTransform Sample.origin, VTransform Sample.shifted);
         (1, "world_transform", VTransform Sample.origin, VTransform Sample.shifted)]],
     0%Z) ∧
  log_of (exec (GizmoArrow.drop false) s) = ([], (-1)%Z) ∧
  log_of (exec RotationGizmo.drop s) = log_of (exec (GizmoArrow.drop true) s).
Proof.
  intros s.
  assert (Heng : ∀ e, e ∈ selection (scene s) → engaged s e).
  { intros e He. simpl in He.
    apply elem_of_cons in He as [->|He];
      [|apply list_elem_of_singleton in He as ->].
    - split; [by eexists|]. eexists. split; [reflexivity|by eexists].
    - split; [by eexists|]. eexists. split; [reflexivity|by eexists]. }
  split; [exact Heng|].
  destruct (release_restores_parents_and_records s true 1 [2] eq_refl Heng)
    as (_ & [_ [_ Harrow]] & [_ [_ Hrot]] & _).
  destruct (release_restores_parents_and_records s false 1 [2] eq_refl Heng)
    as (_ & [_ [_ Hoff]] & _).
  split; [rewrite Harrow; reflexivity|].
  split; [rewrite Hoff; reflexivity|].
  rewrite Hrot, Harrow. reflexivity.
Defined.

(** C1 fails as stated: press a ring of the rotation manipulator and
    release it without moving.  No selected entity moved, and a record
    is written all the same. *)
Lemma rotation_release_records_without_movement :
  let s0 := Ctx {[1 := Sample.placed "WhiteCube" 0 Sample.origin]} 10 ∅
                (with_selection [1] (Sample.scene_of [1])) in
  let s := exec (RotationGizmo.drag 9) s0 in
  (∀ e, e ∈ selection (scene s) → movedb s e = false) ∧
  log_of s = ([], (-1)%Z) ∧
  log_of (exec RotationGizmo.drop s) =
    ([attribute_changes
        [(0, "world_transform", VTransform Sample.origin, VTransform Sample.origin)]],
     0%Z).
Proof.
  intros s0 s. split; [|split; reflexivity].
  intros e He. apply list_elem_of_singleton in He as ->. reflexivity.
Qed.

(** Undoing the creation of a selected entity: the log says entity 1
    was created, and it is selected. *)
Lemma removals_keep_selection_in_registry_witness :
  let s := Ctx (<[1 := Sample.entity "Entity"]> (<[2 := Sample.entity "WhiteCube"]> ∅))
               3 ∅
               (with_undo [delete_entities [1] ["WhiteCube"]] 0
                  (with_selection [2] (Sample.scene_of [1; 2]))) in
  heap_fresh s ∧ selection_on_heap s ∧ selection_in_registry (scene s) ∧
  entities (scene (exec (@undo Sample.python) s)) = [1] ∧
  selection_in_registry (scene (exec (@undo Sample.python) s)).
Proof.
  intros s.
  assert (Hfresh : heap_fresh s).
  { intros r [o Ho]. simpl in *.
    repeat (rewrite lookup_insert in Ho; case_decide; [subst; lia|]). done. }
  assert (Hheap : selection_on_heap s).
  { intros e He. apply list_elem_of_singleton in He as ->. by eexists. }
  assert (Hsel : selection_in_registry (scene s)).
  { intros e He. apply list_elem_of_singleton in He as ->. simpl.
    apply elem_of_cons. right. by left. }
  destruct (@removals_keep_selection_in_registry Sample.python s Hfresh Hheap Hsel)
    as (_ & Hundo & _).
  split; [exact Hfresh|]. split; [exact Hheap|]. split; [exact Hsel|].
  split; [reflexivity | exact Hundo].
Defined.

(** C8 fails as a statement about every reachable state: starting an
    edge scale with the box tool on entity 1 makes the tool's helper the
    whole selection, and the helper is not in the registry. *)
Lemma box_scaling_selects_outside_registry :
  let s := Ctx (<[1 := Sample.placed "WhiteCube" 0 Sample.origin]>
                (<[10 := Sample.entity "Entity"]> (<[11 := Sample.entity "Entity"]> ∅)))
               12 ∅ (with_selection [1] (Sample.scene_of [1])) in
  let s' := exec (BoxGizmo.start_scaling 10 11 (Some 1) (Some (0, 1, 0)%Q)) s in
  selection_in_registry (scene s) ∧
  result (BoxGizmo.start_scaling 10 11 (Some 1) (Some (0, 1, 0)%Q)) s = Ok tt ∧
  selection (scene s') = [10] ∧ entities (scene s') = [1] ∧
  ¬ selection_in_registry (scene s').
Proof.
  intros s s'.
  assert (Hs : selection (scene s') = [10]) by (vm_compute; reflexivity).
  assert (Hl : entities (scene s') = [1]) by (vm_compute; reflexivity).
  split. { intros e He. exact He. }
  split; [vm_compute; reflexivity|]. split; [exact Hs|]. split; [exact Hl|].
  intros Hsel. specialize (Hsel 10). rewrite Hs, Hl in Hsel.
  assert (Hin : 10 ∈ [1]) by (apply Hsel; by left).
  apply list_elem_of_singleton in Hin. discriminate.
Qed.

(** ** Loading a scene *)

Section Load.
Context `{!Python}.

Lemma wp_alloc o (Q : nat → ctx → Prop) E s :
  Q (next_ref s) (Ctx (<[next_ref s := o]> (heap s)) (S (next_ref s)) (files s) (scene s)) →
  wp (alloc o) Q E s.
Proof. done. Qed.




Global Instance same_objects_preorder : PreOrder same_objects.
Proof.
  split.
  - intros s r o Ho. by exists o.
  - intros s1 s2 s3 H12 H23 r o Ho.
    destruct (H12 r o Ho) as (o2 & Ho2 & Hc2 & Hd2).
    destruct (H23 r o2 Ho2) as (o3 & Ho3 & Hc3 & Hd3).
    exists o3. split; [done|]. split; congruence.
Qed.


Global Instance same_scene_preorder : PreOrder same_scene.
Proof.
  split; [by intros s|]. intros s1 s2 s3 H12 H23.
  unfold same_scene in *. congruence.
Qed.













End Load.


(** ** Saving a scene *)

Section Save.
Context `{!Python}.

Lemma add_fields_spec fs keys :
  NoDup fs →
  NoDup (add_fields fs keys) ∧
  (∀ k, k ∈ fs → k ∈ add_fields fs keys) ∧
  (∀ k, k ∈ keys → k ∈ add_fields fs keys).
Proof.
  unfold add_fields. revert fs.
  induction keys as [|key keys IH]; intros fs Hfs; simpl.
  - split; [done|]. split; [done|]. intros k Hk. by apply elem_of_nil in Hk.
  - destruct (decide (key ∈ fs)) as [Hin|Hnotin].
    + destruct (IH fs Hfs) as (H1 & H2 & H3).
      split; [done|]. split; [done|].
      intros k Hk. apply elem_of_cons in Hk as [->|Hk]; [by apply H2|by apply H3].
    + assert (Hfs' : NoDup (fs ++ [key])).
      { apply NoDup_app. split; [done|]. split; [|apply NoDup_singleton].
        intros x Hx Hx'. apply list_elem_of_singleton in Hx'. by subst. }
      destruct (IH (fs ++ [key]) Hfs') as (H1 & H2 & H3).
      split; [done|]. split.
      * intros k Hk. apply H2, elem_of_app. by left.
      * intros k Hk. apply elem_of_cons in Hk as [->|Hk]; [|by apply H3].
        apply H2, elem_of_app. right. by left.
Qed.

Lemma header_spec dicts :
  NoDup (header dicts) ∧ "class" ∈ header dicts ∧
  ∀ d k, d ∈ dicts → is_Some (d !! k) → k ∈ header dicts.
Proof.
  unfold header.
  assert (Hgen : ∀ fs, NoDup fs →
    let fs' := foldl (λ fs d, add_fields fs (map_to_list d).*1) fs dicts in
    NoDup fs' ∧ (∀ k, k ∈ fs → k ∈ fs') ∧
    ∀ d k, d ∈ dicts → is_Some (d !! k) → k ∈ fs').
  { induction dicts as [|d dicts IH]; intros fs Hfs; simpl.
    - split; [done|]. split; [done|]. intros d k Hd. by apply elem_of_nil in Hd.
    - destruct (add_fields_spec fs (map_to_list d).*1 Hfs) as (H1 & H2 & H3).
      destruct (IH _ H1) as (H4 & H5 & H6).
      split; [done|]. split; [intros k Hk; by apply H5, H2|].
      intros d' k Hd' [v Hk]. apply elem_of_cons in Hd' as [->|Hd'].
      + apply H5, H3. apply list_elem_of_fmap. exists (k, v).
        split; [done|]. by apply elem_of_map_to_list.
      + apply (H6 d'); [done|by exists v]. }
  destruct (Hgen ["class"]) as (H1 & H2 & H3); [apply NoDup_singleton|].
  split; [done|]. split; [|done]. apply H2. by left.
Qed.

Lemma written_row_lookup fields d k :
  NoDup fields → k ∈ fields →
  written_row fields d !! k = Some (from_option str_value "" (d !! k)).
Proof.
  intros Hnd Hk. unfold written_row. apply elem_of_list_to_map_1.
  - rewrite <- list_fmap_compose. by rewrite list_fmap_id.
  - apply list_elem_of_fmap. by exists k.
Qed.

Lemma entity_changes_class o : entity_changes o !! "class" = Some (VStr (cls o)).
Proof.
  unfold entity_changes. destruct (attrs o !! "collider_type").
  - rewrite lookup_insert_ne by done. by rewrite lookup_insert_eq.
  - by rewrite lookup_insert_eq.
Qed.


(** [unload] never raises, empties the registry and the selection, and
    leaves a scene root that is falsy. *)
Lemma wp_unload s :
  wp unload
     (λ _ s1, next_ref s1 = next_ref s ∧ files s1 = files s ∧
              scene s1 = with_entities [] (with_selection [] (scene s)) ∧
              from_option (truthy (heap s1)) false (scene_parent (scene s)) = false)
     (λ _ _, False) s.
Proof.
  unfold unload. do 4 wp_step.
  apply (wp_for_each (λ s1, next_ref s1 = next_ref s ∧ files s1 = files s ∧
                            scene s1 = scene s)); [done|..].
  - intros e s1 _ (H1 & H2 & H3). by wp_step.
  - intros s1 (H1 & H2 & H3). do 8 wp_step. simpl. rewrite H3.
    destruct (scene_parent (scene s)) as [sp|]; simpl;
      [destruct (truthy (heap s1) sp) eqn:Ht|];
      wp_step; simpl; (split; [done|]); (split; [done|]);
      (split; [by rewrite H3|]); [|done..].
    unfold truthy. rewrite lookup_alter, decide_True by done.
    unfold truthy in Ht. destruct (heap s1 !! sp); simpl; done.
Qed.

Lemma run_ok {S A} (m : py S A) (Q : A → S → Prop) (s : S) :
  wp m Q (λ _ _, False) s → ∃ a s1, m s = (Ok a, s1) ∧ Q a s1.
Proof.
  unfold wp. destruct (m s) as [[a|e] s1]; [|done]. intros HQ. by exists a, s1.
Qed.

Lemma bind_ok {S A B} (m : py S A) (k : A → py S B) (s s1 : S) a :
  m s = (Ok a, s1) → bind m k s = k a s1.
Proof. unfold bind. by intros ->. Qed.




End Save.



(** ** Moving over the scene grid *)

(** The hotkeys clamp to 0..8, one past the last row and column. *)
Lemma clamp_hotkey_bounds (c : Z) :
  (0 ≤ c ≤ 7)%Z →
  (0 ≤ clamp (c - 1) 0 8 ≤ 7)%Z ∧ (0 ≤ clamp (c + 1) 0 8 ≤ 8)%Z ∧
  (clamp (c + 1) 0 8 = 8 ↔ c = 7)%Z.
Proof. unfold clamp. lia. Qed.

(** C9 fails on the code: from the scene in the last column, (7, 0),
    shift+alt+'d' calls [goto_scene(8, 0)], and indexing the grid of
    eight columns raises [IndexError] after every scene was unloaded. *)
Theorem hotkey_in_last_column_leaves_the_grid :
  let ed := exec (@LevelMenu.goto_scene Sample.python 7 0) init_editor in
  length (scenes init_editor) = 8 ∧
  result (@LevelMenu.goto_scene Sample.python 7 0) init_editor = Ok tt ∧
  current_scene ed = Some (7, 0) ∧
  (coordinates <$> cell (scenes ed) 7 0) = Some (7, 0)%Z ∧
  clamp (7 + 1) 0 8 = 8%Z ∧
  result (@LevelMenu.input Sample.python true true "d") ed = Raise IndexError ∧
  result (@LevelMenu.goto_scene Sample.python 8 0) ed = Raise IndexError.
Proof. repeat split; vm_compute; reflexivity. Qed.

(** ** Going to a scene *)

Section Grid.
Context `{!Python}.

Lemma cell_set_cell_eq g x y sc :
  is_Some (cell g x y) → cell (set_cell x y sc g) x y = Some sc.
Proof.
  unfold cell, set_cell. intros [sc0 H0].
  rewrite list_lookup_alter_eq.
  destruct (g !! x) as [col|]; simpl in *; [|done].
  apply list_lookup_insert_eq. by eapply lookup_lt_Some.
Qed.

Lemma cell_set_cell_ne g x y x' y' sc :
  (x, y) ≠ (x', y') → cell (set_cell x y sc g) x' y' = cell g x' y'.
Proof.
  unfold cell, set_cell. intros Hne.
  destruct (decide (x = x')) as [->|Hx].
  - rewrite list_lookup_alter_eq.
    destruct (g !! x') as [col|]; simpl; [|done].
    apply list_lookup_insert_ne. congruence.
  - by rewrite list_lookup_alter_ne.
Qed.

Lemma cell_set_cell_is_Some g x y x' y' sc :
  is_Some (cell g x' y') → is_Some (cell (set_cell x y sc g) x' y').
Proof.
  intros Hc. destruct (decide ((x, y) = (x', y'))) as [Heq|Hne].
  - inversion Heq; subst. rewrite cell_set_cell_eq; [by eexists|done].
  - by rewrite cell_set_cell_ne.
Qed.

Lemma wp_at_cell {A} x y (m : py ctx A) Q E ed sc :
  cell (scenes ed) x y = Some sc →
  wp m (λ a s', Q a (put_cell x y ed s')) (λ e s', E e (put_cell x y ed s'))
     (focus ed sc) →
  wp (at_cell x y m) Q E ed.
Proof.
  intros Hc. unfold wp, at_cell, focus, put_cell. rewrite Hc.
  by destruct (m _) as [[a|e] s1].
Qed.

Global Instance keeps_reloaded_preorder n0 d i : PreOrder (keeps_reloaded n0 d i).
Proof.
  split.
  - intros s Hs. exact Hs.
  - intros s1 s2 s3 H12 H23 Hs. apply H23, H12, Hs.
Qed.

Lemma wp_steps {S A} (R : S → S → Prop) (m : py S A) Q E (s : S) :
  steps R m → (∀ a s', R s s' → Q a s') → (∀ e s', R s s' → E e s') →
  wp m Q E s.
Proof.
  intros Hm HQ HE. unfold wp. specialize (Hm s).
  destruct (m s) as [[a|e] s1]; simpl in *; auto.
Qed.

Lemma keeps_reloaded_setattr n0 d i e k v :
  steps (keeps_reloaded n0 d i) (setattr e k v).
Proof. step_with steps_modify. by intros s Hs. Qed.

Lemma keeps_reloaded_post_load n0 d i e :
  steps (keeps_reloaded n0 d i) (post_load e).
Proof.
  unfold post_load, deref, get_parent. steps_tac; apply keeps_reloaded_setattr.
Qed.

(** Whatever [load] does, and however it ends inside its [try], it
    keeps the log and only adds fresh objects to the registry. *)
Lemma load_keeps_reloaded n0 d i s :
  reloaded n0 d i s →
  wp load (λ _, reloaded n0 d i) (λ _ _, False) s.
Proof.
  intros Hs. unfold load. do 2 wp_step.
  destruct (path (scene s)) as [p|]; [|by wp_step].
  do 2 wp_step.
  destruct (from_option (truthy (heap s)) false (scene_parent (scene s)));
    [by wp_step|].
  wp_step.
  apply wp_mono with (Q := λ _, reloaded n0 d i) (E := λ _, reloaded n0 d i);
    [|done|intros e s' Hs'; by wp_step].
  do 3 wp_step. apply wp_of_option; [|done]. intros f _.
  wp_step. apply wp_alloc. do 3 wp_step.
  assert (Hs0 : reloaded n0 d i
            (on_scene (with_scene_parent (Some (next_ref s)))
               (Ctx (<[next_ref s := Obj "Entity" ∅ false]> (heap s))
                    (S (next_ref s)) (files s) (scene s)))).
  { destruct Hs as (H1 & H2 & H3 & H4 & H5). repeat split; simpl; auto. }
  revert Hs0. generalize (on_scene (with_scene_parent (Some (next_ref s)))
               (Ctx (<[next_ref s := Obj "Entity" ∅ false]> (heap s))
                    (S (next_ref s)) (files s) (scene s))).
  intros s0 Hs0.
  apply (wp_for_each (reloaded n0 d i)); [done|..].
  - intros line s1 _ Hs1. unfold load_row. cbv zeta. wp_step.
    destruct (decide _); [|by wp_step]. do 2 wp_step. apply wp_alloc. wp_step.
    destruct Hs1 as (H1 & H2 & H3 & H4 & H5). repeat split; simpl; auto.
    intros r Hr. apply elem_of_app in Hr as [Hr|Hr]; [by apply H5|].
    apply list_elem_of_singleton in Hr. by subst.
  - intros s1 Hs1. do 3 wp_step.
    apply (wp_for_each (reloaded n0 d i)); [done|..].
    + intros e s2 _ Hs2.
      apply (wp_steps (keeps_reloaded n0 d i));
        [apply keeps_reloaded_post_load|intros ? ? HR; by apply HR..].
    + intros s2 Hs2. by do 3 wp_step.
Qed.

Lemma py_position_nat len (x : nat) :
  x < len → py_position len (Z.of_nat x) = Some x.
Proof.
  intros Hx. unfold py_position. rewrite decide_True by lia.
  by rewrite Nat2Z.id.
Qed.

Lemma focus_put_cell x y ed s : focus (put_cell x y ed s) (scene s) = s.
Proof. by destruct s. Qed.

(** Unloading one cell. *)
Lemma unload_cell_step n0 x y d i x0 y0 ed1 :
  x0 < 8 → y0 < 8 → unloading n0 x y d i ed1 →
  wp (at_cell x0 y0 unload)
     (λ _ ed2, unloading n0 x y d i ed2 ∧
               (cell_emptied x y ed1 → cell_emptied x y ed2) ∧
               (x0 = x → y0 = y → cell_emptied x y ed2))
     (λ _ _, False) ed1.
Proof.
  intros Hx0 Hy0 (Hfull & Hn & sc & Hc & Hd & Hi).
  destruct (Hfull x0 y0 Hx0 Hy0) as [sc0 Hc0].
  apply (wp_at_cell x0 y0 unload _ _ ed1 sc0 Hc0).
  eapply wp_mono with (E := λ _ _, False); [apply wp_unload| |done].
  cbn beta. intros _ s1 (Hnext & Hfiles & Hscene & _).
  unfold put_cell. simpl in *.
  destruct (decide ((x0, y0) = (x, y))) as [Heq|Hne].
  - inversion Heq; subst x0 y0. rewrite Hc in Hc0. inversion Hc0; subst sc0.
    assert (Hnew : cell (set_cell x y (scene s1) (scenes ed1)) x y = Some (scene s1)).
    { apply cell_set_cell_eq. by eexists. }
    assert (Hempty : cell_emptied x y
              (Editor (heap s1) (next_ref s1) (files s1)
                 (set_cell x y (scene s1) (scenes ed1)) (current_scene ed1))).
    { exists (scene s1). split; [done|]. by rewrite Hscene. }
    split; [|by split].
    split; [|split].
    + intros x' y' Hx' Hy'. simpl. by apply cell_set_cell_is_Some, Hfull.
    + simpl. lia.
    + exists (scene s1). split; [done|]. by rewrite Hscene.
  - split; [|split].
    + split; [|split].
      * intros x' y' Hx' Hy'. simpl. by apply cell_set_cell_is_Some, Hfull.
      * simpl. lia.
      * exists sc. simpl. by rewrite cell_set_cell_ne.
    + intros (sc1 & Hc1 & He1). exists sc1. simpl. by rewrite cell_set_cell_ne.
    + intros -> ->. done.
Qed.

(** The two nested loops of [goto_scene] that unload every scene. *)
Lemma wp_unload_all n0 x y d i ed :
  x < 8 → y < 8 → unloading n0 x y d i ed →
  wp (for_each (seq 0 8) (λ _y, for_each (seq 0 8) (λ _x, at_cell _x _y unload)))
     (λ _ ed1, unloading n0 x y d i ed1 ∧ cell_emptied x y ed1)
     (λ _ _, False) ed.
Proof.
  intros Hx Hy Hed.
  apply (wp_for_each_prefix (λ pre ed1,
           unloading n0 x y d i ed1 ∧ (y ∈ pre → cell_emptied x y ed1))).
  - split; [done|]. intros Hin. by apply elem_of_nil in Hin.
  - intros pre y0 ed1 Hy0 [Hed1 Hpre]. apply elem_of_seq in Hy0.
    apply (wp_for_each_prefix (λ prex ed2,
             unloading n0 x y d i ed2 ∧
             (y ∈ pre ∨ (y0 = y ∧ x ∈ prex) → cell_emptied x y ed2))).
    + split; [done|]. intros [Hin|[_ Hin]]; [by apply Hpre|].
      by apply elem_of_nil in Hin.
    + intros prex x0 ed2 Hx0 [Hed2 Hprex]. apply elem_of_seq in Hx0.
      eapply wp_mono with (E := λ _ _, False);
        [apply (unload_cell_step n0 x y d i x0 y0); [lia|lia|done]| |done].
      cbn beta. intros _ ed3 (Hed3 & Hkeep & Hnew). split; [done|].
      intros [Hin|[-> Hin]]; [by apply Hkeep, Hprex; left|].
      apply elem_of_app in Hin as [Hin|Hin]; [by apply Hkeep, Hprex; right|].
      apply list_elem_of_singleton in Hin. by apply Hnew.
    + intros ed2 [Hed2 Hall]. split; [done|].
      intros Hin. apply Hall. apply elem_of_app in Hin as [Hin|Hin]; [by left|].
      apply list_elem_of_singleton in Hin. right. split; [done|].
      apply elem_of_seq. lia.
  - intros ed1 [Hed1 Hall]. split; [done|]. apply Hall, elem_of_seq. lia.
Qed.

(** A method of the target scene that keeps what has been established. *)
Lemma went_to_at_cell {A} n0 x y d i (m : py ctx A) ed :
  (∀ s, reloaded n0 d i s → wp m (λ _, reloaded n0 d i) (λ _ _, False) s) →
  went_to n0 x y d i ed →
  wp (at_cell x y m) (λ _, went_to n0 x y d i) (λ _ _, False) ed.
Proof.
  intros Hm [Hcur (sc & Hc & Hsc)].
  apply (wp_at_cell x y m _ _ ed sc Hc).
  eapply wp_mono with (E := λ _ _, False); [by apply Hm| |done].
  cbn beta. intros _ s' Hs'. split; [done|].
  exists (scene s'). split.
  - unfold put_cell. simpl. apply cell_set_cell_eq. by eexists.
  - by rewrite focus_put_cell.
Qed.

(** C5 (as the code has it). Going to a scene of the grid ends
    normally and makes it the current scene; its registry then holds
    only objects allocated during the call, none of the entities that
    were in memory before, and nothing is selected; its undo log and its
    cursor are exactly what they were: a load does not reset them. *)
Theorem goto_scene_replaces_registry_keeps_log
    (ed : LevelEditor) (x y : nat) (sc : LevelEditorScene) :
  full_grid ed → x < 8 → y < 8 →
  cell (scenes ed) x y = Some sc →
  let ed' := exec (LevelMenu.goto_scene (Z.of_nat x) (Z.of_nat y)) ed in
  result (LevelMenu.goto_scene (Z.of_nat x) (Z.of_nat y)) ed = Ok tt ∧
  current_scene ed' = Some (x, y) ∧
  ∃ sc', cell (scenes ed') x y = Some sc' ∧
         undo_data sc' = undo_data sc ∧ undo_index sc' = undo_index sc ∧
         selection sc' = [] ∧
         ∀ e, e ∈ entities sc' → ed_next_ref ed ≤ e.
Proof.
  intros Hfull Hx Hy Hc ed'.
  set (n0 := ed_next_ref ed). set (d := undo_data sc). set (i := undo_index sc).
  assert (Hwp : wp (LevelMenu.goto_scene (Z.of_nat x) (Z.of_nat y))
                   (λ _, went_to n0 x y d i) (λ _ _, False) ed).
  { unfold LevelMenu.goto_scene. wp_step.
    eapply wp_mono with (E := λ _ _, False);
      [apply (wp_unload_all n0 x y d i); [done|done|]| |done].
    { split; [done|]. split; [done|]. by exists sc. }
    cbn beta. intros _ ed1 [(Hfull1 & Hn1 & sc1 & Hc1 & Hd1 & Hi1) Hempty].
    destruct Hempty as (sc1' & Hc1' & He1 & Hs1).
    rewrite Hc1 in Hc1'. inversion Hc1'; subst sc1'.
    pose proof Hc1 as Hcell. unfold cell in Hcell.
    destruct (scenes ed1 !! x) as [col|] eqn:Hcol; simpl in Hcell; [|done].
    do 3 wp_step.
    rewrite py_position_nat by (by eapply lookup_lt_Some).
    do 2 wp_step. rewrite Hcol. do 2 wp_step.
    rewrite py_position_nat by (by eapply lookup_lt_Some).
    do 4 wp_step.
    assert (Hwent : went_to n0 x y d i
              (Editor (ed_heap ed1) (ed_next_ref ed1) (ed_files ed1) (scenes ed1)
                      (Some (x, y)))).
    { split; [done|]. exists sc1. split; [done|].
      repeat split; simpl; try done. rewrite He1. intros e He.
      by apply elem_of_nil in He. }
    eapply wp_mono with (E := λ _ _, False);
      [apply (went_to_at_cell n0 x y d i); [apply load_keeps_reloaded|exact Hwent]
      | |done].
    cbn beta. intros loaded_scene ed2 Hed2. wp_step.
    eapply wp_mono with (Q := λ _, went_to n0 x y d i) (E := λ _ _, False);
      [| |done].
    - destruct loaded_scene; [by wp_step|].
      apply (went_to_at_cell n0 x y d i); [|done].
      intros s Hs. wp_step. apply wp_alloc. wp_step.
      destruct Hs as (H1 & H2 & H3 & H4 & H5). repeat split; simpl; auto.
    - cbn beta. intros _ ed3 Hed3.
      apply (went_to_at_cell n0 x y d i); [|done].
      intros s Hs. wp_step.
      destruct Hs as (H1 & H2 & H3 & H4 & H5). repeat split; simpl; auto.
      by rewrite H3. }
  destruct (wp_ok _ _ _ Hwp) as ([] & Hres & Hcur & sc' & Hc' & Hre).
  split; [done|]. split; [done|]. exists sc'. split; [done|].
  destruct Hre as (H1 & H2 & H3 & H4 & H5). done.
Qed.

End Grid.

Lemma full_grid_init : full_grid init_editor.
Proof.
  intros x y Hx Hy.
  do 8 (destruct x as [|x]; [do 8 (destruct y as [|y]; [by eexists|]); lia|]).
  lia.
Qed.

Lemma full_grid_sample : full_grid SampleEditor.editor.
Proof.
  intros x y Hx Hy.
  apply (cell_set_cell_is_Some (scenes init_editor) 0 0 x y).
  by apply full_grid_init.
Qed.

(** Going back to the edited scene (0, 0). *)
Lemma goto_scene_replaces_registry_keeps_log_witness :
  let ed' := exec (@LevelMenu.goto_scene Sample.python 0 0) SampleEditor.editor in
  full_grid SampleEditor.editor ∧
  cell (scenes SampleEditor.editor) 0 0 = Some SampleEditor.edited_scene ∧
  current_scene ed' = Some (0, 0) ∧
  ∃ sc', cell (scenes ed') 0 0 = Some sc' ∧
         undo_data sc' = [SampleEditor.entry] ∧ undo_index sc' = 0%Z ∧
         selection sc' = [] ∧ ∀ e, e ∈ entities sc' → 2 ≤ e.
Proof.
  intros ed'.
  assert (Hc : cell (scenes SampleEditor.editor) 0 0 = Some SampleEditor.edited_scene)
    by reflexivity.
  destruct (@goto_scene_replaces_registry_keeps_log Sample.python
              SampleEditor.editor 0 0 SampleEditor.edited_scene
              full_grid_sample ltac:(lia) ltac:(lia) Hc)
    as (_ & Hcur & sc' & Hc' & Hd & Hi & Hs & He).
  split; [exact full_grid_sample|]. split; [exact Hc|]. split; [exact Hcur|].
  exists sc'. split; [exact Hc'|]. split; [exact Hd|]. split; [exact Hi|].
  split; [exact Hs | exact He].
Defined.

(** C5 fails as stated: the scene (0, 0) has a file and one recorded
    entry.  Going to it completes a load, which replaces the registry
    [1] by the entity built from the file, and the log still holds the
    entry with the cursor on it.  The same for a bare [load] of a cell
    that is not loaded: the log is untouched. *)
Lemma load_does_not_reset_the_undo_log :
  let ed' := exec (@LevelMenu.goto_scene Sample.python 0 0) SampleEditor.editor in
  let s := Ctx ∅ 0 {["level.csv" := SampleEditor.level]}
               (with_entities [] SampleEditor.edited_scene) in
  (result (@LevelMenu.goto_scene Sample.python 0 0) SampleEditor.editor = Ok tt ∧
   (entities <$> cell (scenes ed') 0 0) = Some [3] ∧
   (undo_data <$> cell (scenes ed') 0 0) = Some [SampleEditor.entry] ∧
   (undo_index <$> cell (scenes ed') 0 0) = Some 0%Z) ∧
  (result (@load Sample.python) s = Ok (Some 0) ∧
   undo_data (scene (exec (@load Sample.python) s)) = [SampleEditor.entry] ∧
   undo_index (scene (exec (@load Sample.python) s)) = 0%Z).
Proof. repeat split; vm_compute; reflexivity. Qed.

(** ** Replaying insertions by index *)

Section Reinsert.

Lemma py_index_Some e l : e ∈ l → is_Some (py_index e l).
Proof.
  induction l as [|x l IH]; intros He; [by apply elem_of_nil in He|].
  simpl. destruct (decide (e = x)); [by eexists|].
  apply elem_of_cons in He as [?|He]; [done|].
  destruct (IH He) as [i Hi]. rewrite Hi. by eexists.
Qed.











End Reinsert.

(** ** Deleting, then undoing *)

Section DeleteUndo.
Context `{!Python}.




End DeleteUndo.

Section DeleteThenUndo.
Context `{!Python}.

Lemma read_indices (s : ctx) :
  selection_in_registry (scene s) →
  map_m (λ e, l <- gets (λ s : ctx, entities (scene s)) ;;
              of_option ValueError (py_index e l)) (selection (scene s)) s =
    (Ok (index_of (entities (scene s)) <$> selection (scene s)), s).
Proof.
  intros Hreg. apply map_m_read. intros e He.
  unfold bind, gets; simpl. unfold index_of.
  destruct (py_index_Some e (entities (scene s))) as [i Hi]; [by apply Hreg|].
  by rewrite Hi.
Qed.

Lemma read_recipes (s : ctx) :
  selection_on_heap s →
  map_m (λ e, o <- deref e ;; ret (repr_entity o)) (selection (scene s)) s =
    (Ok (recipe_of s <$> selection (scene s)), s).
Proof.
  intros Hheap. apply map_m_read. intros e He.
  unfold deref, bind, gets, recipe_of; simpl.
  destruct (Hheap e He) as [o Ho]. by rewrite Ho.
Qed.

(** What [delete_selected] does when every index and recipe is there. *)
Lemma delete_selected_deletes (s : ctx) :
  selection_in_registry (scene s) → selection_on_heap s →
  ∃ s', delete_selected s = (Ok tt, s') ∧ deleted s s'.
Proof.
  intros Hreg Hheap.
  destruct (run_ok delete_selected (λ _, deleted s) s) as ([] & s' & Hrun & Hdel);
    [|by exists s'].
  unfold delete_selected. apply wp_try_except.
  apply (wp_mono _ (λ _, deleted s) _ (λ _ _, False)); [|done|done].
  do 3 wp_step.
  eapply wp_known_ok; [apply read_indices, Hreg|]. wp_step.
  eapply wp_known_ok; [apply read_recipes, Hheap|]. do 3 wp_step.
  set (s0 := on_scene _ s).
  apply (wp_for_each_prefix (λ pre s1,
    entities (scene s1) = foldl (λ acc e, py_remove e acc) (entities (scene s)) pre ∧
    undo_data (scene s1) = undo_data (scene s0) ∧
    undo_index (scene s1) = undo_index (scene s0) ∧
    next_ref s1 = next_ref s ∧ heap s1 = heap s)).
  { done. }
  { intros pre e s1 He (Hent & Hd & Hi & Hn & Hh). do 2 wp_step.
    rewrite foldl_snoc.
    destruct (decide _) as [Hin|Hout]; wp_step; simpl.
    - by rewrite Hent.
    - rewrite <- Hent, py_remove_absent by done. done. }
  intros s1 (Hent & Hd & Hi & Hn & Hh). wp_step.
  apply (wp_for_each_prefix (λ pre s2,
    scene s2 = scene s1 ∧ next_ref s2 = next_ref s ∧
    (∀ r, r ∉ pre → heap s2 !! r = heap s !! r) ∧
    (∀ r, r ∈ pre → truthy (heap s2) r = false))).
  { split; [done|]. split; [done|]. split; [by rewrite Hh|].
    intros r Hr. by apply elem_of_nil in Hr. }
  { intros pre e s2 He (Hsc & Hn2 & Hout & Hin). wp_step. simpl.
    split; [done|]. split; [done|]. split.
    - intros r Hr. rewrite lookup_alter_ne; [apply Hout|]; set_solver.
    - intros r Hr. unfold truthy. destruct (decide (r = e)) as [->|Hne].
      + rewrite lookup_alter_eq. by destruct (heap s2 !! e).
      + rewrite lookup_alter_ne by done. apply Hin. set_solver. }
  intros s2 (Hsc & Hn2 & Hout & Hin). do 3 wp_step. simpl.
  unfold deleted; simpl. rewrite Hsc, Hent, Hd, Hi. done.
Qed.




End DeleteThenUndo.



(** ** Undoing, then redoing *)

Section UndoRedo.
Context `{!Python}.

Lemma set_one_eq pick c s :
  set_one pick c s = (Ok tt, set_one_state pick c s).
Proof.
  unfold set_one, set_one_state, try_except, bind, gets; simpl.
  by destruct (entities (scene s) !! c.1.1.1).
Qed.

Lemma set_all_state pick changes s :
  foldl (λ s c, set_one_state pick c s) s changes =
    with_heap (changed_heap (entities (scene s)) pick changes (heap s)) s.
Proof.
  revert s. induction changes as [|c changes IH]; intros s; simpl.
  - by destruct s.
  - rewrite IH. unfold set_one_state.
    by destruct (entities (scene s) !! c.1.1.1).
Qed.

(** The generic branch, with the exception of the empty list caught. *)
Lemma set_attributes_eq pick changes s :
  (try_except (set_attributes pick changes) (λ _, ret tt) s).2 =
    with_heap (changed_heap (entities (scene s)) pick changes (heap s)) s.
Proof.
  unfold try_except, set_attributes. destruct changes as [|c changes].
  - simpl. by destruct s.
  - rewrite (for_each_update _ (set_one_state pick)) by apply set_one_eq.
    exact (set_all_state pick (c :: changes) s).
Qed.

Lemma changed_heap_lookup l pick changes h e :
  changed_heap l pick changes h !! e =
    (λ o, Obj (cls o) (changed_attrs l e pick changes (attrs o)) (destroyed o))
      <$> h !! e.
Proof.
  revert h. induction changes as [|c changes IH]; intros h.
  - simpl. destruct (h !! e) as [[]|]; done.
  - unfold changed_heap, changed_attrs in *. simpl. rewrite IH.
    destruct (l !! c.1.1.1) as [e'|] eqn:Hc.
    + destruct (decide (e' = e)) as [->|Hne].
      * rewrite lookup_alter_eq. destruct (h !! e) as [o|]; [|done].
        simpl. by rewrite decide_True.
      * rewrite lookup_alter_ne by done. destruct (h !! e) as [o|]; [|done].
        simpl. rewrite decide_False by congruence. done.
    + by destruct (h !! e) as [o|].
Qed.

Lemma changed_attrs_snoc l e pick changes c m :
  changed_attrs l e pick (changes ++ [c]) m =
    if decide (l !! c.1.1.1 = Some e)
    then <[c.1.1.2 := pick c]> (changed_attrs l e pick changes m)
    else changed_attrs l e pick changes m.
Proof. unfold changed_attrs. by rewrite foldl_snoc. Qed.

(** An attribute keeps its value unless a change names it. *)
Lemma changed_attrs_untouched l e pick changes m k :
  changed_attrs l e pick changes m !! k = m !! k ∨
  ∃ c, c ∈ changes ∧ l !! c.1.1.1 = Some e ∧ c.1.1.2 = k.
Proof.
  induction changes as [|c changes IH] using rev_ind; [by left|].
  rewrite changed_attrs_snoc. destruct (decide _) as [Hc|Hc].
  - destruct (decide (c.1.1.2 = k)) as [Hk|Hk].
    + right. exists c. split; [|done]. apply elem_of_app. right. by left.
    + rewrite lookup_insert_ne by done.
      destruct IH as [IH|(c' & Hin & Hc')]; [by left|].
      right. exists c'. split; [|done]. apply elem_of_app. by left.
  - destruct IH as [IH|(c' & Hin & Hc')]; [by left|].
    right. exists c'. split; [|done]. apply elem_of_app. by left.
Qed.



(** The state after the generic branch and [render_selection]. *)
Lemma after_set_attributes pick changes s :
  entities (scene (after_apply (set_attributes pick changes) s)) = entities (scene s) ∧
  heap (after_apply (set_attributes pick changes) s) =
    changed_heap (entities (scene s)) pick changes (heap s).
Proof. unfold after_apply. by rewrite set_attributes_eq. Qed.


End UndoRedo.



(** * Further properties *)

(** ** The log stays well formed *)

Section LogInvariant.
Context `{!Python}.

Lemma same_log_delete_loop (sel : list nat) :
  steps same_log
    (for_each sel (λ e,
       l <- gets (λ s : ctx, entities (scene s)) ;;
       if decide (e ∈ l)
       then modify (on_scene (λ sc, with_entities (py_remove e (entities sc)) sc))
       else ret tt) ;;
     for_each sel destroy ;;
     modify (on_scene (with_selection [])) ;;
     render_selection).
Proof.
  steps_tac; first [apply same_log_destroy | apply same_log_render_selection
                   | by apply same_log_modify].
Qed.

Lemma log_wf_record s data :
  log_wf (scene s) →
  log_wf (scene (on_scene (λ sc,
     with_undo (py_slice_to (undo_data sc) (undo_index sc + 1) ++ [data])
               (undo_index sc + 1) sc) s)).
Proof.
  intros [Hlo Hhi]. unfold log_wf. simpl.
  unfold py_slice_to. rewrite decide_True by lia.
  rewrite length_app, length_take. simpl. lia.
Qed.

(** X1. A log whose cursor is in range (-1 meaning nothing applied)
    stays so under everything that touches it: recording an entry,
    [undo], [redo] and deleting the selection. *)
Theorem log_stays_well_formed (s : ctx) (data : undo_record) :
  log_wf (scene s) →
  log_wf (scene (exec (record_undo data) s)) ∧
  log_wf (scene (exec undo s)) ∧
  log_wf (scene (exec redo s)) ∧
  log_wf (scene (exec delete_selected s)).
Proof.
  intros Hwf. split; [|split; [|split]].
  - by apply log_wf_record.
  - unfold exec. destruct (decide (undo_index (scene s) < 0)%Z) as [Hneg|Hpos].
    + unfold undo, bind, gets; simpl. by rewrite decide_True.
    + destruct Hwf as [Hlo Hhi].
      destruct (py_getitem_in_range (undo_data (scene s)) (undo_index (scene s)))
        as [r Hr]; [lia|].
      rewrite (undo_unfold s r) by (done || lia).
      destruct (same_log_after_apply (apply_undo r) s (same_log_apply_undo r))
        as [Hd Hi].
      unfold log_wf. cbn [fst snd]. unfold on_scene.
      cbn [scene with_scene with_undo undo_index undo_data].
      rewrite Hd, Hi. lia.
  - unfold exec.
    destruct (decide (undo_index (scene s) + 2 > Z.of_nat (length (undo_data (scene s))))%Z)
      as [Hout|Hin].
    + unfold redo, bind, gets; simpl. by rewrite decide_True.
    + destruct Hwf as [Hlo Hhi].
      destruct (py_getitem_in_range (undo_data (scene s)) (undo_index (scene s) + 1))
        as [r Hr]; [lia|].
      rewrite (redo_unfold s r) by (done || lia).
      destruct (same_log_after_apply (apply_redo r) s (same_log_apply_redo r))
        as [Hd Hi].
      unfold log_wf. cbn [fst snd]. unfold on_scene.
      cbn [scene with_scene with_undo undo_index undo_data].
      rewrite Hd, Hi. lia.
  - apply (wp_final delete_selected (λ s', log_wf (scene s'))).
    unfold delete_selected. do 4 wp_step.
    apply wp_read; [step_with steps_map_m; intros; apply read_index| |done].
    intros ids. wp_step.
    apply wp_read; [step_with steps_map_m; intros; apply read_repr| |done].
    intros recipes. do 2 wp_step.
    apply (wp_steps same_log); [apply same_log_delete_loop|..].
    + intros _ s' [Hd Hi]. unfold log_wf. rewrite Hd, Hi.
      by apply log_wf_record.
    + intros _ s' [Hd Hi]. wp_step. unfold log_wf. rewrite Hd, Hi.
      by apply log_wf_record.
Qed.

(** X2. Recording an entry discards what could be redone: right after
    [record_undo], [redo] finds nothing after the cursor and changes
    nothing. *)
Theorem nothing_to_redo_after_recording (s : ctx) (data : undo_record) :
  log_wf (scene s) →
  let s' := exec (record_undo data) s in
  result redo s' = Ok tt ∧ exec redo s' = s'.
Proof.
  intros [Hlo Hhi] s'.
  assert (Hguard : (undo_index (scene s') + 2 > Z.of_nat (length (undo_data (scene s'))))%Z).
  { unfold s', exec, record_undo, modify. simpl.
    unfold py_slice_to. rewrite decide_True by lia.
    rewrite length_app, length_take. simpl. lia. }
  unfold result, exec, redo, bind, gets; simpl.
  rewrite decide_True by exact Hguard. done.
Qed.

End LogInvariant.

(** A log of two entries with the cursor on the first. *)
Lemma log_stays_well_formed_witness :
  let r1 := attribute_changes [(0, "color", VSym "white", VSym "red")] in
  let r2 := delete_entities [0] ["Entity"] in
  let s := Ctx {[1 := Sample.entity "Entity"]} 2 ∅
               (with_undo [r1; r2] 0 (with_selection [1] (Sample.scene_of [1]))) in
  log_wf (scene s) ∧
  log_wf (scene (exec (@redo Sample.python) s)) ∧
  log_wf (scene (exec (@delete_selected Sample.python) s)).
Proof.
  intros r1 r2 s.
  assert (Hwf : log_wf (scene s)) by (unfold log_wf; simpl; lia).
  destruct (@log_stays_well_formed Sample.python s r1 Hwf) as (_ & _ & Hredo & Hdel).
  split; [exact Hwf|]. split; [exact Hredo | exact Hdel].
Defined.

(** The second entry of the log is what [redo] would apply; recording
    removes it. *)
Lemma nothing_to_redo_after_recording_witness :
  let r1 := attribute_changes [(0, "color", VSym "white", VSym "red")] in
  let r2 := delete_entities [0] ["Entity"] in
  let s := Ctx {[1 := Sample.entity "Entity"]} 2 ∅
               (with_undo [r1; r2] 0 (Sample.scene_of [1])) in
  let s' := exec (record_undo r1) s in
  log_wf (scene s) ∧ exec (@redo Sample.python) s ≠ s ∧
  exec (@redo Sample.python) s' = s'.
Proof.
  intros r1 r2 s s'.
  assert (Hwf : log_wf (scene s)) by (unfold log_wf; simpl; lia).
  destruct (@nothing_to_redo_after_recording Sample.python s r1 Hwf) as [_ Hsame].
  split; [exact Hwf|]. split; [|exact Hsame].
  intros Heq. apply (f_equal (λ t, undo_index (scene t))) in Heq.
  vm_compute in Heq. discriminate.
Defined.

(** ** Removing from the registry *)

Section Removal.
Context `{!Python}.

Lemma py_remove_filter (l : list nat) e :
  NoDup l → py_remove e l = filter (λ x, x ≠ e) l.
Proof.
  induction l as [|y l IH]; intros Hnd; [done|].
  apply NoDup_cons in Hnd as [Hy Hnd]. simpl.
  destruct (decide (e = y)) as [->|Hne].
  - rewrite filter_cons_False by (intros Hyy; by apply Hyy).
    rewrite <- (IH Hnd). symmetry. by apply py_remove_absent.
  - rewrite filter_cons_True by congruence. by rewrite IH.
Qed.

Lemma foldl_remove_filter (ts l : list nat) :
  NoDup l →
  foldl (λ acc e, py_remove e acc) l ts = filter (λ x, x ∉ ts) l.
Proof.
  revert l. induction ts as [|e ts IH]; intros l Hnd; simpl.
  - symmetry. induction l as [|x l IHl]; [done|].
    apply NoDup_cons in Hnd as [_ Hnd].
    rewrite filter_cons_True by apply not_elem_of_nil. by rewrite IHl.
  - rewrite IH by (rewrite py_remove_filter by done; by apply NoDup_filter).
    rewrite py_remove_filter by done. rewrite list_filter_filter.
    apply list_filter_iff. intros x. rewrite not_elem_of_cons. tauto.
Qed.

Lemma py_index_None e (l : list nat) : e ∉ l → py_index e l = None.
Proof.
  induction l as [|y l IH]; intros He; [done|]. simpl.
  apply not_elem_of_cons in He as [Hne He].
  rewrite decide_False by done. by rewrite IH.
Qed.

(** A comprehension over reads that fails at some item. *)
Lemma map_m_read_raise {S B C} (f : B → py S C) e (l : list B) (s : S) :
  (∀ x, x ∈ l → (∃ c, f x s = (Ok c, s)) ∨ f x s = (Raise e, s)) →
  (∃ x, x ∈ l ∧ f x s = (Raise e, s)) →
  map_m f l s = (Raise e, s).
Proof.
  induction l as [|x l IH]; intros Hall (x0 & Hx0 & Hraise).
  - by apply elem_of_nil in Hx0.
  - simpl. unfold bind at 1.
    destruct (Hall x) as [[c Hc]|Hr]; [by left| |by rewrite Hr].
    rewrite Hc. unfold bind at 1. rewrite IH; [done| |].
    + intros x' Hx'. apply Hall. by right.
    + apply elem_of_cons in Hx0 as [->|Hx0]; [congruence|]. by exists x0.
Qed.

Lemma bind_raise {S A B} (m : py S A) (k : A → py S B) (s s1 : S) e :
  m s = (Raise e, s1) → bind m k s = (Raise e, s1).
Proof. unfold bind. by intros ->. Qed.

(** X3. Deleting a selection one of whose entities is not in the
    registry deletes nothing: [list.index] raises before the entry is
    recorded, so the registry, the selection, the heap and the log are
    what they were, and the call still ends normally. *)
Theorem deleting_an_unregistered_selection_changes_nothing (s : ctx) (e : ref) :
  e ∈ selection (scene s) → e ∉ entities (scene s) →
  result delete_selected s = Ok tt ∧ exec delete_selected s = s.
Proof.
  intros Hsel Hreg.
  assert (Hm : map_m (λ e, l <- gets (λ s : ctx, entities (scene s)) ;;
                           of_option ValueError (py_index e l))
                     (selection (scene s)) s = (Raise ValueError, s)).
  { apply map_m_read_raise.
    - intros x _. unfold bind, gets; simpl.
      destruct (py_index x (entities (scene s))) as [i|]; [left; by exists i|by right].
    - exists e. split; [done|]. unfold bind, gets; simpl.
      by rewrite py_index_None. }
  unfold result, exec, delete_selected, try_except.
  rewrite (bind_ok _ _ s s (selection (scene s))) by done.
  rewrite (bind_raise _ _ _ _ _ Hm). done.
Qed.

(** X4. Deleting a registered selection from a registry without
    duplicates removes exactly the selected entities and keeps the
    others in their order; the selection ends empty, the removed
    entities are destroyed and no other object is touched. *)
Theorem deleting_filters_the_registry (s : ctx) :
  NoDup (entities (scene s)) →
  selection_in_registry (scene s) → selection_on_heap s →
  let s' := exec delete_selected s in
  result delete_selected s = Ok tt ∧
  entities (scene s') =
    filter (λ e, e ∉ selection (scene s)) (entities (scene s)) ∧
  selection (scene s') = [] ∧
  (∀ e, e ∈ selection (scene s) → truthy (heap s') e = false) ∧
  (∀ r, r ∉ selection (scene s) → heap s' !! r = heap s !! r).
Proof.
  intros Hnd Hreg Hheap s'.
  destruct (delete_selected_deletes s Hreg Hheap) as (s1 & Hrun & Hdel).
  unfold s', result, exec. rewrite Hrun. simpl.
  destruct Hdel as (Hent & Hsel & _ & _ & _ & Hout & Hin).
  split; [done|]. split; [|done].
  rewrite Hent. by apply foldl_remove_filter.
Qed.

(** The state after the three loops of [remove_entities] on targets
    that could all be read. *)
Lemma wp_remove_entities (s : ctx) (ids : list nat) :
  Forall (λ id, id < length (entities (scene s))) ids →
  let ts := targets_of (entities (scene s)) ids in
  wp (remove_entities ids)
     (λ _ s1,
        entities (scene s1) = foldl (λ acc e, py_remove e acc) (entities (scene s)) ts ∧
        (∀ e, e ∈ selection (scene s1) → e ∈ selection (scene s)) ∧
        (∀ e, e ∈ ts → truthy (heap s1) e = false) ∧
        (∀ r, r ∉ ts → heap s1 !! r = heap s !! r) ∧
        same_log s s1)
     (λ _ _, False) s.
Proof.
  intros Hids ts. unfold remove_entities. wp_step.
  assert (Hread : map_m (λ id, l <- gets (λ s : ctx, entities (scene s)) ;;
                               of_option IndexError (l !! id)) ids s =
                  (Ok ts, s)).
  { unfold ts, targets_of. clear ts. induction ids as [|id ids IH]; [done|].
    apply Forall_cons in Hids as [Hid Hids].
    destruct (lookup_lt_is_Some_2 _ _ Hid) as [e He].
    cbn [map_m].
    rewrite (bind_ok _ _ s s e) by (unfold bind, gets; simpl; by rewrite He).
    rewrite (bind_ok _ _ s s _ (IH Hids)). simpl. by rewrite He. }
  eapply wp_known_ok; [exact Hread|]. wp_step.
  apply (wp_for_each (λ s1,
           entities (scene s1) = entities (scene s) ∧
           (∀ e, e ∈ selection (scene s1) → e ∈ selection (scene s)) ∧
           heap s1 = heap s ∧ same_log s s1)).
  { split; [done|]. split; [done|]. split; [done|]. by split. }
  { intros e s1 _ (H1 & H2 & H3 & H4). do 2 wp_step.
    destruct (decide _); wp_step; simpl; [|done].
    split; [done|]. split; [|done].
    intros e' He'. apply H2. by eapply elem_of_py_remove. }
  intros s1 (H1 & H2 & H3 & H4).
  apply (wp_for_each_prefix (λ pre s2,
           entities (scene s2) = foldl (λ acc e, py_remove e acc) (entities (scene s)) pre ∧
           selection (scene s2) = selection (scene s1) ∧
           (∀ e, e ∈ pre → truthy (heap s2) e = false) ∧
           (∀ r, r ∉ pre → heap s2 !! r = heap s !! r) ∧
           same_log s s2)).
  { split; [done|]. split; [done|]. split; [|split; [|done]].
    - intros e He. by apply elem_of_nil in He.
    - intros r _. by rewrite H3. }
  { intros pre e s2 _ (G1 & G2 & G3 & G4 & G5). do 3 wp_step.
    rewrite foldl_snoc.
    assert (Hent : (if decide (e ∈ entities (scene s2))
                    then py_remove e (entities (scene s2))
                    else entities (scene s2)) =
                   py_remove e (foldl (λ acc e, py_remove e acc) (entities (scene s)) pre)).
    { rewrite <- G1. destruct (decide _); [done|]. by rewrite py_remove_absent. }
    destruct (decide (e ∈ entities (scene s2))) as [Hin|Hout];
      do 2 wp_step; simpl.
    - split; [done|]. split; [done|]. split; [|split; [|done]].
      + intros e' He'. unfold truthy. destruct (decide (e' = e)) as [->|Hne].
        * rewrite lookup_alter_eq. by destruct (heap s2 !! e).
        * rewrite lookup_alter_ne by done. apply G3. set_solver.
      + intros r Hr. rewrite lookup_alter_ne; [apply G4|]; set_solver.
    - split; [by rewrite <- Hent|]. split; [done|]. split; [|split; [|done]].
      + intros e' He'. unfold truthy. destruct (decide (e' = e)) as [->|Hne].
        * rewrite lookup_alter_eq. by destruct (heap s2 !! e).
        * rewrite lookup_alter_ne by done. apply G3. set_solver.
      + intros r Hr. rewrite lookup_alter_ne; [apply G4|]; set_solver. }
  intros s2 (G1 & G2 & G3 & G4 & G5). split; [done|]. split; [|done].
  intros e He. apply H2. by rewrite <- G2.
Qed.

(** X5. Undoing the creation of entities whose recorded indices are all
    in range, in a registry without duplicates: the entities at these
    indices leave the registry, whose other entities keep their order;
    they are destroyed and no longer selected; no other object is
    touched, and the cursor moves back by one. *)
Theorem undoing_a_creation_removes_its_entities
    (s : ctx) (ids : list nat) (recipes : list string) :
  log_wf (scene s) → (0 ≤ undo_index (scene s))%Z →
  py_getitem (undo_data (scene s)) (undo_index (scene s)) =
    Some (delete_entities ids recipes) →
  NoDup (entities (scene s)) →
  Forall (λ id, id < length (entities (scene s))) ids →
  let ts := targets_of (entities (scene s)) ids in
  let s' := exec undo s in
  result undo s = Ok tt ∧
  entities (scene s') = filter (λ e, e ∉ ts) (entities (scene s)) ∧
  (∀ e, e ∈ selection (scene s') → e ∈ selection (scene s) ∧ e ∉ ts) ∧
  (∀ e, e ∈ ts → truthy (heap s') e = false) ∧
  (∀ r, r ∉ ts → heap s' !! r = heap s !! r) ∧
  undo_index (scene s') = (undo_index (scene s) - 1)%Z.
Proof.
  intros Hwf Hguard Hentry Hnd Hids ts s'.
  destruct (run_ok _ _ _ (wp_remove_entities s ids Hids))
    as ([] & s1 & Hrun & Hent & Hsel & Hin & Hout & Hd & Hi).
  assert (Hundo := undo_unfold s _ Hguard Hentry).
  unfold after_apply, try_except in Hundo. simpl in Hundo.
  rewrite Hrun in Hundo. simpl in Hundo.
  unfold s', result, exec. rewrite Hundo. simpl.
  split; [done|]. split; [rewrite Hent; by apply foldl_remove_filter|].
  split; [|split; [done|split; [done|by rewrite Hi]]].
  intros e He. apply list_elem_of_filter in He as [Htruthy He].
  split; [by apply Hsel|]. intros Hts. by rewrite (Hin e Hts) in Htruthy.
Qed.

(** X6. Undoing the creation of entities one of whose recorded indices
    is past the end of the registry removes nothing: the index error is
    raised while the targets are collected, before any entity is
    touched.  The registry and the heap are unchanged, and the entry is
    consumed all the same. *)
Theorem undoing_a_creation_out_of_range_removes_nothing
    (s : ctx) (ids : list nat) (recipes : list string) (id : nat) :
  log_wf (scene s) → (0 ≤ undo_index (scene s))%Z →
  py_getitem (undo_data (scene s)) (undo_index (scene s)) =
    Some (delete_entities ids recipes) →
  id ∈ ids → length (entities (scene s)) ≤ id →
  let s' := exec undo s in
  result undo s = Ok tt ∧
  entities (scene s') = entities (scene s) ∧
  heap s' = heap s ∧
  selection (scene s') =
    filter (λ e, truthy (heap s) e = true) (selection (scene s)) ∧
  undo_index (scene s') = (undo_index (scene s) - 1)%Z.
Proof.
  intros Hwf Hguard Hentry Hid Hlen s'.
  assert (Hm : map_m (λ id, l <- gets (λ s : ctx, entities (scene s)) ;;
                            of_option IndexError (l !! id)) ids s =
               (Raise IndexError, s)).
  { apply map_m_read_raise.
    - intros x _. unfold bind, gets; simpl.
      destruct (entities (scene s) !! x) as [e|]; [left; by exists e|by right].
    - exists id. split; [done|]. unfold bind, gets; simpl.
      by rewrite lookup_ge_None_2. }
  assert (Hundo := undo_unfold s _ Hguard Hentry).
  unfold after_apply, try_except in Hundo. simpl in Hundo.
  unfold remove_entities in Hundo.
  rewrite (bind_raise _ _ _ _ _ Hm) in Hundo. simpl in Hundo.
  unfold s', result, exec. rewrite Hundo. simpl. done.
Qed.

End Removal.

(** Entity 2 is selected but not registered: entity 1 survives. *)
Lemma deleting_an_unregistered_selection_changes_nothing_witness :
  let s := Ctx (<[1 := Sample.entity "Entity"]> (<[2 := Sample.entity "WhiteCube"]> ∅))
               3 ∅ (with_selection [1; 2] (Sample.scene_of [1])) in
  2 ∈ selection (scene s) ∧ (2 ∉ entities (scene s)) ∧
  exec (@delete_selected Sample.python) s = s.
Proof.
  intros s.
  assert (Hsel : 2 ∈ selection (scene s)) by (simpl; set_solver).
  assert (Hreg : 2 ∉ entities (scene s)) by (simpl; set_solver).
  destruct (@deleting_an_unregistered_selection_changes_nothing Sample.python s 2 Hsel Hreg)
    as [_ Hsame].
  split; [exact Hsel|]. split; [exact Hreg | exact Hsame].
Defined.

(** Entities 3 and 1, selected in this order, leave the registry
    [1; 2; 3]. *)
Lemma deleting_filters_the_registry_witness :
  let s := Ctx (<[1 := Sample.entity "Entity"]>
                (<[2 := Sample.entity "WhiteCube"]>
                 (<[3 := Sample.entity "Entity"]> ∅)))
               4 ∅ (with_selection [3; 1] (Sample.scene_of [1; 2; 3])) in
  NoDup (entities (scene s)) ∧ selection_in_registry (scene s) ∧
  selection_on_heap s ∧
  entities (scene (exec (@delete_selected Sample.python) s)) = [2].
Proof.
  intros s.
  assert (Hnd : NoDup (entities (scene s))).
  { simpl. repeat (apply NoDup_cons; split; [set_solver|]). apply NoDup_nil_2. }
  assert (Hreg : selection_in_registry (scene s)).
  { intros e He. simpl in *. set_solver. }
  assert (Hheap : selection_on_heap s).
  { intros e He. simpl in He.
    apply elem_of_cons in He as [->|He]; [by eexists|].
    apply list_elem_of_singleton in He as ->. by eexists. }
  destruct (@deleting_filters_the_registry Sample.python s Hnd Hreg Hheap)
    as (_ & Hent & _).
  split; [exact Hnd|]. split; [exact Hreg|]. split; [exact Hheap|].
  exact Hent.
Defined.

(** The log says entity 1 (index 1) was created; undoing removes it. *)
Lemma undoing_a_creation_removes_its_entities_witness :
  let s := Ctx (<[1 := Sample.entity "Entity"]> (<[2 := Sample.entity "WhiteCube"]> ∅))
               3 ∅
               (with_undo [delete_entities [1] ["WhiteCube"]] 0
                  (with_selection [2] (Sample.scene_of [1; 2]))) in
  let s' := exec (@undo Sample.python) s in
  log_wf (scene s) ∧ NoDup (entities (scene s)) ∧
  Forall (λ id, id < length (entities (scene s))) [1] ∧
  entities (scene s') = [1] ∧ truthy (heap s') 2 = false.
Proof.
  intros s s'.
  assert (Hwf : log_wf (scene s)) by (unfold log_wf; simpl; lia).
  assert (Hguard : (0 ≤ undo_index (scene s))%Z) by (simpl; lia).
  assert (Hnd : NoDup (entities (scene s))).
  { simpl. repeat (apply NoDup_cons; split; [set_solver|]). apply NoDup_nil_2. }
  assert (Hids : Forall (λ id, id < length (entities (scene s))) [1]).
  { apply Forall_cons. split; [simpl; lia|apply Forall_nil_2]. }
  destruct (@undoing_a_creation_removes_its_entities Sample.python s [1] ["WhiteCube"]
              Hwf Hguard eq_refl Hnd Hids) as (_ & Hent & _ & Hgone & _).
  split; [exact Hwf|]. split; [exact Hnd|]. split; [exact Hids|].
  split; [exact Hent|]. apply Hgone. simpl. set_solver.
Defined.

(** The log names index 5 of a registry of two entities. *)
Lemma undoing_a_creation_out_of_range_removes_nothing_witness :
  let s := Ctx (<[1 := Sample.entity "Entity"]> (<[2 := Sample.entity "WhiteCube"]> ∅))
               3 ∅
               (with_undo [delete_entities [0; 5] ["Entity"; "WhiteCube"]] 0
                  (Sample.scene_of [1; 2])) in
  let s' := exec (@undo Sample.python) s in
  log_wf (scene s) ∧ length (entities (scene s)) ≤ 5 ∧
  entities (scene s') = [1; 2] ∧ heap s' = heap s ∧
  undo_index (scene s') = (-1)%Z.
Proof.
  intros s s'.
  assert (Hwf : log_wf (scene s)) by (unfold log_wf; simpl; lia).
  assert (Hguard : (0 ≤ undo_index (scene s))%Z) by (simpl; lia).
  assert (Hlen : length (entities (scene s)) ≤ 5) by (simpl; lia).
  assert (Hid : 5 ∈ [0; 5]) by set_solver.
  destruct (@undoing_a_creation_out_of_range_removes_nothing Sample.python s
              [0; 5] ["Entity"; "WhiteCube"] 5 Hwf Hguard eq_refl Hid Hlen)
    as (_ & Hent & Hh & _ & Hi).
  split; [exact Hwf|]. split; [exact Hlen|]. split; [exact Hent|].
  split; [exact Hh | exact Hi].
Defined.

(** ** Saving, loading and unloading at their edges *)

Section PersistenceEdges.
Context `{!Python}.



Lemma add_fields_extends fs keys : ∃ extra, add_fields fs keys = fs ++ extra.
Proof.
  unfold add_fields. revert fs. induction keys as [|key keys IH]; intros fs; simpl.
  - exists []. by rewrite app_nil_r.
  - destruct (decide (key ∈ fs)); [apply IH|].
    destruct (IH (fs ++ [key])) as [extra ->].
    exists (key :: extra). by rewrite <- app_assoc.
Qed.

Lemma header_starts_with_class dicts : ∃ extra, header dicts = "class" :: extra.
Proof.
  unfold header.
  assert (Hgen : ∀ fs, ∃ extra,
            foldl (λ fs d, add_fields fs (map_to_list d).*1) fs dicts = fs ++ extra).
  { induction dicts as [|d dicts IH]; intros fs; simpl.
    - exists []. by rewrite app_nil_r.
    - destruct (add_fields_extends fs (map_to_list d).*1) as [e1 ->].
      destruct (IH (fs ++ e1)) as [e2 ->]. exists (e1 ++ e2).
      by rewrite <- app_assoc. }
  destruct (Hgen ["class"]) as [extra ->]. by exists extra.
Qed.

(** X8. The file [save] writes is one [csv.DictWriter] accepts and
    that loses nothing: its header starts with the class column and
    names no column twice; there is one row per entity that is not a
    gizmo, in registry order; every key of an entity's dict is a column,
    and the row holds its text under that key and the empty text under
    the columns the entity has no value for. *)
Theorem saved_file_is_complete (s : ctx) :
  let f := saved_file s in
  head (fieldnames f) = Some "class" ∧
  NoDup (fieldnames f) ∧
  length (rows f) = length (saved_entities s) ∧
  ∀ i o, saved_entities s !! i = Some o →
    ∃ row, rows f !! i = Some row ∧
      row !! "class" = Some (cls o) ∧
      (∀ k v, entity_changes o !! k = Some v →
              k ∈ fieldnames f ∧ row !! k = Some (str_value v)) ∧
      (∀ k, k ∈ fieldnames f → entity_changes o !! k = None → row !! k = Some "") ∧
      (∀ k, k ∉ fieldnames f → row !! k = None).
Proof.
  intros f. unfold f, saved_file. simpl.
  set (dicts := entity_changes <$> saved_entities s).
  destruct (header_spec dicts) as (Hnd & Hclass & Hkeys).
  split; [destruct (header_starts_with_class dicts) as [extra ->]; done|].
  split; [done|]. split; [unfold dicts; by rewrite !length_fmap|].
  intros i o Ho.
  exists (written_row (header dicts) (entity_changes o)).
  split; [unfold dicts; by rewrite !list_lookup_fmap, Ho|].
  assert (Hin : entity_changes o ∈ dicts).
  { unfold dicts. apply list_elem_of_fmap. exists o. split; [done|].
    by eapply list_elem_of_lookup_2. }
  split; [|split; [|split]].
  - rewrite written_row_lookup by done. by rewrite entity_changes_class.
  - intros k v Hk.
    assert (Hcol : k ∈ header dicts) by (apply (Hkeys _ _ Hin); by exists v).
    split; [done|]. rewrite written_row_lookup by done. by rewrite Hk.
  - intros k Hk Hnone. rewrite written_row_lookup by done. by rewrite Hnone.
  - intros k Hk. unfold written_row. apply not_elem_of_list_to_map_1.
    rewrite <- list_fmap_compose. by rewrite list_fmap_id.
Qed.

(** X9. [load] refuses, returning [None] and changing nothing, when the
    scene has no path, when it is loaded already (its scene root is
    alive), and when there is no file at its path. *)
Theorem load_refuses_without_touching (s : ctx) :
  path (scene s) = None ∨
  from_option (truthy (heap s)) false (scene_parent (scene s)) = true ∨
  (∃ p, path (scene s) = Some p ∧ files s !! p = None) →
  result load s = Ok None ∧ exec load s = s.
Proof.
  intros Hcase. unfold result, exec, load, bind, gets; simpl.
  destruct (path (scene s)) as [p|] eqn:Hp; [|done].
  destruct (from_option (truthy (heap s)) false (scene_parent (scene s))) eqn:Ht;
    [done|].
  destruct Hcase as [Hnone|[Hloaded|(p' & Hp' & Hfile)]]; [done|done|].
  inversion Hp'; subst p'. unfold try_except, bind, gets; simpl.
  rewrite Hfile. done.
Qed.

(** X10. A file with rows but no class column cannot be loaded, and
    the attempt is not undone: [load] returns [None] and adds nothing
    to the registry, but the scene root it created first stays, so the
    scene now counts as loaded and a second [load] refuses. *)
Theorem load_without_class_column_leaves_the_scene_loaded
    (s : ctx) (p : string) (f : csv_file) :
  path (scene s) = Some p →
  from_option (truthy (heap s)) false (scene_parent (scene s)) = false →
  files s !! p = Some f →
  "class" ∉ fieldnames f → rows f ≠ [] →
  let s' := exec load s in
  result load s = Ok None ∧
  entities (scene s') = entities (scene s) ∧
  scene_parent (scene s') = Some (next_ref s) ∧
  truthy (heap s') (next_ref s) = true ∧
  exec load s' = s'.
Proof.
  intros Hpath Hfalsy Hfile Hclass Hrows s'.
  destruct (rows f) as [|line lines] eqn:Hr; [done|].
  assert (Hrun : load s = (Ok None,
            on_scene (with_scene_parent (Some (next_ref s)))
              (Ctx (<[next_ref s := Obj "Entity" ∅ false]> (heap s))
                   (S (next_ref s)) (files s) (scene s)))).
  { unfold load, bind at 1, gets; simpl. rewrite Hpath.
    unfold bind at 1; simpl. rewrite Hfalsy.
    unfold try_except, bind at 1, gets; simpl.
    unfold bind at 1; simpl. rewrite Hfile; simpl.
    unfold bind at 1, alloc; simpl. unfold bind at 1, modify; simpl.
    rewrite Hr. simpl. unfold bind at 1, load_row. cbv zeta.
    unfold bind at 1. rewrite decide_False by done. done. }
  unfold s', result, exec. rewrite Hrun. simpl.
  split; [done|]. split; [done|]. split; [done|].
  assert (Ht : truthy (<[next_ref s := Obj "Entity" ∅ false]> (heap s)) (next_ref s) = true).
  { unfold truthy. by rewrite lookup_insert_eq. }
  split; [done|].
  unfold load, bind, gets; simpl. rewrite Hpath. simpl. rewrite Ht. done.
Qed.

(** X11. [unload] never raises.  It empties the registry and the
    selection, destroys every entity of the registry and the scene
    root, touches no other object, and keeps the path, the name and the
    log; unloading again changes nothing. *)
Theorem unload_empties_and_destroys (s : ctx) :
  let s' := exec unload s in
  result unload s = Ok tt ∧
  scene s' = with_entities [] (with_selection [] (scene s)) ∧
  (∀ e, e ∈ entities (scene s) → truthy (heap s') e = false) ∧
  from_option (truthy (heap s')) false (scene_parent (scene s)) = false ∧
  (∀ r, r ∉ entities (scene s) → scene_parent (scene s) ≠ Some r →
        heap s' !! r = heap s !! r) ∧
  exec unload s' = s'.
Proof.
  intros s'.
  assert (Hwp : wp unload
            (λ _ s1, scene s1 = with_entities [] (with_selection [] (scene s)) ∧
               (∀ e, e ∈ entities (scene s) → truthy (heap s1) e = false) ∧
               from_option (truthy (heap s1)) false (scene_parent (scene s)) = false ∧
               (∀ r, r ∉ entities (scene s) → scene_parent (scene s) ≠ Some r →
                     heap s1 !! r = heap s !! r))
            (λ _ _, False) s).
  { unfold unload. do 4 wp_step.
    apply (wp_for_each_prefix (λ pre s1,
             scene s1 = scene s ∧
             (∀ e, e ∈ pre → truthy (heap s1) e = false) ∧
             (∀ r, r ∉ pre → heap s1 !! r = heap s !! r))).
    - split; [done|]. split; [|done]. intros e He. by apply elem_of_nil in He.
    - intros pre e s1 _ (H1 & H2 & H3). wp_step. simpl.
      split; [done|]. split.
      + intros e' He'. unfold truthy. destruct (decide (e' = e)) as [->|Hne].
        * rewrite lookup_alter_eq. by destruct (heap s1 !! e).
        * rewrite lookup_alter_ne by done. apply H2. set_solver.
      + intros r Hr. rewrite lookup_alter_ne; [apply H3|]; set_solver.
    - intros s1 (H1 & H2 & H3). do 8 wp_step. simpl. rewrite H1.
      destruct (scene_parent (scene s)) as [sp|] eqn:Hsp; simpl.
      + destruct (truthy (heap s1) sp) eqn:Ht; wp_step; simpl; rewrite H1.
        * split; [done|]. split; [|split].
          -- intros e He. unfold truthy. destruct (decide (e = sp)) as [->|Hne].
             ++ rewrite lookup_alter_eq. by destruct (heap s1 !! sp).
             ++ rewrite lookup_alter_ne by done. by apply H2.
          -- unfold truthy. rewrite lookup_alter_eq. by destruct (heap s1 !! sp).
          -- intros r Hr Hne. rewrite lookup_alter_ne by congruence. by apply H3.
        * split; [done|]. split; [done|]. split; [done|].
          intros r Hr _. by apply H3.
      + wp_step. simpl. rewrite H1. split; [done|]. split; [done|]. split; [done|].
        intros r Hr _. by apply H3. }
  destruct (run_ok _ _ _ Hwp) as ([] & s1 & Hrun & Hsc & Hgone & Hroot & Hrest).
  unfold s', result, exec. rewrite Hrun. simpl.
  split; [done|]. split; [done|]. split; [done|]. split; [done|]. split; [done|].
  unfold unload, try_except, bind, gets, modify; simpl. rewrite Hsc. simpl.
  destruct s1 as [h n fs sc]. simpl in *. subst sc.
  unfold with_entities, with_selection. simpl.
  destruct (scene_parent (scene s)) as [sp|]; simpl; [|done].
  simpl in Hroot. by rewrite Hroot.
Qed.

End PersistenceEdges.


(** A scene whose path names a file that is not there. *)
Lemma load_refuses_without_touching_witness :
  let s := Ctx ∅ 0 ∅ (with_path (Some "level.csv") (new_scene 0 0 "level")) in
  (∃ p, path (scene s) = Some p ∧ files s !! p = None) ∧
  result (@load Sample.python) s = Ok None ∧ exec (@load Sample.python) s = s.
Proof.
  intros s.
  assert (Hmissing : ∃ p, path (scene s) = Some p ∧ files s !! p = None).
  { exists "level.csv". split; reflexivity. }
  destruct (@load_refuses_without_touching Sample.python s (or_intror (or_intror Hmissing)))
    as [Hres Hsame].
  split; [exact Hmissing|]. split; [exact Hres | exact Hsame].
Defined.

(** A file whose header lacks the class column. *)
Lemma load_without_class_column_leaves_the_scene_loaded_witness :
  let row : gmap string string := {["name" := "crate"]} in
  let f := CsvFile ["name"] [row] in
  let s := Ctx ∅ 0 {["level.csv" := f]}
               (with_path (Some "level.csv") (new_scene 0 0 "level")) in
  let s' := exec (@load Sample.python) s in
  ("class" ∉ fieldnames f) ∧ (rows f ≠ []) ∧
  result (@load Sample.python) s = Ok None ∧
  entities (scene s') = [] ∧ scene_parent (scene s') = Some 0 ∧
  exec (@load Sample.python) s' = s'.
Proof.
  intros row f s s'.
  assert (Hclass : "class" ∉ fieldnames f).
  { simpl. intros Hin. apply list_elem_of_singleton in Hin. discriminate. }
  assert (Hrows : rows f ≠ []) by (simpl; discriminate).
  destruct (@load_without_class_column_leaves_the_scene_loaded Sample.python s
              "level.csv" f eq_refl eq_refl eq_refl Hclass Hrows)
    as (Hres & Hent & Hroot & _ & Hagain).
  split; [exact Hclass|]. split; [exact Hrows|]. split; [exact Hres|].
  split; [exact Hent|]. split; [exact Hroot | exact Hagain].
Defined.

(** ** The scenes that [goto_scene] leaves behind *)

Section OtherScenes.
Context `{!Python}.

(** A method run on one cell does not touch another. *)
Lemma wp_at_cell_other {A} x y x1 y1 (m : py ctx A) (ed : LevelEditor) c :
  (x, y) ≠ (x1, y1) → cell (scenes ed) x1 y1 = Some c →
  wp (at_cell x y m)
     (λ _ ed', cell (scenes ed') x1 y1 = Some c)
     (λ _ ed', cell (scenes ed') x1 y1 = Some c) ed.
Proof.
  intros Hne Hc. unfold wp, at_cell.
  destruct (cell (scenes ed) x y) as [sc|]; [|done].
  destruct (m _) as [[a|e] s1]; simpl; by rewrite cell_set_cell_ne.
Qed.

(** Unloading the cell (x0, y0), seen from the cell (x1, y1). *)
Lemma unload_seen_from x0 y0 x1 y1 sc1 (ed : LevelEditor) :
  x0 < 8 → y0 < 8 → full_grid ed →
  cell (scenes ed) x1 y1 = Some sc1 ∨
  cell (scenes ed) x1 y1 = Some (with_entities [] (with_selection [] sc1)) →
  wp (at_cell x0 y0 unload)
     (λ _ ed', full_grid ed' ∧
        (cell (scenes ed') x1 y1 = Some sc1 ∨
         cell (scenes ed') x1 y1 = Some (with_entities [] (with_selection [] sc1))) ∧
        (cell (scenes ed) x1 y1 = Some (with_entities [] (with_selection [] sc1)) →
         cell (scenes ed') x1 y1 = Some (with_entities [] (with_selection [] sc1))) ∧
        (x0 = x1 → y0 = y1 →
         cell (scenes ed') x1 y1 = Some (with_entities [] (with_selection [] sc1))))
     (λ _ _, False) ed.
Proof.
  intros Hx0 Hy0 Hfull Hc.
  destruct (Hfull x0 y0 Hx0 Hy0) as [sc0 Hc0].
  apply (wp_at_cell x0 y0 unload _ _ ed sc0 Hc0).
  eapply wp_mono with (E := λ _ _, False); [apply wp_unload| |done].
  cbn beta. intros _ s1 (_ & _ & Hscene & _). unfold put_cell. simpl in *.
  split; [intros x' y' Hx' Hy'; simpl; by apply cell_set_cell_is_Some, Hfull|].
  destruct (decide ((x0, y0) = (x1, y1))) as [Heq|Hne].
  - inversion Heq; subst x0 y0.
    assert (Hnew : cell (set_cell x1 y1 (scene s1) (scenes ed)) x1 y1 =
                   Some (with_entities [] (with_selection [] sc1))).
    { rewrite cell_set_cell_eq by (by eexists). f_equal. rewrite Hscene.
      destruct Hc as [Hc|Hc]; rewrite Hc in Hc0; by inversion Hc0. }
    split; [by right|]. by split.
  - rewrite cell_set_cell_ne by done. split; [done|]. split; [done|].
    intros -> ->. done.
Qed.

(** X12. Going to a scene unloads every other scene of the grid, and
    only unloads it: whatever the outcome of loading the target, any
    other cell holds its scene with an empty registry and an empty
    selection and with its path, name, scene root, log and cursor as
    they were. *)
Theorem goto_scene_unloads_the_other_scenes
    (ed : LevelEditor) (x y x1 y1 : nat) (sc1 : LevelEditorScene) :
  full_grid ed → x < 8 → y < 8 → x1 < 8 → y1 < 8 →
  (x, y) ≠ (x1, y1) →
  cell (scenes ed) x1 y1 = Some sc1 →
  cell (scenes (exec (LevelMenu.goto_scene (Z.of_nat x) (Z.of_nat y)) ed)) x1 y1 =
    Some (with_entities [] (with_selection [] sc1)).
Proof.
  intros Hfull Hx Hy Hx1 Hy1 Hne Hc.
  set (gone := with_entities [] (with_selection [] sc1)).
  apply (wp_final (LevelMenu.goto_scene (Z.of_nat x) (Z.of_nat y))
           (λ ed', cell (scenes ed') x1 y1 = Some gone)).
  unfold LevelMenu.goto_scene. wp_step.
  apply wp_mono with
    (Q := λ _ ed1, full_grid ed1 ∧ cell (scenes ed1) x1 y1 = Some gone)
    (E := λ _ _, False); [| |done].
  { apply (wp_for_each_prefix (λ pre ed1,
             full_grid ed1 ∧
             (cell (scenes ed1) x1 y1 = Some sc1 ∨ cell (scenes ed1) x1 y1 = Some gone) ∧
             (y1 ∈ pre → cell (scenes ed1) x1 y1 = Some gone))).
    - split; [done|]. split; [by left|]. intros Hin. by apply elem_of_nil in Hin.
    - intros pre y0 ed1 Hy0 (Hf1 & Hc1 & Hpre). apply elem_of_seq in Hy0.
      apply (wp_for_each_prefix (λ prex ed2,
               full_grid ed2 ∧
               (cell (scenes ed2) x1 y1 = Some sc1 ∨ cell (scenes ed2) x1 y1 = Some gone) ∧
               (y1 ∈ pre ∨ (y0 = y1 ∧ x1 ∈ prex) → cell (scenes ed2) x1 y1 = Some gone))).
      + split; [done|]. split; [done|]. intros [Hin|[_ Hin]]; [by apply Hpre|].
        by apply elem_of_nil in Hin.
      + intros prex x0 ed2 Hx0 (Hf2 & Hc2 & Hprex). apply elem_of_seq in Hx0.
        eapply wp_mono with (E := λ _ _, False);
          [apply (unload_seen_from x0 y0 x1 y1 sc1); [lia|lia|done|done]| |done].
        cbn beta. intros _ ed3 (Hf3 & Hc3 & Hkeep & Hnew).
        split; [done|]. split; [done|].
        intros [Hin|[-> Hin]]; [by apply Hkeep, Hprex; left|].
        apply elem_of_app in Hin as [Hin|Hin]; [by apply Hkeep, Hprex; right|].
        apply list_elem_of_singleton in Hin. by apply Hnew.
      + intros ed2 (Hf2 & Hc2 & Hall). split; [done|]. split; [done|].
        intros Hin. apply Hall. apply elem_of_app in Hin as [Hin|Hin]; [by left|].
        apply list_elem_of_singleton in Hin. right. split; [done|].
        apply elem_of_seq. lia.
    - intros ed1 (Hf1 & Hc1 & Hall). split; [done|]. apply Hall, elem_of_seq. lia. }
  cbn beta. intros _ ed1 [Hf1 Hc1].
  do 3 wp_step. rewrite py_position_nat.
  2:{ destruct (Hf1 x y Hx Hy) as [sc Hsc]. unfold cell in Hsc.
      destruct (scenes ed1 !! x) as [col|] eqn:Hcol; [|done].
      by eapply lookup_lt_Some. }
  do 2 wp_step.
  destruct (Hf1 x y Hx Hy) as [sc Hsc]. unfold cell in Hsc.
  destruct (scenes ed1 !! x) as [col|] eqn:Hcol; simpl in Hsc; [|done].
  do 2 wp_step. rewrite py_position_nat by (by eapply lookup_lt_Some).
  do 4 wp_step.
  eapply wp_mono; [apply (wp_at_cell_other x y x1 y1 _ _ gone Hne); exact Hc1| |done].
  cbn beta. intros loaded_scene ed2 Hc2. wp_step.
  eapply wp_mono with (Q := λ _ ed3, cell (scenes ed3) x1 y1 = Some gone)
                      (E := λ _ ed3, cell (scenes ed3) x1 y1 = Some gone);
    [| |done].
  - destruct loaded_scene; [by wp_step|].
    by apply (wp_at_cell_other x y x1 y1 _ _ gone Hne).
  - cbn beta. intros _ ed3 Hc3.
    by apply (wp_at_cell_other x y x1 y1 _ _ gone Hne).
Qed.

End OtherScenes.

(** In the fresh editor, going to the scene (0, 0) leaves the scene
    (3, 4) empty, with its name. *)
Lemma goto_scene_unloads_the_other_scenes_witness :
  let ed := init_editor in
  let ed' := exec (@LevelMenu.goto_scene Sample.python 0 0) ed in
  full_grid ed ∧
  (name <$> cell (scenes ed') 3 4) = Some "untitled_scene[3,4]" ∧
  (entities <$> cell (scenes ed') 3 4) = Some [].
Proof.
  intros ed ed'.
  assert (Hne : (0, 0) ≠ (3, 4)) by discriminate.
  pose proof (@goto_scene_unloads_the_other_scenes Sample.python ed 0 0 3 4
                (new_scene 3 4 (scene_name 3 4)) full_grid_init
                ltac:(lia) ltac:(lia) ltac:(lia) ltac:(lia) Hne eq_refl) as Hcell.
  split; [exact full_grid_init|].
  unfold ed'. change (Z.of_nat 0) with 0%Z in Hcell. rewrite Hcell.
  split; reflexivity.
Defined.

(** ** The adjacent-scene hotkeys inside the grid *)

Section Hotkeys.
Context `{!Python}.

(** Going to a scene of the grid ends normally, on that scene. *)
Lemma goto_scene_goes (ed : LevelEditor) (x y : nat) :
  full_grid ed → x < 8 → y < 8 →
  result (LevelMenu.goto_scene (Z.of_nat x) (Z.of_nat y)) ed = Ok tt ∧
  current_scene (exec (LevelMenu.goto_scene (Z.of_nat x) (Z.of_nat y)) ed) = Some (x, y).
Proof.
  intros Hfull Hx Hy. destruct (Hfull x y Hx Hy) as [sc Hc].
  set (n0 := ed_next_ref ed). set (d := undo_data sc). set (i := undo_index sc).
  assert (Hwp : wp (LevelMenu.goto_scene (Z.of_nat x) (Z.of_nat y))
                   (λ _, went_to n0 x y d i) (λ _ _, False) ed).
  { unfold LevelMenu.goto_scene. wp_step.
    eapply wp_mono with (E := λ _ _, False);
      [apply (wp_unload_all n0 x y d i); [done|done|]| |done].
    { split; [done|]. split; [done|]. by exists sc. }
    cbn beta. intros _ ed1 [(Hfull1 & Hn1 & sc1 & Hc1 & Hd1 & Hi1) Hempty].
    destruct Hempty as (sc1' & Hc1' & He1 & Hs1).
    rewrite Hc1 in Hc1'. inversion Hc1'; subst sc1'.
    pose proof Hc1 as Hcell. unfold cell in Hcell.
    destruct (scenes ed1 !! x) as [col|] eqn:Hcol; simpl in Hcell; [|done].
    do 3 wp_step.
    rewrite py_position_nat by (by eapply lookup_lt_Some).
    do 2 wp_step. rewrite Hcol. do 2 wp_step.
    rewrite py_position_nat by (by eapply lookup_lt_Some).
    do 4 wp_step.
    assert (Hwent : went_to n0 x y d i
              (Editor (ed_heap ed1) (ed_next_ref ed1) (ed_files ed1) (scenes ed1)
                      (Some (x, y)))).
    { split; [done|]. exists sc1. split; [done|].
      repeat split; simpl; try done. rewrite He1. intros e He.
      by apply elem_of_nil in He. }
    eapply wp_mono with (E := λ _ _, False);
      [apply (went_to_at_cell n0 x y d i); [apply load_keeps_reloaded|exact Hwent]
      | |done].
    cbn beta. intros loaded_scene ed2 Hed2. wp_step.
    eapply wp_mono with (Q := λ _, went_to n0 x y d i) (E := λ _ _, False);
      [| |done].
    - destruct loaded_scene; [by wp_step|].
      apply (went_to_at_cell n0 x y d i); [|done].
      intros s Hs. wp_step. apply wp_alloc. wp_step.
      destruct Hs as (H1 & H2 & H3 & H4 & H5). repeat split; simpl; auto.
    - cbn beta. intros _ ed3 Hed3.
      apply (went_to_at_cell n0 x y d i); [|done].
      intros s Hs. wp_step.
      destruct Hs as (H1 & H2 & H3 & H4 & H5). repeat split; simpl; auto.
      by rewrite H3. }
  destruct (wp_ok _ _ _ Hwp) as ([] & Hres & Hcur & _). done.
Qed.

Lemma set_cell_same g x y sc : cell g x y = Some sc → set_cell x y sc g = g.
Proof.
  unfold cell, set_cell. intros Hc.
  destruct (g !! x) as [col|] eqn:Hcol; simpl in Hc; [|done].
  apply list_eq. intros i. destruct (decide (i = x)) as [->|Hne].
  - rewrite list_lookup_alter_eq, Hcol. simpl. f_equal. by apply list_insert_id.
  - by rewrite list_lookup_alter_ne.
Qed.

(** X13. With shift and alt held, the keys a, s, d and w go to the
    scene to the left, below, to the right and above the current one:
    from the current scene (cx, cy), whose coordinates are its place in
    the grid, the call ends normally on the neighbour.  At the lower
    edges the move is clamped, so a from column 0 and s from row 0
    stay on the current scene (which is reloaded). *)
Theorem hotkeys_go_to_the_neighbour
    (ed : LevelEditor) (cx cy : nat) (sc : LevelEditorScene) (key : string) :
  full_grid ed → cx < 8 → cy < 8 →
  current_scene ed = Some (cx, cy) →
  cell (scenes ed) cx cy = Some sc →
  coordinates sc = (Z.of_nat cx, Z.of_nat cy) →
  key = "a" ∨ key = "s" ∨ (key = "d" ∧ cx < 7) ∨ (key = "w" ∧ cy < 7) →
  let target :=
    if decide (key = "a") then (cx - 1, cy)
    else if decide (key = "s") then (cx, cy - 1)
    else if decide (key = "d") then (cx + 1, cy)
    else (cx, cy + 1) in
  result (LevelMenu.input true true key) ed = Ok tt ∧
  current_scene (exec (LevelMenu.input true true key) ed) = Some target.
Proof.
  intros Hfull Hx Hy Hcur Hc Hcoord Hkey target.
  assert (Hrun : LevelMenu.input true true key ed =
                 LevelMenu.goto_scene (Z.of_nat target.1) (Z.of_nat target.2) ed).
  { unfold LevelMenu.input.
    assert (Hsub : substringb key "wasd" = true).
    { destruct Hkey as [->|[->|[[-> _]|[-> _]]]]; reflexivity. }
    rewrite Hsub. simpl andb. cbv iota.
    unfold bind at 1, gets; simpl. rewrite Hcur.
    unfold bind at 1, at_cell; simpl. rewrite Hc. simpl. rewrite Hcoord.
    rewrite (set_cell_same _ _ _ _ Hc).
    replace (Editor (ed_heap ed) (ed_next_ref ed) (ed_files ed) (scenes ed)
                    (current_scene ed)) with ed by (by destruct ed).
    unfold target, clamp.
    destruct Hkey as [->|[->|[[-> Hd]|[-> Hw]]]]; simpl;
      f_equal; lia. }
  unfold result, exec. rewrite Hrun.
  destruct (goto_scene_goes ed target.1 target.2) as [Hres Hthere]; [done|..].
  - unfold target; destruct Hkey as [->|[->|[[-> Hd]|[-> Hw]]]]; simpl; lia.
  - unfold target; destruct Hkey as [->|[->|[[-> Hd]|[-> Hw]]]]; simpl; lia.
  - split; [exact Hres|]. unfold exec in Hthere. rewrite Hthere.
    symmetry. f_equal. apply surjective_pairing.
Qed.

End Hotkeys.

(** In the fresh editor standing on the scene (0, 0): d goes to (1, 0),
    a stays on (0, 0). *)
Lemma hotkeys_go_to_the_neighbour_witness :
  let ed := Editor ∅ 0 ∅ (scenes init_editor) (Some (0, 0)) in
  full_grid ed ∧
  current_scene (exec (@LevelMenu.input Sample.python true true "d") ed) = Some (1, 0) ∧
  current_scene (exec (@LevelMenu.input Sample.python true true "a") ed) = Some (0, 0).
Proof.
  intros ed.
  assert (Hfull : full_grid ed) by exact full_grid_init.
  assert (H8 : 0 < 8) by lia.
  assert (Hkd : "d" = "a" ∨ "d" = "s" ∨ ("d" = "d" ∧ 0 < 7) ∨ ("d" = "w" ∧ 0 < 7)).
  { right. right. left. split; [reflexivity|lia]. }
  assert (Hka : "a" = "a" ∨ "a" = "s" ∨ ("a" = "d" ∧ 0 < 7) ∨ ("a" = "w" ∧ 0 < 7)).
  { left. reflexivity. }
  destruct (@hotkeys_go_to_the_neighbour Sample.python ed 0 0
              (new_scene 0 0 (scene_name 0 0)) "d" Hfull H8 H8
              eq_refl eq_refl eq_refl Hkd)
    as [_ Hd].
  destruct (@hotkeys_go_to_the_neighbour Sample.python ed 0 0
              (new_scene 0 0 (scene_name 0 0)) "a" Hfull H8 H8
              eq_refl eq_refl eq_refl Hka)
    as [_ Ha].
  split; [exact Hfull|]. split; [exact Hd | exact Ha].
Defined.

(** ** Adding an entity to the current scene *)

Section AddEntity.
Context `{!Python}.

Lemma at_cell_run {A} x y (m : py ctx A) (ed : LevelEditor) sc :
  cell (scenes ed) x y = Some sc →
  at_cell x y m ed = ((m (focus ed sc)).1, put_cell x y ed (m (focus ed sc)).2).
Proof. intros Hc. unfold at_cell, focus, put_cell. by rewrite Hc. Qed.

Lemma with_heap_same (s : ctx) : with_heap (heap s) s = s.
Proof. by destruct s. Qed.

Lemma insert_alter_same (h : gmap nat obj) e (f : obj → obj) o o' :
  h !! e = Some o →
  <[e := o']> (alter f e h) = <[e := o']> h.
Proof.
  intros Ho. apply map_eq. intros r. destruct (decide (r = e)) as [->|Hne].
  - by rewrite !lookup_insert_eq.
  - by rewrite !lookup_insert_ne, lookup_alter_ne by done.
Qed.

(** The loop over the defaults: what the entity has it keeps. *)
Lemma set_defaults_eq entity (kvs : list (string * value)) (s : ctx) o :
  heap s !! entity = Some o →
  for_each kvs (set_default entity) s =
    (Ok tt, with_heap (<[entity := Obj (cls o) (attrs o ∪ list_to_map kvs) (destroyed o)]>
                         (heap s)) s).
Proof.
  revert s o. induction kvs as [|[k v] kvs IH]; intros s o Ho.
  - simpl. rewrite (right_id_L ∅ (∪)).
    replace (Obj (cls o) (attrs o) (destroyed o)) with o by (by destruct o).
    rewrite insert_id by done. by rewrite with_heap_same.
  - cbn [for_each]. unfold set_default at 1. simpl.
    unfold bind at 1. unfold bind at 1. unfold hasattr, bind at 1, gets. simpl.
    rewrite Ho. simpl.
    destruct (attrs o !! k) as [v0|] eqn:Hk.
    + rewrite bool_decide_eq_true_2 by (by eexists). simpl.
      assert (Hmap : attrs o ∪ <[k:=v]> (list_to_map kvs) =
                     attrs o ∪ (list_to_map kvs : gmap string value)).
      { apply map_eq. intros k'. rewrite !lookup_union.
        destruct (decide (k' = k)) as [->|Hne].
        - rewrite Hk, lookup_insert_eq. simpl.
          by destruct ((list_to_map kvs : gmap string value) !! k).
        - by rewrite lookup_insert_ne. }
      rewrite (IH s o Ho). by rewrite Hmap.
    + rewrite bool_decide_eq_false_2 by (intros [? ?]; done). simpl.
      unfold setattr, modify. simpl.
      assert (Hmap : <[k:=v]> (attrs o) ∪ (list_to_map kvs : gmap string value) =
                     attrs o ∪ <[k:=v]> (list_to_map kvs)).
      { rewrite <- insert_union_l. by rewrite insert_union_r. }
      rewrite (IH _ (with_attr k v o)) by (simpl; by rewrite lookup_alter_eq, Ho).
      simpl. rewrite Hmap. unfold with_heap. simpl.
      by rewrite (insert_alter_same _ _ _ o).
Qed.

(** X14. Adding an entity while a loaded scene is current: the entity
    becomes the last one of the registry and hangs under the scene
    root.  It gets the four editing defaults it lacks, and an attribute
    it has already is never overwritten.  The selection, the log and
    every other object are untouched. *)
Theorem add_entity_appends_to_the_loaded_scene
    (ed : LevelEditor) (x y : nat) (sc : LevelEditorScene) (sp entity : ref) (o : obj) :
  current_scene ed = Some (x, y) →
  cell (scenes ed) x y = Some sc →
  scene_parent sc = Some sp → truthy (ed_heap ed) sp = true →
  ed_heap ed !! entity = Some o →
  let ed' := exec (add_entity entity) ed in
  result (add_entity entity) ed = Ok tt ∧
  cell (scenes ed') x y = Some (with_entities (entities sc ++ [entity]) sc) ∧
  ed_heap ed' =
    <[entity := with_attr "parent" (VRef sp) (with_defaults o)]> (ed_heap ed) ∧
  (∀ k v, k ≠ "parent" → attrs o !! k = Some v →
          attrs (with_attr "parent" (VRef sp) (with_defaults o)) !! k = Some v).
Proof.
  intros Hcur Hc Hsp Htruthy Ho ed'.
  set (h1 := <[entity := with_defaults o]> (ed_heap ed)).
  set (ed1 := Editor h1 (ed_next_ref ed) (ed_files ed) (scenes ed) (current_scene ed)).
  assert (Hstore : on_store (for_each editing_defaults (set_default entity)) ed =
                   (Ok tt, ed1)).
  { unfold on_store. rewrite (set_defaults_eq entity _ _ o) by done. done. }
  assert (Ht1 : truthy h1 sp = true).
  { unfold truthy, h1. destruct (decide (sp = entity)) as [->|Hne].
    - rewrite lookup_insert_eq. simpl. unfold truthy in Htruthy.
      by rewrite Ho in Htruthy.
    - by rewrite lookup_insert_ne. }
  assert (Hrun : add_entity entity ed =
            (Ok tt, put_cell x y ed1
               (Ctx (<[entity := with_attr "parent" (VRef sp) (with_defaults o)]> (ed_heap ed))
                    (ed_next_ref ed) (ed_files ed)
                    (with_entities (entities sc ++ [entity]) sc)))).
  { unfold add_entity, try_except. rewrite (bind_ok _ _ _ _ _ Hstore).
    unfold bind at 1, gets. simpl. rewrite Hcur.
    rewrite (at_cell_run x y _ ed1 sc) by done.
    unfold append_to_scene, bind, gets, focus. simpl. rewrite Hsp, Ht1. simpl.
    unfold put_cell. simpl. do 3 f_equal. unfold h1.
    apply map_eq. intros r. destruct (decide (r = entity)) as [->|Hne].
    - by rewrite lookup_alter_eq, !lookup_insert_eq.
    - by rewrite lookup_alter_ne, !lookup_insert_ne by done. }
  unfold ed', result, exec. rewrite Hrun. simpl.
  split; [done|]. split; [apply cell_set_cell_eq; by eexists|]. split; [done|].
  intros k v Hk Hv. unfold with_attr, with_defaults. cbn [attrs].
  rewrite lookup_insert_ne by done. by apply lookup_union_Some_l.
Qed.

(** X15. Without a current scene, or when the current scene is not
    loaded (it has no scene root, or a destroyed one), [add_entity]
    adds nothing: every registry of the grid is what it was.  The
    entity has been given its defaults all the same. *)
Theorem add_entity_needs_a_loaded_scene
    (ed : LevelEditor) (entity : ref) (o : obj) :
  ed_heap ed !! entity = Some o →
  current_scene ed = None ∨
  (∃ x y sc, current_scene ed = Some (x, y) ∧ cell (scenes ed) x y = Some sc ∧
             from_option (truthy (ed_heap ed)) false (scene_parent sc) = false) →
  let ed' := exec (add_entity entity) ed in
  result (add_entity entity) ed = Ok tt ∧
  scenes ed' = scenes ed ∧
  ed_heap ed' = <[entity := with_defaults o]> (ed_heap ed).
Proof.
  intros Ho Hcase ed'.
  set (h1 := <[entity := with_defaults o]> (ed_heap ed)).
  set (ed1 := Editor h1 (ed_next_ref ed) (ed_files ed) (scenes ed) (current_scene ed)).
  assert (Hstore : on_store (for_each editing_defaults (set_default entity)) ed =
                   (Ok tt, ed1)).
  { unfold on_store. rewrite (set_defaults_eq entity _ _ o) by done. done. }
  assert (Hrun : add_entity entity ed = (Ok tt, ed1)).
  { unfold add_entity, try_except. rewrite (bind_ok _ _ _ _ _ Hstore).
    unfold bind at 1, gets. simpl.
    destruct Hcase as [Hnone|(x & y & sc & Hcur & Hc & Hfalsy)].
    - by rewrite Hnone.
    - rewrite Hcur. rewrite (at_cell_run x y _ ed1 sc) by done.
      assert (Hf1 : from_option (truthy h1) false (scene_parent sc) = false).
      { destruct (scene_parent sc) as [sp|]; [|done]. simpl in *.
        unfold truthy, h1. destruct (decide (sp = entity)) as [->|Hne].
        - rewrite lookup_insert_eq. simpl. unfold truthy in Hfalsy.
          by rewrite Ho in Hfalsy.
        - by rewrite lookup_insert_ne. }
      unfold append_to_scene, bind, gets, focus. simpl.
      destruct (scene_parent sc) as [sp|]; simpl in *.
      + rewrite Hf1. simpl. unfold put_cell. simpl.
        by rewrite (set_cell_same _ _ _ _ Hc).
      + unfold put_cell. simpl. by rewrite (set_cell_same _ _ _ _ Hc). }
  unfold ed', result, exec. rewrite Hrun. done.
Qed.

End AddEntity.

(** An unselectable crate is added to the loaded scene (0, 0): it is
    registered, hangs under the scene root 0, and stays unselectable. *)
Lemma add_entity_appends_to_the_loaded_scene_witness :
  let crate := Obj "WhiteCube" {["selectable" := VBool false]} false in
  let sc := with_scene_parent (Some 0) (new_scene 0 0 (scene_name 0 0)) in
  let ed := Editor (<[0 := Entity ∅]> {[5 := crate]}) 6 ∅
                   (set_cell 0 0 sc (scenes init_editor)) (Some (0, 0)) in
  let ed' := exec (add_entity 5) ed in
  truthy (ed_heap ed) 0 = true ∧
  (entities <$> cell (scenes ed') 0 0) = Some [5] ∧
  (ed_heap ed' !! 5 ≫= λ o, attrs o !! "selectable") = Some (VBool false) ∧
  (ed_heap ed' !! 5 ≫= λ o, attrs o !! "parent") = Some (VRef 0).
Proof.
  intros crate sc ed ed'.
  assert (Htruthy : truthy (ed_heap ed) 0 = true) by reflexivity.
  destruct (add_entity_appends_to_the_loaded_scene ed 0 0 sc 0 5 crate
              eq_refl eq_refl eq_refl Htruthy eq_refl) as (_ & Hcell & Hheap & Hkeeps).
  split; [exact Htruthy|].
  unfold ed'. rewrite Hcell, Hheap. rewrite lookup_insert_eq. simpl.
  split; [reflexivity|]. split; [|reflexivity].
  apply (Hkeeps "selectable" (VBool false)); [discriminate|reflexivity].
Defined.

(** Before any scene has been chosen, nothing is registered. *)
Lemma add_entity_needs_a_loaded_scene_witness :
  let crate := Obj "WhiteCube" ∅ false in
  let ed := Editor {[5 := crate]} 6 ∅ (scenes init_editor) None in
  let ed' := exec (add_entity 5) ed in
  scenes ed' = scenes ed ∧
  (ed_heap ed' !! 5 ≫= λ o, attrs o !! "collider_type") = Some (VStr "None").
Proof.
  intros crate ed ed'.
  destruct (add_entity_needs_a_loaded_scene ed 5 crate eq_refl (or_introl eq_refl))
    as (_ & Hscenes & Hheap).
  split; [exact Hscenes|].
  unfold ed'. rewrite Hheap. rewrite lookup_insert_eq. reflexivity.
Defined.

(** ** Spawning an entity, and undoing it *)

Section Spawning.
Context `{!Python}.

Lemma py_index_app_fresh (l : list nat) t :
  t ∉ l → py_index t (l ++ [t]) = Some (length l).
Proof.
  induction l as [|x l IH]; intros Ht; simpl.
  - by rewrite decide_True.
  - apply not_elem_of_cons in Ht as [Hne Ht].
    rewrite decide_False by done. by rewrite IH.
Qed.

Lemma py_remove_app_fresh (l : list nat) t :
  t ∉ l → py_remove t (l ++ [t]) = l.
Proof.
  induction l as [|x l IH]; intros Ht; simpl.
  - by rewrite decide_True.
  - apply not_elem_of_cons in Ht as [Hne Ht].
    rewrite decide_False by done. by rewrite IH.
Qed.

(** [spawn_entity] on the current scene, when the constructor returns. *)
Lemma spawn_in_scene_run (s : ctx) _class world_point o :
  _class (Spawner.spawn_kwargs (scene_parent (scene s)) world_point) = Some o →
  let t := next_ref s in
  let h := <[t := spawned o]> (heap s) in
  Spawner.spawn_in_scene _class world_point s =
    (Ok t, Ctx h (S t) (files s)
               (with_selection (filter (λ e, truthy h e = true) (selection (scene s)))
                  (with_entities (entities (scene s) ++ [t]) (scene s)))).
Proof.
  intros Hclass t h. unfold Spawner.spawn_in_scene.
  unfold bind at 1, gets. simpl. rewrite Hclass.
  unfold bind at 1. simpl. unfold bind at 1, alloc. simpl.
  unfold bind at 1, hasattr, bind at 1, gets. simpl.
  rewrite lookup_insert_eq. simpl. unfold h, spawned, t.
  destruct (bool_decide (is_Some (attrs o !! "collider_type"))) eqn:Hct;
    destruct (value_truthy (default VNone (attrs o !! "shader"))) eqn:Hsh;
    simpl; unfold bind, setattr, modify, render_selection, on_scene; simpl;
    rewrite ?alter_insert_eq; reflexivity.
Qed.

(** [drop_entity] on the scene in which the target was just spawned. *)
Lemma drop_in_scene_run (s : ctx) t o :
  heap s !! t = Some o →
  py_index t (entities (scene s)) = Some (length (entities (scene s)) - 1) →
  Spawner.drop_in_scene (Some t) s =
    (Ok None,
     on_scene (with_selection [t])
       (on_scene (λ sc, with_undo
          (py_slice_to (undo_data sc) (undo_index sc + 1) ++
             [delete_entities [length (entities (scene s)) - 1] [repr_entity o]])
          (undo_index sc + 1) sc) s)).
Proof.
  intros Ho Hindex. unfold Spawner.drop_in_scene, bind, gets, deref. simpl.
  rewrite Hindex. simpl. unfold bind, gets. simpl. rewrite Ho. done.
Qed.

(** The two calls, run. *)
Lemma spawn_then_drop_run
    (ed : LevelEditor) (x y : nat) (sc : LevelEditorScene)
    (_class : gmap string value → option obj) (world_point : option Vec3) (o : obj) :
  current_scene ed = Some (x, y) →
  cell (scenes ed) x y = Some sc →
  log_wf sc →
  ed_next_ref ed ∉ entities sc →
  _class (Spawner.spawn_kwargs (scene_parent sc) world_point) = Some o →
  let t := ed_next_ref ed in
  ∃ ed1 ed2 sc2,
    Spawner.spawn_entity None _class world_point ed = (Ok (Some t), ed1) ∧
    Spawner.drop_entity (Some t) ed1 = (Ok None, ed2) ∧
    ed_heap ed2 = <[t := spawned o]> (ed_heap ed) ∧
    current_scene ed2 = Some (x, y) ∧
    cell (scenes ed2) x y = Some sc2 ∧
    entities sc2 = entities sc ++ [t] ∧ selection sc2 = [t] ∧
    undo_data sc2 =
      take (Z.to_nat (undo_index sc + 1)) (undo_data sc) ++
      [delete_entities [length (entities sc)] [repr_entity (spawned o)]] ∧
    undo_index sc2 = (undo_index sc + 1)%Z.
Proof.
  intros Hcur Hc [Hlo Hhi] Hfresh Hclass t.
  pose proof (spawn_in_scene_run (focus ed sc) _class world_point o Hclass) as Hspawn.
  simpl in Hspawn. fold t in Hspawn.
  set (h := <[t := spawned o]> (ed_heap ed)) in *.
  set (s1 := Ctx h (S t) (ed_files ed) _) in Hspawn.
  assert (Hrun1 : Spawner.spawn_entity None _class world_point ed =
                  (Ok (Some t), put_cell x y ed s1)).
  { unfold Spawner.spawn_entity. unfold bind at 1, gets. simpl. rewrite Hcur.
    unfold bind. rewrite (at_cell_run x y _ ed sc Hc), Hspawn. done. }
  set (ed1 := put_cell x y ed s1) in *.
  assert (Hc1 : cell (scenes ed1) x y = Some (scene s1)).
  { unfold ed1, put_cell. simpl. apply cell_set_cell_eq. by eexists. }
  assert (Hdrop := drop_in_scene_run s1 t (spawned o)).
  simpl in Hdrop. rewrite length_app in Hdrop. simpl in Hdrop.
  replace (length (entities sc) + 1 - 1) with (length (entities sc)) in Hdrop by lia.
  specialize (Hdrop ltac:(unfold h; by rewrite lookup_insert_eq)
                    (py_index_app_fresh _ _ Hfresh)).
  assert (Hrun2 : Spawner.drop_entity (Some t) ed1 =
                  (Ok None, put_cell x y ed1 (Spawner.drop_in_scene (Some t) s1).2)).
  { unfold Spawner.drop_entity, try_except. unfold bind at 1, gets.
    change (current_scene ed1) with (current_scene ed). rewrite Hcur.
    rewrite (at_cell_run x y _ ed1 (scene s1) Hc1).
    replace (focus ed1 (scene s1)) with s1
      by (symmetry; apply focus_put_cell).
    rewrite Hdrop. done. }
  eexists _, _, _. split; [exact Hrun1|]. split; [exact Hrun2|].
  rewrite Hdrop. simpl.
  split; [done|]. split; [done|].
  split; [apply cell_set_cell_eq; by eexists|]. simpl.
  split; [done|]. split; [done|]. split; [|done].
  unfold py_slice_to. by rewrite decide_True by lia.
Qed.

(** Undoing the entry that records the creation of the last entity. *)
Lemma undo_last_creation (s : ctx) (l : list ref) t recipes :
  entities (scene s) = l ++ [t] → t ∉ l →
  selection (scene s) = [t] →
  (0 ≤ undo_index (scene s))%Z →
  py_getitem (undo_data (scene s)) (undo_index (scene s)) =
    Some (delete_entities [length l] recipes) →
  undo s = (Ok tt, exec undo s) ∧
  entities (scene (exec undo s)) = l ∧
  selection (scene (exec undo s)) = [] ∧
  undo_index (scene (exec undo s)) = (undo_index (scene s) - 1)%Z ∧
  undo_data (scene (exec undo s)) = undo_data (scene s) ∧
  truthy (heap (exec undo s)) t = false ∧
  (∀ r, r ≠ t → heap (exec undo s) !! r = heap s !! r).
Proof.
  intros Hent Hfresh Hsel Hguard Hentry.
  assert (Hids : Forall (λ id, id < length (entities (scene s))) [length l]).
  { apply Forall_cons. split; [|apply Forall_nil_2].
    rewrite Hent, length_app. simpl. lia. }
  assert (Hts : targets_of (entities (scene s)) [length l] = [t]).
  { unfold targets_of. simpl. rewrite Hent.
    rewrite lookup_app_r by lia. by rewrite Nat.sub_diag. }
  assert (Hwp : wp (remove_entities [length l])
            (λ _ s1,
               entities (scene s1) = l ∧
               (∀ e, e ∈ selection (scene s1) → e = t) ∧
               truthy (heap s1) t = false ∧
               (∀ r, r ≠ t → heap s1 !! r = heap s !! r) ∧
               same_log s s1)
            (λ _ _, False) s).
  { apply (wp_mono _ _ _ _ _ _ (wp_remove_entities s [length l] Hids)); [|done].
    rewrite Hts. intros _ s1 (H1 & H2 & H3 & H4 & H5).
    split; [rewrite H1, Hent; simpl; by apply py_remove_app_fresh|].
    split; [intros e He; apply H2 in He; rewrite Hsel in He;
            by apply list_elem_of_singleton in He|].
    split; [apply H3; by left|].
    split; [intros r Hr; apply H4; by intros ->%list_elem_of_singleton|].
    done. }
  destruct (run_ok _ _ _ Hwp) as ([] & s1 & Hrun & H1 & H2 & H3 & H4 & [H5 H6]).
  assert (Hundo := undo_unfold s _ Hguard Hentry).
  unfold after_apply, try_except in Hundo. simpl in Hundo.
  rewrite Hrun in Hundo. simpl in Hundo.
  unfold exec. rewrite Hundo. simpl.
  split; [done|]. split; [done|]. split.
  { apply elem_of_nil_inv. intros e He.
    apply list_elem_of_filter in He as [Htruthy He].
    apply H2 in He. subst e. by rewrite H3 in Htruthy. }
  split; [by rewrite H6|]. done.
Qed.

(** X16. Spawning an entity in the current scene and dropping it: the
    entity is allocated, completed with a collider type and a shader if
    it has none, and appended to the registry; dropping it selects it
    alone and records its creation under its index, the last one. *)
Theorem spawn_then_drop_registers_and_records
    (ed : LevelEditor) (x y : nat) (sc : LevelEditorScene)
    (_class : gmap string value → option obj) (world_point : option Vec3) (o : obj) :
  current_scene ed = Some (x, y) →
  cell (scenes ed) x y = Some sc →
  log_wf sc →
  ed_next_ref ed ∉ entities sc →
  _class (Spawner.spawn_kwargs (scene_parent sc) world_point) = Some o →
  let t := ed_next_ref ed in
  let ed1 := exec (Spawner.spawn_entity None _class world_point) ed in
  let ed2 := exec (Spawner.drop_entity (Some t)) ed1 in
  result (Spawner.spawn_entity None _class world_point) ed = Ok (Some t) ∧
  result (Spawner.drop_entity (Some t)) ed1 = Ok None ∧
  ed_heap ed2 = <[t := spawned o]> (ed_heap ed) ∧
  ∃ sc2, cell (scenes ed2) x y = Some sc2 ∧
    entities sc2 = entities sc ++ [t] ∧ selection sc2 = [t] ∧
    undo_data sc2 =
      take (Z.to_nat (undo_index sc + 1)) (undo_data sc) ++
      [delete_entities [length (entities sc)] [repr_entity (spawned o)]] ∧
    undo_index sc2 = (undo_index sc + 1)%Z.
Proof.
  intros Hcur Hc Hwf Hfresh Hclass t ed1 ed2.
  destruct (spawn_then_drop_run ed x y sc _class world_point o Hcur Hc Hwf Hfresh Hclass)
    as (e1 & e2 & sc2 & Hrun1 & Hrun2 & Hheap & _ & Hc2 & Hent & Hsel & Hd & Hi).
  subst t.
  assert (Hed1 : ed1 = e1) by (unfold ed1, exec; by rewrite Hrun1).
  clearbody ed1. subst ed1.
  assert (Hed2 : ed2 = e2) by (unfold ed2, exec; by rewrite Hrun2).
  clearbody ed2. subst ed2.
  split; [unfold result; by rewrite Hrun1|].
  split; [unfold result; by rewrite Hrun2|].
  split; [done|]. by exists sc2.
Qed.

(** X17. Spawning an entity, dropping it and undoing puts the scene
    back: the registry is the one before the spawn, nothing is
    selected, the cursor of the log is where it was, the spawned entity
    is destroyed and no other object has changed. *)
Theorem spawn_drop_undo_restores_the_registry
    (ed : LevelEditor) (x y : nat) (sc : LevelEditorScene)
    (_class : gmap string value → option obj) (world_point : option Vec3) (o : obj) :
  current_scene ed = Some (x, y) →
  cell (scenes ed) x y = Some sc →
  log_wf sc →
  ed_next_ref ed ∉ entities sc →
  _class (Spawner.spawn_kwargs (scene_parent sc) world_point) = Some o →
  let t := ed_next_ref ed in
  let ed1 := exec (Spawner.spawn_entity None _class world_point) ed in
  let ed2 := exec (Spawner.drop_entity (Some t)) ed1 in
  let ed3 := exec (at_cell x y undo) ed2 in
  result (at_cell x y undo) ed2 = Ok tt ∧
  truthy (ed_heap ed3) t = false ∧
  (∀ r, r ≠ t → ed_heap ed3 !! r = ed_heap ed !! r) ∧
  ∃ sc3, cell (scenes ed3) x y = Some sc3 ∧
    entities sc3 = entities sc ∧ selection sc3 = [] ∧
    undo_index sc3 = undo_index sc.
Proof.
  intros Hcur Hc Hwf Hfresh Hclass t ed1 ed2 ed3.
  destruct (spawn_then_drop_run ed x y sc _class world_point o Hcur Hc Hwf Hfresh Hclass)
    as (e1 & e2 & sc2 & Hrun1 & Hrun2 & Hheap & _ & Hc2 & Hent & Hsel & Hd & Hi).
  subst t.
  assert (Hed1 : ed1 = e1) by (unfold ed1, exec; by rewrite Hrun1).
  clearbody ed1. subst ed1.
  assert (Hed2 : ed2 = e2) by (unfold ed2, exec; by rewrite Hrun2).
  clearbody ed2. subst ed2.
  destruct Hwf as [Hlo Hhi].
  assert (Hentry : py_getitem (undo_data sc2) (undo_index sc2) =
            Some (delete_entities [length (entities sc)] [repr_entity (spawned o)])).
  { rewrite Hd, Hi. rewrite py_getitem_nonneg by lia.
    rewrite lookup_app_r; rewrite length_take; [|lia].
    replace (_ - _) with 0 by lia. done. }
  destruct (undo_last_creation (focus e2 sc2) (entities sc) (ed_next_ref ed)
              [repr_entity (spawned o)] Hent Hfresh Hsel)
    as (Hundo & H1 & H2 & H3 & _ & H5 & H6); [simpl; lia|exact Hentry|].
  assert (Hrun3 : at_cell x y undo e2 =
                  (Ok tt, put_cell x y e2 (exec undo (focus e2 sc2)))).
  { rewrite (at_cell_run x y _ e2 sc2 Hc2). by rewrite Hundo. }
  unfold ed3, result, exec at 1 2 3. rewrite Hrun3. simpl.
  split; [done|]. split; [done|].
  split; [intros r Hr; rewrite (H6 r Hr); simpl; rewrite Hheap;
          by rewrite lookup_insert_ne|].
  eexists. split; [apply cell_set_cell_eq; by eexists|].
  split; [done|]. split; [done|]. rewrite H3. simpl. lia.
Qed.

End Spawning.

(** A white cube is spawned into the scene (0, 0), which holds entity 1
    under the scene root 0. *)
Lemma spawn_then_drop_registers_and_records_witness :
  let sc := with_entities [1] (with_scene_parent (Some 0) (new_scene 0 0 (scene_name 0 0))) in
  let ed := Editor (<[0 := Entity ∅]> {[1 := Sample.entity "Entity"]}) 2 ∅
                   (set_cell 0 0 sc (scenes init_editor)) (Some (0, 0)) in
  let cube := λ kwargs, Some (Obj "WhiteCube" kwargs false) in
  let ed1 := exec (Spawner.spawn_entity None cube None) ed in
  let ed2 := exec (@Spawner.drop_entity Sample.python (Some 2)) ed1 in
  log_wf sc ∧ (2 ∉ entities sc) ∧
  (entities <$> cell (scenes ed2) 0 0) = Some [1; 2] ∧
  (selection <$> cell (scenes ed2) 0 0) = Some [2] ∧
  (undo_data <$> cell (scenes ed2) 0 0) = Some [delete_entities [1] ["WhiteCube"]].
Proof.
  intros sc ed cube ed1 ed2.
  assert (Hwf : log_wf sc) by (unfold log_wf; simpl; lia).
  assert (Hfresh : 2 ∉ entities sc) by (simpl; set_solver).
  destruct (@spawn_then_drop_registers_and_records Sample.python ed 0 0 sc cube None _
              eq_refl eq_refl Hwf Hfresh eq_refl)
    as (_ & _ & _ & sc2 & Hc2 & Hent & Hsel & Hd & _).
  assert (Hcell : cell (scenes ed2) 0 0 = Some sc2) by exact Hc2.
  split; [exact Hwf|]. split; [exact Hfresh|].
  rewrite Hcell. simpl. rewrite Hent, Hsel, Hd. done.
Defined.

(** The same spawn and drop, undone: entity 1 is alone again and the
    cube is destroyed. *)
Lemma spawn_drop_undo_restores_the_registry_witness :
  let sc := with_entities [1] (with_scene_parent (Some 0) (new_scene 0 0 (scene_name 0 0))) in
  let ed := Editor (<[0 := Entity ∅]> {[1 := Sample.entity "Entity"]}) 2 ∅
                   (set_cell 0 0 sc (scenes init_editor)) (Some (0, 0)) in
  let cube := λ kwargs, Some (Obj "WhiteCube" kwargs false) in
  let ed1 := exec (Spawner.spawn_entity None cube None) ed in
  let ed2 := exec (@Spawner.drop_entity Sample.python (Some 2)) ed1 in
  let ed3 := exec (at_cell 0 0 (@undo Sample.python)) ed2 in
  log_wf sc ∧ (2 ∉ entities sc) ∧
  (entities <$> cell (scenes ed3) 0 0) = Some [1] ∧
  truthy (ed_heap ed3) 2 = false ∧
  ed_heap ed3 !! 1 = Some (Sample.entity "Entity").
Proof.
  intros sc ed cube ed1 ed2 ed3.
  assert (Hwf : log_wf sc) by (unfold log_wf; simpl; lia).
  assert (Hfresh : 2 ∉ entities sc) by (simpl; set_solver).
  destruct (@spawn_drop_undo_restores_the_registry Sample.python ed 0 0 sc cube None _
              eq_refl eq_refl Hwf Hfresh eq_refl)
    as (_ & Hgone & Hrest & sc3 & Hc3 & Hent & _).
  assert (Hcell : cell (scenes ed3) 0 0 = Some sc3) by exact Hc3.
  assert (Hone : ed_heap ed3 !! 1 = ed_heap ed !! 1) by (apply (Hrest 1); simpl; lia).
  split; [exact Hwf|]. split; [exact Hfresh|].
  split; [rewrite Hcell; simpl; by rewrite Hent|].
  split; [exact Hgone|].
  rewrite Hone. reflexivity.
Defined.

(** ** Grouping *)

Section Grouping.
Context `{!Python}.
Variable mean_position : list value → option value.

Global Instance only_adds_preorder : PreOrder only_adds.
Proof.
  split.
  - intros s. split; [by split|done].
  - intros s1 s2 s3 [[Hd1 Hi1] Hp1] [[Hd2 Hi2] Hp2]. split; [split|].
    + by rewrite Hd2.
    + by rewrite Hi2.
    + by etrans.
Qed.

Lemma only_adds_heap (f : ctx → gmap ref obj) :
  steps only_adds (modify (λ s, with_heap (f s) s)).
Proof. step_with steps_modify. intros s. split; [by split|done]. Qed.

Lemma only_adds_selection (f : LevelEditorScene → list ref) :
  steps only_adds (modify (on_scene (λ sc, with_selection (f sc) sc))).
Proof. step_with steps_modify. intros s. split; [by split|done]. Qed.

Lemma only_adds_append e :
  steps only_adds (modify (on_scene (λ sc, with_entities (entities sc ++ [e]) sc))).
Proof.
  step_with steps_modify. intros s. split; [by split|]. simpl.
  by apply prefix_app_r.
Qed.

Lemma only_adds_alloc o : steps only_adds (alloc o).
Proof. intros s. split; [by split|done]. Qed.

(** X18. Grouping is never recorded and removes nothing: whatever the
    key and the selection, and even when the call fails half-way,
    [Grouper.input] ends normally, leaves the log and its cursor
    untouched, and the former registry is a prefix of the new one.
    There is therefore nothing [undo] could take back. *)
Theorem grouping_is_never_recorded (s : ctx) (control : bool) (key : string) :
  let s' := exec (Grouper.input mean_position control key) s in
  result (Grouper.input mean_position control key) s = Ok tt ∧
  undo_data (scene s') = undo_data (scene s) ∧
  undo_index (scene s') = undo_index (scene s) ∧
  entities (scene s) `prefix_of` entities (scene s').
Proof.
  intros s'.
  split; [apply try_except_swallow|].
  assert (Hsteps : steps only_adds (Grouper.input mean_position control key)).
  { unfold Grouper.input, set_world_parent, setattr, get_parent, getattr,
      render_selection.
    steps_tac;
      first [ apply only_adds_alloc | apply only_adds_append
            | apply only_adds_heap
            | apply (only_adds_selection (λ _, _))
            | step_with steps_modify; intros ?; split; [by split|done] ]. }
  destruct (Hsteps s) as [[Hd Hi] Hp]. done.
Qed.

Lemma omap_ext_in {A B} (f g : A → option B) (l : list A) :
  (∀ x, x ∈ l → f x = g x) → omap f l = omap g l.
Proof.
  intros Hfg. apply list_omap_ext.
  induction l as [|x l IH]; [constructor|].
  constructor; [apply Hfg; by left|]. apply IH. intros x' Hx'. apply Hfg. by right.
Qed.

Lemma read_parents (s : ctx) (sel : list ref) :
  (∀ e, e ∈ sel → is_Some (heap s !! e)) →
  map_m get_parent sel s =
    (Ok ((λ e, default VNone (parent_of s e)) <$> sel), s).
Proof.
  intros Hheap. apply map_m_read. intros e He.
  destruct (Hheap e He) as [o Ho].
  unfold get_parent, bind, gets, parent_of. simpl. rewrite Ho. done.
Qed.

Lemma read_world_positions (s : ctx) (sel : list ref) :
  (∀ e, e ∈ sel → is_Some (heap s !! e ≫= λ o, attrs o !! "world_position")) →
  map_m (λ e, getattr e "world_position") sel s =
    (Ok (omap (λ e, heap s !! e ≫= λ o, attrs o !! "world_position") sel), s).
Proof.
  intros Hpos. induction sel as [|e sel IH]; [done|].
  destruct (Hpos e) as [p Hp]; [by left|].
  cbn [map_m].
  rewrite (bind_ok _ _ s s p) by (unfold getattr, bind, gets; simpl; by rewrite Hp).
  rewrite (bind_ok _ _ s s _ (IH ltac:(intros e' He'; apply Hpos; by right))).
  simpl. by rewrite Hp.
Qed.

(** X19. Control+g on a selection whose entities all have a world
    position, which the engine can average: a new entity named
    [[group]] is allocated and appended to the registry, placed at the
    average position; every selected entity is reparented to it; the
    group alone is selected. *)
Theorem grouping_reparents_the_selection (s : ctx) (position : value) :
  heap_fresh s →
  selection (scene s) ≠ [] →
  (∀ e, e ∈ selection (scene s) →
        is_Some (heap s !! e ≫= λ o, attrs o !! "world_position")) →
  mean_position (world_positions s) = Some position →
  let group_entity := next_ref s in
  let s' := exec (Grouper.input mean_position true "g") s in
  entities (scene s') = entities (scene s) ++ [group_entity] ∧
  selection (scene s') = [group_entity] ∧
  (∀ e, e ∈ selection (scene s) →
        ∃ o', heap s' !! e = Some o' ∧ attrs o' !! "parent" = Some (VRef group_entity)) ∧
  (∃ g, heap s' !! group_entity = Some g ∧ cls g = "Entity" ∧ destroyed g = false ∧
        attrs g !! "name" = Some (VStr "[group]") ∧
        attrs g !! "world_position" = Some position).
Proof.
  intros Hfresh Hne Hpos Hmean g s'.
  assert (Hgdef : next_ref s = g) by done. clearbody g.
  assert (Hheap : ∀ e, e ∈ selection (scene s) → is_Some (heap s !! e)).
  { intros e He. destruct (Hpos e He) as [p Hp].
    destruct (heap s !! e); [by eexists|done]. }
  assert (Hg : g ∉ selection (scene s)).
  { intros Hin. apply Hheap, Hfresh in Hin. lia. }
  apply (wp_final (Grouper.input mean_position true "g")
    (λ s', entities (scene s') = entities (scene s) ++ [g] ∧
           selection (scene s') = [g] ∧
           (∀ e, e ∈ selection (scene s) →
                 ∃ o', heap s' !! e = Some o' ∧ attrs o' !! "parent" = Some (VRef g)) ∧
           (∃ og, heap s' !! g = Some og ∧ cls og = "Entity" ∧ destroyed og = false ∧
                  attrs og !! "name" = Some (VStr "[group]") ∧
                  attrs og !! "world_position" = Some position))).
  unfold Grouper.input. apply wp_try_except.
  apply wp_mono with (Q := λ _ s', entities (scene s') = entities (scene s) ++ [g] ∧
           selection (scene s') = [g] ∧
           (∀ e, e ∈ selection (scene s) →
                 ∃ o', heap s' !! e = Some o' ∧ attrs o' !! "parent" = Some (VRef g)) ∧
           (∃ og, heap s' !! g = Some og ∧ cls og = "Entity" ∧ destroyed og = false ∧
                  attrs og !! "name" = Some (VStr "[group]") ∧
                  attrs og !! "world_position" = Some position))
         (E := λ _ _, False); [|done|done].
  do 2 wp_step.
  rewrite (bool_decide_eq_true_2 ("g" = "g")) by done.
  rewrite (bool_decide_eq_false_2 (selection (scene s) = [])) by done. simpl.
  do 3 wp_step. apply wp_alloc. rewrite !Hgdef. do 3 wp_step.
  set (group := Entity _).
  set (s1 := on_scene _ _).
  assert (Hh1 : heap s1 = <[g := group]> (heap s)) by done.
  assert (Hother1 : ∀ e, e ∈ selection (scene s) → heap s1 !! e = heap s !! e).
  { intros e He. rewrite Hh1, lookup_insert_ne; [done|]. by intros ->. }
  eapply wp_known_ok.
  { apply read_parents. intros e He. rewrite Hother1 by done. by apply Hheap. }
  wp_step.
  (* the group after its parent was set, or not *)
  apply wp_mono with
    (Q := λ _ s2, scene s2 = scene s1 ∧
            (∀ e, e ∈ selection (scene s) → heap s2 !! e = heap s !! e) ∧
            ∃ og, heap s2 !! g = Some og ∧ cls og = "Entity" ∧ destroyed og = false ∧
                  attrs og !! "name" = Some (VStr "[group]"))
    (E := λ _ _, False); [| |done].
  { assert (Hbase : scene s1 = scene s1 ∧
              (∀ e, e ∈ selection (scene s) → heap s1 !! e = heap s !! e) ∧
              ∃ og, heap s1 !! g = Some og ∧ cls og = "Entity" ∧ destroyed og = false ∧
                    attrs og !! "name" = Some (VStr "[group]")).
    { split; [done|]. split; [done|]. exists group.
      rewrite Hh1, lookup_insert_eq. done. }
    destruct (remove_dups _) as [|p [|p' ps]]; [by wp_step| |by wp_step].
    unfold set_world_parent. wp_step. simpl.
    split; [done|]. split.
    - intros e He. rewrite lookup_alter_ne by (intros Heq; by subst e). by apply Hother1.
    - exists (with_attr "parent" p group). rewrite lookup_alter_eq.
      rewrite ?Hh1. rewrite lookup_insert_eq. done. }
  cbn beta. intros _ s2 (Hsc2 & Hother2 & og & Hog & Hcls & Hdes & Hname). wp_step.
  eapply wp_known_ok.
  { apply read_world_positions. intros e He. rewrite Hother2 by done. by apply Hpos. }
  assert (Hsame : omap (λ e, heap s2 !! e ≫= λ o, attrs o !! "world_position")
                       (selection (scene s)) = world_positions s).
  { unfold world_positions. apply omap_ext_in. intros e He.
    by rewrite Hother2. }
  rewrite Hsame, Hmean. do 4 wp_step.
  set (s3 := with_heap _ s2). wp_step.
  apply (wp_for_each_prefix (λ pre s4,
           scene s4 = scene s1 ∧
           (∀ e, e ∈ selection (scene s) → is_Some (heap s4 !! e)) ∧
           (∀ e, e ∈ pre →
                 ∃ o', heap s4 !! e = Some o' ∧ attrs o' !! "parent" = Some (VRef g)) ∧
           heap s4 !! g = Some (with_attr "world_position" position og))).
  { split; [done|]. split; [|split].
    - intros e He. unfold s3. simpl.
      rewrite lookup_alter_ne by (intros Heq; by subst e). rewrite Hother2 by done.
      by apply Hheap.
    - intros e He. by apply elem_of_nil in He.
    - unfold s3. simpl. by rewrite lookup_alter_eq, Hog. }
  { intros pre e s4 He (G1 & G2 & G3 & G4). unfold set_world_parent. wp_step. simpl.
    assert (Heg : e ≠ g) by (intros Heq; by subst e).
    split; [done|]. split; [|split].
    - intros e' He'. destruct (decide (e' = e)) as [->|Hne'].
      + rewrite lookup_alter_eq. destruct (G2 e He') as [o' ->]. by eexists.
      + rewrite lookup_alter_ne by done. by apply G2.
    - intros e' He'. destruct (decide (e' = e)) as [->|Hne'].
      + rewrite lookup_alter_eq. destruct (G2 e He) as [o' ->].
        eexists. split; [done|]. simpl. by rewrite lookup_insert_eq.
      + rewrite lookup_alter_ne by done. apply G3.
        apply elem_of_app in He' as [He'|He']; [done|].
        by apply list_elem_of_singleton in He'.
    - by rewrite lookup_alter_ne. }
  intros s4 (G1 & G2 & G3 & G4). do 3 wp_step. simpl. rewrite G1.
  split; [done|]. split; [|split; [done|]].
  - rewrite filter_cons_True; [done|]. unfold truthy. rewrite G4. simpl.
    by rewrite Hdes.
  - eexists. split; [exact G4|]. simpl.
    split; [done|]. split; [done|].
    rewrite lookup_insert_ne by done. split; [done|]. by rewrite lookup_insert_eq.
Qed.

End Grouping.

(** Two entities at x = 0 and x = 2 are grouped at their middle. *)
Lemma grouping_reparents_the_selection_witness :
  let at_x := λ q : Q, Obj "WhiteCube" {["world_position" := VVec (q, 0, 0)%Q]} false in
  let middle := λ ps : list value,
    match ps with
    | [VVec (a, _, _); VVec (b, _, _)] => Some (VVec ((a + b) / 2, 0, 0)%Q)
    | _ => None
    end in
  let s := Ctx (<[1 := at_x 0%Q]> {[2 := at_x 2%Q]}) 3 ∅
               (with_selection [1; 2] (Sample.scene_of [1; 2])) in
  let s' := exec (Grouper.input middle true "g") s in
  heap_fresh s ∧ selection (scene s) ≠ [] ∧
  entities (scene s') = [1; 2; 3] ∧ selection (scene s') = [3] ∧
  (∃ o', heap s' !! 1 = Some o' ∧ attrs o' !! "parent" = Some (VRef 3)).
Proof.
  intros at_x middle s s'.
  assert (Hfresh : heap_fresh s).
  { intros r [o Ho]. simpl in *.
    destruct (decide (r = 1)) as [->|H1]; [lia|].
    destruct (decide (r = 2)) as [->|H2]; [lia|].
    rewrite lookup_insert_ne, lookup_singleton_ne in Ho by done. done. }
  assert (Hne : selection (scene s) ≠ []) by (simpl; discriminate).
  assert (Hpos : ∀ e, e ∈ selection (scene s) →
            is_Some (heap s !! e ≫= λ o, attrs o !! "world_position")).
  { intros e He. simpl in He.
    apply elem_of_cons in He as [->|He]; [by eexists|].
    apply list_elem_of_singleton in He as ->. by eexists. }
  destruct (grouping_reparents_the_selection middle s (VVec ((0 + 2) / 2, 0, 0)%Q)
              Hfresh Hne Hpos eq_refl) as (Hent & Hsel & Hparents & _).
  split; [exact Hfresh|]. split; [exact Hne|].
  split; [exact Hent|]. split; [exact Hsel|].
  apply Hparents. simpl. set_solver.
Defined.

(** ** Selecting with the mouse *)

Section Selecting.
Context `{!Python}.

Lemma wp_seq {S A B} (m : py S A) (k : A → py S B) (I : S → Prop) Q E (s : S) :
  wp m (λ _, I) E s → (∀ a s', I s' → wp (k a) Q E s') → wp (bind m k) Q E s.
Proof.
  intros Hm Hk. apply wp_bind. eapply wp_mono; [exact Hm| |done].
  intros a s' Hs'. by apply Hk.
Qed.



(** X21. A plain click, with no modifier held and the mouse over no
    interface element, selects exactly the clicked entity when it is
    registered and alive, and clears the selection when nothing is
    under the mouse. *)
Theorem plain_click_selects_the_clicked_entity (s : ctx) (e : ref) (control : bool) :
  e ∈ entities (scene s) → truthy (heap s) e = true →
  selection (scene (exec (Selector.input "left mouse down" false (Some e)
                                         false false control) s)) = [e] ∧
  selection (scene (exec (Selector.input "left mouse down" false None
                                         false false control) s)) = [].
Proof.
  intros Hin Htruthy. split.
  - unfold exec, Selector.input, try_except, bind, gets, modify, render_selection.
    simpl. rewrite (bool_decide_eq_true_2 _ Hin). simpl.
    rewrite Htruthy. simpl. rewrite filter_cons_True by done. done.
  - unfold exec, Selector.input, try_except, bind, gets, modify, render_selection.
    simpl. done.
Qed.

End Selecting.


(** Clicking entity 2 while entity 1 is selected. *)
Lemma plain_click_selects_the_clicked_entity_witness :
  let s := Ctx (<[1 := Sample.entity "Entity"]> {[2 := Sample.entity "WhiteCube"]})
               3 ∅ (with_selection [1] (Sample.scene_of [1; 2])) in
  2 ∈ entities (scene s) ∧ truthy (heap s) 2 = true ∧
  selection (scene (exec (Selector.input "left mouse down" false (Some 2)
                                         false false false) s)) = [2].
Proof.
  intros s.
  assert (Hin : 2 ∈ entities (scene s)) by (simpl; set_solver).
  assert (Htruthy : truthy (heap s) 2 = true) by reflexivity.
  destruct (plain_click_selects_the_clicked_entity s 2 false Hin Htruthy) as [Hsel _].
  split; [exact Hin|]. split; [exact Htruthy | exact Hsel].
Defined.

(** ** Selecting in the hierarchy list *)

Section Hierarchy.
Context `{!Python}.

Lemma py_getitem_elem_of {A} (l : list A) i x : py_getitem l i = Some x → x ∈ l.
Proof.
  unfold py_getitem. intros Hx.
  destruct (decide _); [by eapply list_elem_of_lookup_2|].
  destruct (decide _); [by eapply list_elem_of_lookup_2|done].
Qed.

(** Reading the entity of a row: a registered entity, or an index
    error; the state is not touched. *)
Lemma wp_entity_of_row entity_indices row (s : ctx) (Q : ref → ctx → Prop) E :
  (∀ e, e ∈ entities (scene s) → Q e s) → E IndexError s →
  wp (HierarchyList.entity_of_row entity_indices row) Q E s.
Proof.
  intros HQ HE. unfold HierarchyList.entity_of_row. wp_step.
  apply wp_of_option; [|done]. intros index _. do 2 wp_step.
  apply wp_of_option; [|done]. intros e He. apply HQ.
  by eapply py_getitem_elem_of.
Qed.

(** The [try] block of [input]: it ends normally, an index error
    being caught, and it only ever selects registered entities. *)
Lemma wp_hierarchy_try (P : ctx → Prop) (s : ctx)
    entity_indices prev_y y control shift m :
  m = (l <- gets (λ s : ctx, entities (scene s)) ;;
       if bool_decide (y < Z.of_nat (length l))%Z then
         if negb control && negb shift then
           e <- HierarchyList.entity_of_row entity_indices y ;;
           modify (on_scene (with_selection [e]))
         else if control && negb shift then
           e <- HierarchyList.entity_of_row entity_indices y ;;
           modify (on_scene (λ sc, with_selection (selection sc ++ [e]) sc))
         else
           match prev_y with
           | Some prev =>
               if shift && negb (bool_decide (prev = 0%Z)) then
                 let from_y := Z.min prev y in
                 let to_y := Z.max prev y in
                 for_each (seqZ from_y (to_y + 1 - from_y)) (λ row,
                   e <- HierarchyList.entity_of_row entity_indices row ;;
                   modify (on_scene (λ sc, with_selection (selection sc ++ [e]) sc)))
               else ret tt
           | None => ret tt
           end
       else ret tt) →
  (∀ s e, P s → e ∈ entities (scene s) → P (on_scene (with_selection [e]) s)) →
  (∀ s e, P s → e ∈ entities (scene s) →
          P (on_scene (λ sc, with_selection (selection sc ++ [e]) sc) s)) →
  P s →
  wp (try_except_index_error m (ret tt)) (λ _, P) (λ _ _, False) s.
Proof.
  intros -> Hone Hadd Hs. unfold try_except_index_error. apply wp_try_except.
  apply wp_mono with (Q := λ _, P) (E := λ e s', e = IndexError ∧ P s').
  2:{ done. }
  2:{ intros e s' [-> Hs']. by wp_step. }
  assert (Happend : ∀ row s1, P s1 →
            wp (e <- HierarchyList.entity_of_row entity_indices row ;;
                modify (on_scene (λ sc, with_selection (selection sc ++ [e]) sc)))
               (λ _, P) (λ e s', e = IndexError ∧ P s') s1).
  { intros row s1 Hs1. wp_step. apply wp_entity_of_row; [|done].
    intros e He. wp_step. by apply Hadd. }
  do 2 wp_step. destruct (bool_decide _); [|by wp_step].
  destruct (negb control && negb shift).
  { wp_step. apply wp_entity_of_row; [|done].
    intros e He. wp_step. by apply Hone. }
  destruct (control && negb shift); [by apply Happend|].
  destruct prev_y as [prev|]; [|by wp_step].
  destruct (shift && _); [|by wp_step]. cbv zeta.
  apply (wp_for_each P); [done| |done].
  intros row s1 _ Hs1. by apply Happend.
Qed.

(** X22. A plain click in the hierarchy list deselects everything:
    with neither control nor shift held, the clicked row is selected
    and the selection is cleared right after, so whichever row is
    clicked the selection ends empty.  The row is remembered. *)
Theorem plain_click_in_the_hierarchy_clears_the_selection
    (s : ctx) (y : Z) (entity_indices : list Z) (prev_y : option Z) :
  let m := HierarchyList.input "left mouse down" true y entity_indices prev_y
                               false false in
  result m s = Ok (Some y) ∧ selection (scene (exec m s)) = [].
Proof.
  intros m.
  assert (Hwp : wp m (λ r s', r = Some y ∧ selection (scene s') = [])
                   (λ _ _, False) s).
  { unfold m, HierarchyList.input.
    rewrite (bool_decide_eq_true_2 ("left mouse down" = "left mouse down")) by done.
    rewrite (bool_decide_eq_false_2 ("left mouse down" = "left mouse up")) by done.
    cbn [andb negb]. wp_step.
    apply (wp_seq _ _ (λ _, True)).
    { eapply (wp_hierarchy_try (λ _, True) s entity_indices prev_y y false false);
        [reflexivity|done..]. }
    intros _ s1 _. repeat wp_step. done. }
  destruct (run_ok _ _ _ Hwp) as (r & s1 & Hrun & -> & Hsel).
  unfold result, exec. by rewrite Hrun.
Qed.

(** X23. A click in the hierarchy list never raises and touches
    nothing but the selection, in which it puts registered entities
    only: a selection inside the registry stays inside it, whatever the
    row, the remembered row, the row indices and the keys held.  (It
    appends without looking: control-click on a selected row lists the
    entity twice.) *)
Theorem hierarchy_clicks_select_registered_entities
    (s : ctx) (key : string) (bg_hovered : bool) (y : Z)
    (entity_indices : list Z) (prev_y : option Z) (control shift : bool) :
  selection_in_registry (scene s) →
  let m := HierarchyList.input key bg_hovered y entity_indices prev_y control shift in
  (∃ r, result m s = Ok r) ∧
  heap (exec m s) = heap s ∧
  entities (scene (exec m s)) = entities (scene s) ∧
  same_log s (exec m s) ∧
  selection_in_registry (scene (exec m s)).
Proof.
  intros Hreg m.
  assert (H0 : selects_registered s s).
  { split; [done|]. split; [done|]. split; [by split|]. done. }
  assert (Hrender : ∀ s1 Q, selects_registered s s1 →
            (∀ s2, selects_registered s s2 → Q tt s2) →
            wp render_selection Q (λ _ _, False) s1).
  { intros s1 Q (H1 & H2 & H3 & H4) HQ. wp_step. apply HQ.
    split; [done|]. split; [done|]. split; [done|]. simpl.
    intros e Hin. apply list_elem_of_filter in Hin as [_ Hin]. by apply H4. }
  assert (Hwp : wp m (λ _, selects_registered s) (λ _ _, False) s).
  { unfold m, HierarchyList.input.
    apply (wp_seq _ _ (selects_registered s)).
    { destruct (bool_decide (key = "left mouse down") && bg_hovered); [|by wp_step].
      apply (wp_seq _ _ (selects_registered s)).
      { eapply (wp_hierarchy_try (selects_registered s) s entity_indices prev_y y
                  control shift); [reflexivity| | |done].
        - intros s1 e (H1 & H2 & H3 & H4) He.
          split; [done|]. split; [done|]. split; [done|]. simpl.
          intros x Hx. apply list_elem_of_singleton in Hx. by subst.
        - intros s1 e (H1 & H2 & H3 & H4) He.
          split; [done|]. split; [done|]. split; [done|]. simpl.
          intros x Hx. apply elem_of_app in Hx as [Hx|Hx]; [by apply H4|].
          apply list_elem_of_singleton in Hx. by subst. }
      intros _ s1 Hs1.
      apply (wp_seq _ _ (selects_registered s)).
      { destruct (negb control && negb shift); wp_step; [|done].
        destruct Hs1 as (H1 & H2 & H3 & H4).
        split; [done|]. split; [done|]. split; [done|]. simpl.
        intros x Hx. by apply elem_of_nil in Hx. }
      intros _ s2 Hs2. wp_step. apply (Hrender s2); [done|].
      intros s3 Hs3. by wp_step. }
    intros prev' s1 Hs1.
    apply (wp_seq _ _ (selects_registered s)).
    { destruct (bool_decide (key = "left mouse up")); [|by wp_step].
      by apply (Hrender s1). }
    intros _ s2 Hs2. by wp_step. }
  destruct (run_ok _ _ _ Hwp) as (r & s1 & Hrun & H1 & H2 & H3 & H4).
  unfold result, exec. rewrite Hrun. simpl.
  split; [by exists r|]. done.
Qed.

End Hierarchy.

(** Control-click on the row of entity 1, which is selected already. *)
Lemma hierarchy_clicks_select_registered_entities_witness :
  let s := Ctx {[1 := Sample.entity "Entity"]} 2 ∅
               (with_selection [1] (Sample.scene_of [1])) in
  let m := HierarchyList.input "left mouse down" true 0 [0%Z] None true false in
  selection_in_registry (scene s) ∧
  selection (scene (exec m s)) = [1; 1] ∧
  selection_in_registry (scene (exec m s)).
Proof.
  intros s m.
  assert (Hreg : selection_in_registry (scene s)).
  { intros e He. simpl in *. done. }
  destruct (hierarchy_clicks_select_registered_entities s "left mouse down" true 0
              [0%Z] None true false Hreg) as (_ & _ & _ & _ & Hreg').
  split; [exact Hreg|]. split; [reflexivity | exact Hreg'].
Defined.

(** ** The menu handler *)

Section Menus.

Lemma foldl_enable_lookup (value : string) (keys : list string)
    (en : gmap string bool) (k : string) :
  foldl (λ en key, <[key := bool_decide (key = value)]> en) en keys !! k =
    if decide (k ∈ keys) then Some (bool_decide (k = value)) else en !! k.
Proof.
  revert en. induction keys as [|key keys IH]; intros en.
  - destruct (decide (k ∈ [])) as [Hin|_]; [by apply elem_of_nil in Hin|done].
  - cbn [foldl]. rewrite IH. destruct (decide (k ∈ keys)) as [Hin|Hout].
    + destruct (decide (k ∈ key :: keys)) as [_|Hno]; [done|].
      exfalso. apply Hno. by right.
    + destruct (decide (k = key)) as [->|Hne].
      * destruct (decide (key ∈ key :: keys)) as [_|Hno];
          [by rewrite lookup_insert_eq|exfalso; apply Hno; by left].
      * destruct (decide (k ∈ key :: keys)) as [[?|?]%elem_of_cons|_]; [done..|].
        by rewrite lookup_insert_ne.
Qed.

Lemma one_menu_set_state value self :
  one_menu self → one_menu (MenuHandler.set_state value self).
Proof.
  intros [Hdom Hone]. unfold MenuHandler.set_state.
  destruct (bool_decide (value ∈ MenuHandler.states)) eqn:Hv; [|done].
  apply bool_decide_eq_true_1 in Hv.
  destruct (bool_decide (MenuHandler._state self = Some value)) eqn:Hcur.
  - apply bool_decide_eq_true_1 in Hcur. split; cbn [MenuHandler.enabled MenuHandler._state].
    + intros k [b Hk]. destruct (decide (k = value)) as [->|Hne]; [done|].
      rewrite lookup_alter_ne in Hk by done. apply Hdom. by exists b.
    + intros k Hk. destruct (decide (k = value)) as [->|Hne]; [done|].
      rewrite lookup_alter_ne in Hk by done. by apply Hone.
  - split; cbn [MenuHandler.enabled MenuHandler._state].
    + intros k [b Hk]. rewrite foldl_enable_lookup in Hk.
      destruct (decide (k ∈ MenuHandler.states)); [done|]. apply Hdom. by exists b.
    + intros k Hk. rewrite foldl_enable_lookup in Hk.
      destruct (decide (k ∈ MenuHandler.states)) as [Hin|Hout].
      * inversion Hk as [Hb]. apply bool_decide_eq_true_1 in Hb. by subst.
      * exfalso. apply Hout, Hdom. by eexists.
Qed.

(** X24. Only one menu is shown at a time: if no entity other than the
    one of the current state is enabled, this is still so after the
    state is set to any value, valid or not, and after any input.
    Switching to another valid state enables its entity and disables
    the entity of every other state. *)
Theorem one_menu_at_a_time
    (self : MenuHandler.t) (value key : string) (control shift alt : bool)
    (selection : list ref) :
  one_menu self →
  one_menu (MenuHandler.set_state value self) ∧
  one_menu (MenuHandler.input key control shift alt selection self) ∧
  (value ∈ MenuHandler.states → MenuHandler._state self ≠ Some value →
   let self' := MenuHandler.set_state value self in
   MenuHandler._state self' = Some value ∧
   MenuHandler.enabled self' !! value = Some true ∧
   ∀ k, k ∈ MenuHandler.states → k ≠ value →
        MenuHandler.enabled self' !! k = Some false).
Proof.
  intros Hone. split; [by apply one_menu_set_state|]. split.
  - unfold MenuHandler.input.
    destruct (_ && _); [by apply one_menu_set_state|].
    destruct (negb _); [done|].
    destruct (_ && _); [|done].
    destruct (_ !! key); [by apply one_menu_set_state|done].
  - intros Hv Hcur self'. unfold self', MenuHandler.set_state.
    rewrite (bool_decide_eq_true_2 _ Hv), (bool_decide_eq_false_2 _ Hcur).
    cbn [MenuHandler.enabled MenuHandler._state].
    split; [done|]. split.
    + rewrite foldl_enable_lookup, decide_True by done.
      by rewrite bool_decide_eq_true_2.
    + intros k Hk Hne. rewrite foldl_enable_lookup, decide_True by done.
      by rewrite bool_decide_eq_false_2.
Qed.

(** X25. The keys m, v, n and b open the model, texture, shader and
    colour menus only from the state ['None'], with no modifier held
    and something selected.  With an empty selection the key does
    nothing; and in the handler's initial state, which is [None] and
    not ['None'], every key but escape is ignored, until escape has set
    the state to ['None']. *)
Theorem keybinds_open_menus_from_the_closed_state
    (self : MenuHandler.t) (key menu : string) (control shift alt : bool)
    (selection : list ref) :
  (key, menu) ∈ [("m", "model_menu"); ("v", "texture_menu");
                 ("n", "shader_menu"); ("b", "color_menu")] →
  (MenuHandler._state self = Some "None" → selection ≠ [] →
   MenuHandler.input key false false false selection self =
     MenuHandler.set_state menu self ∧
   MenuHandler._state (MenuHandler.input key false false false selection self) =
     Some menu) ∧
  (MenuHandler.input key control shift alt [] self = self) ∧
  (MenuHandler._state self = None →
   MenuHandler.input key control shift alt selection self = self ∧
   MenuHandler._state (MenuHandler.input "escape" control shift alt selection self) =
     Some "None").
Proof.
  intros Hkey.
  assert (Hbind : list_to_map (M := gmap string string) MenuHandler.keybinds !! key =
                  Some menu ∧ key ≠ "escape" ∧ menu ∈ MenuHandler.states ∧
                  menu ≠ "None").
  { repeat (apply elem_of_cons in Hkey as [Hkey|Hkey];
            [inversion Hkey; subst; split; [reflexivity|];
             split; [discriminate|]; split; [set_solver|discriminate]|]).
    by apply elem_of_nil in Hkey. }
  destruct Hbind as (Hlookup & Hesc & Hstate & Hnone).
  split; [|split].
  - intros Hclosed Hsel.
    assert (Hrun : MenuHandler.input key false false false selection self =
                   MenuHandler.set_state menu self).
    { unfold MenuHandler.input.
      rewrite (bool_decide_eq_false_2 (key = "escape")) by done.
      rewrite (bool_decide_eq_true_2 _ Hclosed).
      rewrite (bool_decide_eq_false_2 (selection = [])) by done.
      cbn [negb andb]. by rewrite Hlookup. }
    split; [done|]. rewrite Hrun. unfold MenuHandler.set_state.
    rewrite (bool_decide_eq_true_2 _ Hstate).
    rewrite bool_decide_eq_false_2; [done|].
    rewrite Hclosed. intros Heq. inversion Heq. by subst.
  - unfold MenuHandler.input.
    rewrite (bool_decide_eq_false_2 (key = "escape")) by done. cbn [andb].
    destruct (negb _); [done|].
    rewrite (bool_decide_eq_true_2 ([] = [])) by done.
    by rewrite !andb_false_r.
  - intros Hinit. split.
    + unfold MenuHandler.input.
      rewrite (bool_decide_eq_false_2 (key = "escape")) by done. cbn [andb].
      rewrite bool_decide_eq_false_2 by (rewrite Hinit; discriminate). done.
    + unfold MenuHandler.input.
      rewrite (bool_decide_eq_true_2 ("escape" = "escape")) by done.
      rewrite bool_decide_eq_false_2 by (rewrite Hinit; discriminate).
      cbn [andb negb]. unfold MenuHandler.set_state.
      rewrite bool_decide_eq_true_2 by (unfold MenuHandler.states; set_solver).
      rewrite bool_decide_eq_false_2 by (rewrite Hinit; discriminate). done.
Qed.

End Menus.

Lemma one_menu_at_a_time_witness :
  one_menu closed_menus ∧
  one_menu (MenuHandler.set_state "color_menu" closed_menus) ∧
  one_menu (MenuHandler.input "b" false false false [1] closed_menus).
Proof.
  assert (Hone : one_menu closed_menus).
  { split.
    - intros k [b Hk]. unfold closed_menus in Hk. cbn [MenuHandler.enabled] in Hk.
      apply elem_of_list_to_map_2 in Hk.
      unfold MenuHandler.states.
      repeat (apply elem_of_cons in Hk as [Hk|Hk];
              [inversion Hk; subst; set_solver|]).
      by apply elem_of_nil in Hk.
    - intros k Hk. unfold closed_menus in Hk. cbn [MenuHandler.enabled] in Hk.
      apply elem_of_list_to_map_2 in Hk.
      repeat (apply elem_of_cons in Hk as [Hk|Hk];
              [by inversion Hk; subst|]).
      by apply elem_of_nil in Hk. }
  split; [exact Hone|].
  pose proof (one_menu_at_a_time closed_menus "color_menu" "b" false false false
                [1] Hone) as (H1 & H2 & _).
  by split.
Defined.

Lemma keybinds_open_menus_from_the_closed_state_witness :
  MenuHandler._state
    (MenuHandler.input "m" false false false [1] closed_menus) = Some "model_menu" ∧
  MenuHandler.input "m" false false false [] closed_menus = closed_menus.
Proof.
  assert (Hkey : ("m", "model_menu") ∈
                 [("m", "model_menu"); ("v", "texture_menu");
                  ("n", "shader_menu"); ("b", "color_menu")]) by set_solver.
  pose proof (keybinds_open_menus_from_the_closed_state closed_menus "m" "model_menu"
                false false false [1] Hkey) as (H1 & H2 & _).
  split; [|exact H2].
  apply H1; [reflexivity|discriminate].
Defined.

(** ** Closing the colour menu *)

Section Colours.
Context `{!Python}.

Lemma map_m_length {S B C} (f : B → py S C) (l : list B) (s s' : S) cs :
  map_m f l s = (Ok cs, s') → length cs = length l.
Proof.
  revert s cs. induction l as [|x l IH]; intros s cs; simpl.
  - unfold ret. intros Heq. by inversion Heq.
  - unfold bind at 1. destruct (f x s) as [[c|e] s1]; [|done].
    unfold bind at 1. destruct (map_m f l s1) as [[cs'|e] s2] eqn:Hrest; [|done].
    unfold ret. intros Heq. inversion Heq; subst. simpl. f_equal. by eapply IH.
Qed.

Lemma read_getattr e k : steps eq (getattr e k).
Proof. intros s. unfold getattr, bind, gets. simpl. by destruct (_ ≫= _). Qed.

Lemma read_color_entries :
  steps eq
    (sel <- gets (λ s : ctx, selection (scene s)) ;;
     map_m (λ e, l <- gets (λ s, entities (scene s)) ;;
                 index <- of_option ValueError (py_index e l) ;;
                 original_color <- getattr e "original_color" ;;
                 color <- getattr e "color" ;;
                 ret (index, "color", original_color, color)) sel).
Proof.
  steps_tac; apply read_getattr.
Qed.

(** X26. Closing the colour menu never raises and returns the handler
    with its state set to ['None'].  Of the editor it changes the undo
    log at most: either nothing at all, or one entry is recorded that
    holds one change for each selected entity. *)
Theorem closing_the_colour_menu_touches_only_the_log
    (s : ctx) (menu_handler : MenuHandler.t) :
  result (ColorMenu.close menu_handler) s =
    Ok (MenuHandler.set_state "None" menu_handler) ∧
  (exec (ColorMenu.close menu_handler) s = s ∨
   ∃ changes, length changes = length (selection (scene s)) ∧
     exec (ColorMenu.close menu_handler) s =
       exec (record_undo (attribute_changes changes)) s).
Proof.
  pose proof (read_color_entries s) as Hread.
  unfold bind at 1 in Hread. unfold gets at 1 in Hread. cbn [fst snd] in Hread.
  destruct (map_m _ (selection (scene s)) s) as [[changes|e] s1] eqn:Hrun;
    cbn [snd] in Hread; subst s1.
  - assert (Hclose : ColorMenu.close menu_handler s =
                     (Ok (MenuHandler.set_state "None" menu_handler),
                      exec (record_undo (attribute_changes changes)) s)).
    { unfold ColorMenu.close.
      erewrite (bind_ok (try_except _ _)); [reflexivity|].
      unfold try_except.
      erewrite (bind_ok (gets _)) by reflexivity.
      erewrite (bind_ok (map_m _ _)) by exact Hrun.
      reflexivity. }
    unfold result, exec at 1 2. rewrite Hclose. cbn [fst snd].
    split; [done|]. right. exists changes.
    split; [by eapply map_m_length|done].
  - assert (Hclose : ColorMenu.close menu_handler s =
                     (Ok (MenuHandler.set_state "None" menu_handler), s)).
    { unfold ColorMenu.close.
      erewrite (bind_ok (try_except _ _)); [reflexivity|].
      unfold try_except.
      erewrite (bind_ok (gets _)) by reflexivity.
      erewrite (bind_raise (map_m _ _)) by exact Hrun.
      reflexivity. }
    unfold result, exec. rewrite Hclose. cbn [fst snd].
    split; [done|]. by left.
Qed.

Lemma py_index_lookup e (l : list ref) i : py_index e l = Some i → l !! i = Some e.
Proof.
  revert i. induction l as [|x l IH]; intros i; simpl; [done|].
  destruct (decide (e = x)) as [->|Hne].
  - intros Heq. by inversion Heq.
  - destruct (py_index e l) as [j|]; [|done]. simpl.
    intros Heq. inversion Heq. by apply IH.
Qed.

Lemma index_of_lookup e (l : list ref) : e ∈ l → l !! index_of l e = Some e.
Proof.
  intros Hin. destruct (py_index_Some e l Hin) as [i Hi].
  unfold index_of. rewrite Hi. by apply py_index_lookup.
Qed.

(** The entry [close] builds when every selected entity is registered
    and coloured. *)
Lemma close_records (s : ctx) (menu_handler : MenuHandler.t) :
  selection_in_registry (scene s) → selection_coloured s →
  exec (ColorMenu.close menu_handler) s =
    exec (record_undo (attribute_changes (color_change s <$> selection (scene s)))) s.
Proof.
  intros Hreg Hcol. unfold exec at 1, ColorMenu.close.
  erewrite (bind_ok (try_except _ _)); [reflexivity|].
  unfold try_except.
  erewrite (bind_ok (gets _)) by reflexivity.
  erewrite (bind_ok (map_m _ _)); [reflexivity|].
  apply map_m_read. intros e He.
  destruct (Hcol e He) as (o & Ho & [c0 Hc0] & [c Hc]).
  destruct (py_index_Some e _ (Hreg e He)) as [i Hi].
  erewrite (bind_ok (gets _)) by reflexivity.
  rewrite Hi. erewrite (bind_ok (of_option _ _)) by reflexivity.
  assert (Hget : ∀ k v, attrs o !! k = Some v → getattr e k s = (Ok v, s)).
  { intros k v Hk. unfold getattr, bind, gets, of_option. cbn [fst snd].
    rewrite Ho. simpl. by rewrite Hk. }
  erewrite (bind_ok (getattr _ _)) by (by apply Hget).
  erewrite (bind_ok (getattr _ _)) by (by apply Hget).
  unfold ret, color_change, index_of, attr_of. rewrite Hi, Ho. simpl.
  by rewrite Hc0, Hc.
Qed.

(** The entry just recorded is the one under the cursor. *)
Lemma recorded_entry (s : ctx) (r : undo_record) :
  log_wf (scene s) →
  let s1 := exec (record_undo r) s in
  (0 ≤ undo_index (scene s1))%Z ∧
  py_getitem (undo_data (scene s1)) (undo_index (scene s1)) = Some r.
Proof.
  intros [Hlo Hhi] s1. unfold s1, exec, record_undo, modify. cbn [fst snd].
  unfold on_scene. cbn [scene with_scene with_undo undo_index undo_data].
  split; [lia|]. unfold py_getitem, py_slice_to.
  rewrite !decide_True by lia.
  rewrite lookup_app_r; rewrite length_take; [|lia].
  replace (_ - _) with 0 by lia. done.
Qed.

Lemma changed_attrs_set l e pick changes (m : gmap string value) k v :
  (∀ c, c ∈ changes → l !! c.1.1.1 = Some e → c.1.1.2 = k ∧ pick c = v) →
  (∃ c, c ∈ changes ∧ l !! c.1.1.1 = Some e) →
  changed_attrs l e pick changes m !! k = Some v.
Proof.
  induction changes as [|c changes IH] using rev_ind; intros Hall (c0 & Hin & Hc0).
  - by apply elem_of_nil in Hin.
  - rewrite changed_attrs_snoc. destruct (decide _) as [Hc|Hc].
    + destruct (Hall c) as [<- <-]; [apply elem_of_app; right; by left|done|].
      by rewrite lookup_insert_eq.
    + apply IH.
      * intros c1 Hc1. apply Hall. apply elem_of_app. by left.
      * apply elem_of_app in Hin as [Hin|Hin]; [by exists c0|].
        apply list_elem_of_singleton in Hin as ->. done.
Qed.

(** X27. When every selected entity is registered and has a colour and
    the colour it had when the menu opened, closing the colour menu and
    then undoing gives each selected entity that earlier colour back.
    Nothing else changes: the other attributes of the selected
    entities, every other object and the registry are as before, and
    the cursor of the log is where it was. *)
Theorem undo_after_closing_the_colour_menu_restores_colours
    (s : ctx) (menu_handler : MenuHandler.t) :
  log_wf (scene s) → selection_in_registry (scene s) → selection_coloured s →
  let s1 := exec (ColorMenu.close menu_handler) s in
  let s2 := exec undo s1 in
  result undo s1 = Ok tt ∧
  entities (scene s2) = entities (scene s) ∧
  undo_index (scene s2) = undo_index (scene s) ∧
  (∀ e o, e ∈ selection (scene s) → heap s !! e = Some o →
     ∃ o', heap s2 !! e = Some o' ∧
           attrs o' !! "color" = attrs o !! "original_color" ∧
           ∀ k, k ≠ "color" → attrs o' !! k = attrs o !! k) ∧
  (∀ e, e ∉ selection (scene s) → heap s2 !! e = heap s !! e).
Proof.
  intros Hwf Hreg Hcol s1 s2.
  set (changes := color_change s <$> selection (scene s)).
  assert (Hs1 : s1 = exec (record_undo (attribute_changes changes)) s)
    by (by apply close_records).
  destruct (recorded_entry s (attribute_changes changes) Hwf) as [Hpos Hentry].
  rewrite <- Hs1 in Hpos, Hentry.
  pose proof (undo_unfold s1 _ Hpos Hentry) as Hundo.
  destruct (after_set_attributes old_value changes s1) as [Hent Hheap].
  assert (Hent1 : entities (scene s1) = entities (scene s)) by (by rewrite Hs1).
  assert (Hheap1 : heap s1 = heap s) by (by rewrite Hs1).
  assert (Hidx1 : undo_index (scene s1) = (undo_index (scene s) + 1)%Z)
    by (by rewrite Hs1).
  assert (Hheap2 : heap s2 =
            changed_heap (entities (scene s)) old_value changes (heap s)).
  { unfold s2, exec. rewrite Hundo. cbn [fst snd]. unfold on_scene.
    cbn [heap with_scene]. cbn [apply_undo] in *. rewrite Hheap.
    by rewrite Hent1, Hheap1. }
  assert (Hmine : ∀ c e, c ∈ changes → entities (scene s) !! c.1.1.1 = Some e →
            e ∈ selection (scene s) ∧ c = color_change s e).
  { intros c e Hc Hl. apply list_elem_of_fmap in Hc as (e' & -> & He').
    unfold color_change in Hl. cbn [fst snd] in Hl.
    rewrite (index_of_lookup e' _ (Hreg e' He')) in Hl. inversion Hl. by subst. }
  split; [|split; [|split; [|split]]].
  - unfold result. by rewrite Hundo.
  - unfold s2, exec. rewrite Hundo. cbn [fst snd]. unfold on_scene.
    cbn [scene with_scene with_undo entities]. cbn [apply_undo] in *.
    by rewrite Hent.
  - unfold s2, exec. rewrite Hundo. cbn [fst snd]. unfold on_scene.
    cbn [scene with_scene with_undo undo_index]. cbn [apply_undo].
    destruct (same_log_after_apply (set_attributes old_value changes) s1
                (same_log_apply_undo (attribute_changes changes))) as [_ Hi].
    rewrite Hi, Hidx1. lia.
  - intros e o He Ho. rewrite Hheap2, changed_heap_lookup, Ho. simpl.
    eexists. split; [done|]. simpl. split.
    + destruct (Hcol e He) as (o0 & Ho0 & [c0 Hc0] & _).
      assert (o0 = o) by congruence. subst o0. rewrite Hc0.
      apply changed_attrs_set.
      * intros c Hc Hl. destruct (Hmine c e Hc Hl) as [_ ->].
        split; [done|]. unfold old_value, color_change, attr_of. cbn [fst snd].
        rewrite Ho. simpl. by rewrite Hc0.
      * exists (color_change s e). split; [by apply list_elem_of_fmap_2|].
        unfold color_change. cbn [fst snd]. by apply index_of_lookup, Hreg.
    + intros k Hk.
      destruct (changed_attrs_untouched (entities (scene s)) e old_value changes
                  (attrs o) k) as [Heq|(c & Hc & Hl & Hattr)]; [done|].
      destruct (Hmine c e Hc Hl) as [_ ->]. by subst k.
  - intros e He. rewrite Hheap2, changed_heap_lookup.
    destruct (heap s !! e) as [o|] eqn:Ho; [|done]. simpl. f_equal.
    destruct o as [c m d]. simpl. f_equal. apply map_eq. intros k.
    destruct (changed_attrs_untouched (entities (scene s)) e old_value changes m k)
      as [Heq|(c0 & Hc & Hl & _)]; [done|].
    by destruct (Hmine c0 e Hc Hl) as [Hin _].
Qed.

End Colours.

(** A cube that was white when the menu opened and is red now. *)
Lemma undo_after_closing_the_colour_menu_restores_colours_witness :
  let cube := Obj "WhiteCube" (<["original_color" := VSym "white"]>
                                 {["color" := VSym "red"]}) false in
  let s := Ctx {[1 := cube]} 2 ∅ (with_selection [1] (Sample.scene_of [1])) in
  let s2 := exec (@undo Sample.python)
                 (exec (ColorMenu.close closed_menus) s) in
  log_wf (scene s) ∧ selection_in_registry (scene s) ∧ selection_coloured s ∧
  ∃ o', heap s2 !! 1 = Some o' ∧ attrs o' !! "color" = Some (VSym "white").
Proof.
  intros cube s s2.
  assert (Hwf : log_wf (scene s)) by (unfold log_wf; simpl; lia).
  assert (Hreg : selection_in_registry (scene s)) by (intros e He; exact He).
  assert (Hcol : selection_coloured s).
  { intros e He. apply list_elem_of_singleton in He as ->.
    exists cube. split; [reflexivity|]. split; eexists; reflexivity. }
  destruct (@undo_after_closing_the_colour_menu_restores_colours Sample.python s
              closed_menus Hwf Hreg Hcol) as (_ & _ & _ & Hsel & _).
  destruct (Hsel 1 cube) as (o' & Ho' & Hc & _);
    [by apply list_elem_of_singleton|reflexivity|].
  split; [exact Hwf|]. split; [exact Hreg|]. split; [exact Hcol|].
  exists o'. split; [exact Ho'|]. rewrite Hc. reflexivity.
Defined.

(** ** Dropping a quickly grabbed entity *)

Section QuickDrop.
Context `{!Python}.

Lemma getattr_known (s : ctx) e o k v :
  heap s !! e = Some o → attrs o !! k = Some v → getattr e k s = (Ok v, s).
Proof.
  intros Ho Hk. unfold getattr, bind, gets, of_option. cbn [fst snd].
  rewrite Ho. simpl. by rewrite Hk.
Qed.

Lemma getattr_after_reparent (s : ctx) t p e o k v :
  k ≠ "parent" → heap s !! e = Some o → attrs o !! k = Some v →
  getattr e k (with_heap (alter (with_attr "parent" p) t (heap s)) s) =
    (Ok v, with_heap (alter (with_attr "parent" p) t (heap s)) s).
Proof.
  intros Hk Ho Hv. destruct (decide (e = t)) as [->|Hne].
  - eapply getattr_known; [simpl; rewrite lookup_alter_eq, Ho; reflexivity|].
    simpl. by rewrite lookup_insert_ne.
  - eapply getattr_known; [simpl; rewrite lookup_alter_ne by done; exact Ho|done].
Qed.

(** X28. Dropping a quickly grabbed entity gives it its original
    parent back and leaves the registry alone.  If its position is the
    one it had when the drag began, nothing is recorded and the entity
    becomes the selection; if it moved, one entry is recorded with the
    old and the new position of every selected entity, and the
    selection is cleared. *)
Theorem quick_drop_records_a_move_only
    (s : ctx) (target : ref) (o : obj) (p : value) (w w0 : Vec3) :
  heap s !! target = Some o → destroyed o = false →
  attrs o !! "original_parent" = Some p →
  attrs o !! "world_position" = Some (VVec w) →
  attrs o !! "_original_world_position" = Some (VVec w0) →
  selection_in_registry (scene s) → selection_positioned s →
  let s' := exec (QuickGrabber.drop (Some target)) s in
  heap s' = alter (with_attr "parent" p) target (heap s) ∧
  entities (scene s') = entities (scene s) ∧
  if QuickGrabber.vec_eqb w w0
  then log_of s' = log_of s ∧ selection (scene s') = [target]
  else log_of s' =
         log_with (attribute_changes (position_change s <$> selection (scene s))) s ∧
       selection (scene s') = [].
Proof.
  intros Ho Halive Hp Hw Hw0 Hreg Hpos s'.
  set (s1 := with_heap (alter (with_attr "parent" p) target (heap s)) s).
  assert (Hrestore : restore_parent target s = (Ok tt, s1)).
  { unfold restore_parent. erewrite (bind_ok (getattr _ _));
      [|by eapply getattr_known]. reflexivity. }
  assert (Hne : QuickGrabber.py_ne (VVec w) (VVec w0) = negb (QuickGrabber.vec_eqb w w0))
    by done.
  assert (Hhead : ∀ k : py ctx unit,
            (target <- of_option AttributeError (Some target) ;;
             restore_parent target ;;
             world_position <- getattr target "world_position" ;;
             original <- getattr target "_original_world_position" ;;
             if QuickGrabber.py_ne world_position original then k
             else modify (on_scene (with_selection [target])) ;; render_selection) s =
            (if QuickGrabber.vec_eqb w w0
             then (modify (on_scene (with_selection [target])) ;; render_selection) s1
             else k s1)).
  { intros k. erewrite (bind_ok (of_option _ _)) by reflexivity.
    erewrite (bind_ok (restore_parent _)) by exact Hrestore.
    erewrite (bind_ok (getattr _ _)) by (by eapply getattr_after_reparent).
    erewrite (bind_ok (getattr _ _)) by (by eapply getattr_after_reparent).
    rewrite Hne. by destruct (QuickGrabber.vec_eqb w w0). }
  unfold s', exec, QuickGrabber.drop, try_except. rewrite Hhead.
  destruct (QuickGrabber.vec_eqb w w0) eqn:Hmoved.
  - unfold render_selection, bind, modify. cbn [fst snd].
    unfold on_scene. cbn [scene with_scene heap with_selection selection entities s1
                          with_heap].
    split; [done|]. split; [done|]. split; [done|].
    rewrite filter_cons_True; [done|].
    unfold truthy. rewrite lookup_alter_eq, Ho. simpl. by rewrite Halive.
  - assert (Hchanges :
      map_m (λ e, l <- gets (λ s, entities (scene s)) ;;
                  index <- of_option ValueError (py_index e l) ;;
                  old <- getattr e "_original_world_position" ;;
                  new <- getattr e "world_position" ;;
                  ret (index, "world_position", old, new)) (selection (scene s)) s1 =
        (Ok (position_change s <$> selection (scene s)), s1)).
    { apply map_m_read. intros e He.
      destruct (Hpos e He) as (oe & Hoe & [v0 Hv0] & [v Hv]).
      destruct (py_index_Some e _ (Hreg e He)) as [i Hi].
      erewrite (bind_ok (gets _)) by reflexivity.
      cbn [s1 with_heap scene]. rewrite Hi.
      erewrite (bind_ok (of_option _ _)) by reflexivity.
      erewrite (bind_ok (getattr _ _)) by (by eapply getattr_after_reparent).
      erewrite (bind_ok (getattr _ _)) by (by eapply getattr_after_reparent).
      unfold ret, position_change, index_of, attr_of. rewrite Hi, Hoe. simpl.
      by rewrite Hv0, Hv. }
    erewrite (bind_ok (gets _)) by reflexivity.
    cbn [s1 with_heap scene] in *.
    erewrite (bind_ok (map_m _ _)) by exact Hchanges.
    unfold render_selection, record_undo, bind, modify. cbn [fst snd].
    unfold on_scene. cbn [scene with_scene heap with_selection selection entities
                          with_heap with_undo].
    split; [done|]. split; [done|]. split; [done|].
    done.
Qed.

End QuickDrop.

(** A cube dragged from the origin to (1, 0, 0). *)
Lemma quick_drop_records_a_move_only_witness :
  let cube := Obj "WhiteCube"
                (<["original_parent" := VRef 0]>
                   (<["_original_world_position" := VVec (0, 0, 0)%Q]>
                      {["world_position" := VVec (1, 0, 0)%Q]})) false in
  let s := Ctx {[1 := cube]} 2 ∅ (with_selection [1] (Sample.scene_of [1])) in
  let s' := exec (QuickGrabber.drop (Some 1)) s in
  selection_in_registry (scene s) ∧ selection_positioned s ∧
  selection (scene s') = [] ∧
  undo_data (scene s') =
    [attribute_changes [(0, "world_position", VVec (0, 0, 0)%Q, VVec (1, 0, 0)%Q)]].
Proof.
  intros cube s s'.
  assert (Hreg : selection_in_registry (scene s)) by (intros e He; exact He).
  assert (Hpos : selection_positioned s).
  { intros e He. apply list_elem_of_singleton in He as ->.
    exists cube. split; [reflexivity|]. split; eexists; reflexivity. }
  pose proof (quick_drop_records_a_move_only s 1 cube (VRef 0) (1, 0, 0)%Q (0, 0, 0)%Q
                eq_refl eq_refl eq_refl eq_refl eq_refl Hreg Hpos) as (_ & _ & Hlog).
  cbn [QuickGrabber.vec_eqb Qeq_bool] in Hlog. simpl in Hlog.
  destruct Hlog as [Hlog Hsel].
  split; [exact Hreg|]. split; [exact Hpos|]. split; [exact Hsel|].
  apply (f_equal fst) in Hlog. exact Hlog.
Defined.

(** ** Dragging with the translate gizmo *)

Section Dragging.
Context `{!Python}.

Lemma is_gizmo_run (s : ctx) (p : value) :
  match p with
  | VRef pr => try_except (g <- getattr pr "is_gizmo" ;; ret (value_truthy g))
                          (λ _, ret false)
  | _ => ret false
  end s = (Ok (is_gizmo_value (heap s) p), s).
Proof.
  destruct p as [| | | | | | |pr]; try done.
  unfold try_except, getattr, bind, gets, of_option, is_gizmo_value. cbn [fst snd].
  by destruct (heap s !! pr ≫= _).
Qed.

(** One turn of the loop of [drag]. *)
Lemma drag_body_run (s : ctx) (x pivot : ref) (o : obj) (v : value) :
  heap s !! x = Some o → attrs o !! "world_transform" = Some v →
  let p := default (VSym "scene") (attrs o !! "parent") in
  (p <- get_parent x ;;
   is_gizmo <- match p with
               | VRef pr => try_except (g <- getattr pr "is_gizmo" ;; ret (value_truthy g))
                                       (λ _, ret false)
               | _ => ret false
               end ;;
   (if is_gizmo then setattr x "original_parent" (VSym "scene")
    else setattr x "original_parent" p) ;;
   set_world_parent x (VRef pivot) ;;
   setattr x "always_on_top" (VBool false) ;;
   snapshot x) s =
  (Ok tt, with_heap (<[x := drag_object (if is_gizmo_value (heap s) p
                                         then VSym "scene" else p)
                                        (VRef pivot) v o]> (heap s)) s).
Proof.
  intros Ho Hv p.
  assert (Hparent : get_parent x s = (Ok p, s)).
  { unfold get_parent, bind, gets, of_option. cbn [fst snd]. by rewrite Ho. }
  erewrite (bind_ok (get_parent _)) by exact Hparent.
  erewrite (bind_ok _ _ s s) by apply is_gizmo_run.
  set (op := if is_gizmo_value (heap s) p then VSym "scene" else p).
  assert (Hset : (if is_gizmo_value (heap s) p
                  then setattr x "original_parent" (VSym "scene")
                  else setattr x "original_parent" p) = setattr x "original_parent" op).
  { unfold op. by destruct (is_gizmo_value (heap s) p). }
  rewrite Hset.
  unfold setattr, set_world_parent, setattr, snapshot, getattr, bind, modify, gets,
    of_option.
  cbn [fst snd heap with_heap]. rewrite !lookup_alter_eq, Ho. simpl.
  rewrite !lookup_insert_ne by done. rewrite Hv. simpl.
  unfold setattr, modify, with_heap. simpl. do 2 f_equal.
  apply map_eq. intros r. destruct (decide (r = x)) as [->|Hne].
  - rewrite !lookup_alter_eq, lookup_insert_eq, Ho. done.
  - rewrite !lookup_alter_ne, lookup_insert_ne by done. done.
Qed.

Lemma wp_for_each_split {S B} (I : list B → S → Prop) (l : list B)
    (f : B → py S unit) Q E (s : S) :
  I [] s →
  (∀ pre x post s, l = pre ++ x :: post → I pre s →
                   wp (f x) (λ _, I (pre ++ [x])) E s) →
  (∀ s, I l s → Q tt s) →
  wp (for_each l f) Q E s.
Proof.
  intros Hs Hf HQ.
  assert (Hgen : ∀ post pre s, pre ++ post = l → I pre s →
                               wp (for_each post f) Q E s).
  { induction post as [|x post IH]; intros pre s0 Hl Hpre; simpl.
    - rewrite app_nil_r in Hl. subst. by apply HQ.
    - apply wp_bind. eapply wp_mono; [by apply (Hf pre x post s0)| |done].
      intros [] s1 Hs1. apply (IH (pre ++ [x])); [|done].
      by rewrite <- app_assoc. }
  by apply (Hgen l []).
Qed.

Ltac attr_lookup :=
  repeat (rewrite lookup_insert_eq || rewrite lookup_insert_ne by done).

Lemma dist2_same (a : Vec3) : (dist2 a a == 0)%Q.
Proof. destruct a as [[x y] z]. unfold dist2. ring. Qed.

Lemma far_same (a : Vec3) : far a a = false.
Proof.
  unfold far. apply negb_false_iff, Qle_bool_iff.
  rewrite dist2_same. done.
Qed.

(** [drag] puts every selected entity under the pivot, with a snapshot
    of its transform and the parent to go back to. *)
Lemma wp_drag (s : ctx) (self fake_gizmo : ref) (global_mode : bool) :
  NoDup (selection (scene s)) → selection_placed s →
  let pivot := if global_mode then self else fake_gizmo in
  wp (GizmoArrow.drag self fake_gizmo global_mode)
     (λ _ s1, scene s1 = scene s ∧
              ∀ r, heap s1 !! r =
                     if decide (r ∈ selection (scene s))
                     then drag_of s pivot r <$> heap s !! r else heap s !! r)
     (λ _ _, False) s.
Proof.
  intros Hnd Hplaced pivot. unfold GizmoArrow.drag. do 2 wp_step.
  apply (wp_for_each_split (λ pre s1,
           scene s1 = scene s ∧
           ∀ r, heap s1 !! r =
                  if decide (r ∈ pre)
                  then drag_of s pivot r <$> heap s !! r else heap s !! r)).
  - split; [done|]. intros r. by rewrite decide_False by apply not_elem_of_nil.
  - intros pre x post s1 Hl [Hsc Hheap].
    assert (Hx : x ∈ selection (scene s)).
    { rewrite Hl. apply elem_of_app. right. by left. }
    assert (Hfresh : x ∉ pre).
    { rewrite Hl in Hnd. apply NoDup_app in Hnd as (_ & Hdisj & _).
      intros Hin. apply (Hdisj x Hin). by left. }
    destruct (Hplaced x Hx) as (o & Ho & [v Hv]).
    assert (Ho1 : heap s1 !! x = Some o).
    { rewrite Hheap, decide_False by done. exact Ho. }
    assert (Hgizmo : ∀ p, is_gizmo_value (heap s1) p = is_gizmo_value (heap s) p).
    { intros [| | | | | | |pr]; try done. unfold is_gizmo_value.
      rewrite (Hheap pr). destruct (decide (pr ∈ pre)); [|done].
      destruct (heap s !! pr) as [opr|]; [|done]. simpl.
      by rewrite !lookup_insert_ne. }
    eapply wp_known_ok; [apply (drag_body_run s1 x pivot o v Ho1 Hv)|].
    split; [done|]. intros r. cbn [heap with_heap].
    destruct (decide (r = x)) as [->|Hne].
    + rewrite lookup_insert_eq, decide_True by (apply elem_of_app; right; by left).
      rewrite Ho. simpl. f_equal. unfold drag_of, remembered_parent, parent_of.
      rewrite Ho, Hv, Hgizmo. done.
    + rewrite lookup_insert_ne, Hheap by done.
      destruct (decide (r ∈ pre)) as [Hin|Hout].
      * rewrite decide_True by (apply elem_of_app; by left). done.
      * rewrite decide_False; [done|].
        intros [?|Hr%list_elem_of_singleton]%elem_of_app; done.
  - intros s1 HI. exact HI.
Qed.

(** X29. Dragging the selection with the translate gizmo and releasing
    it where it was records nothing: both steps end normally, the log
    is as before the drag, and every selected entity, which hung under
    the gizmo's pivot during the drag, hangs again under the parent it
    had, or under the engine's root if that parent was a gizmo. *)
Theorem drag_then_release_without_movement
    (s : ctx) (self fake_gizmo : ref) (global_mode flag : bool) :
  NoDup (selection (scene s)) → selection_in_registry (scene s) →
  selection_placed s →
  let pivot := if global_mode then self else fake_gizmo in
  let s1 := exec (GizmoArrow.drag self fake_gizmo global_mode) s in
  let s2 := exec (GizmoArrow.drop flag) s1 in
  result (GizmoArrow.drag self fake_gizmo global_mode) s = Ok tt ∧
  result (GizmoArrow.drop flag) s1 = Ok tt ∧
  log_of s2 = log_of s ∧
  ∀ e, e ∈ selection (scene s) →
       (∃ o1, heap s1 !! e = Some o1 ∧ attrs o1 !! "parent" = Some (VRef pivot)) ∧
       (∃ o2, heap s2 !! e = Some o2 ∧
              attrs o2 !! "parent" = Some (remembered_parent s e)).
Proof.
  intros Hnd Hreg Hplaced pivot s1 s2.
  destruct (wp_ok _ _ _ (wp_drag s self fake_gizmo global_mode Hnd Hplaced))
    as ([] & Hres & Hsc & Hheap).
  fold s1 in Hsc, Hheap. fold pivot in Hheap.
  assert (Hobj : ∀ e, e ∈ selection (scene s) →
            ∃ o, heap s !! e = Some o ∧ heap s1 !! e = Some (drag_of s pivot e o)).
  { intros e He. destruct (Hplaced e He) as (o & Ho & _). exists o.
    split; [done|]. by rewrite Hheap, decide_True, Ho. }
  assert (Heng : ∀ e, e ∈ selection (scene s1) → engaged s1 e).
  { intros e He. rewrite Hsc in He.
    destruct (Hobj e He) as (o & Ho & Ho1).
    destruct (Hplaced e He) as (o' & Ho' & [v Hv]).
    assert (o' = o) by congruence. subst o'.
    destruct (py_index_Some e _ (Hreg e He)) as [i Hi].
    split.
    - unfold change_of. rewrite Hsc, Hi, Ho1. simpl.
      attr_lookup. rewrite ?Hv. simpl. attr_lookup. rewrite ?Hv. simpl. by eexists.
    - eexists. split; [exact Ho1|]. simpl. attr_lookup. by eexists. }
  assert (Hstill : ∀ e, e ∈ selection (scene s) → movedb s1 e = false).
  { intros e He. destruct (Hobj e He) as (o & Ho & Ho1).
    destruct (Hplaced e He) as (o' & Ho' & [v Hv]).
    assert (o' = o) by congruence. subst o'.
    unfold movedb. rewrite Ho1. simpl. attr_lookup. rewrite ?Hv. simpl.
    attr_lookup. rewrite ?Hv.
    destruct v as [| | | | | |[[p r] sc]|]; try done.
    by rewrite !far_same. }
  assert (Hdrop : result (GizmoArrow.drop flag) s1 = Ok tt ∧
                  released s1 (log_of s1) s2).
  { destruct (selection (scene s1)) as [|first rest] eqn:Hsel.
    - unfold s2, result, exec, GizmoArrow.drop, bind, gets. cbn [fst snd].
      rewrite Hsel. simpl. split; [done|]. split; [|done].
      intros e He. rewrite ?Hsel in He. by apply elem_of_nil in He.
    - rewrite <- Hsel in Heng.
      destruct (wp_ok _ _ _ (arrow_drop_records s1 flag first rest Hsel Heng))
        as ([] & Hres2 & Hrel).
      rewrite Hstill in Hrel by (rewrite <- Hsc, Hsel; by left).
      rewrite andb_false_r in Hrel. done. }
  destruct Hdrop as [Hres2 [Hpar Hlog]].
  split; [done|]. split; [done|]. split.
  - rewrite Hlog. unfold log_of. by rewrite Hsc.
  - intros e He. destruct (Hobj e He) as (o & Ho & Ho1). split.
    + eexists. split; [exact Ho1|]. simpl. by attr_lookup.
    + destruct (Hpar e) as (o1 & o2 & Ho1' & Ho2 & _ & Hp); [by rewrite Hsc|].
      exists o2. split; [done|]. rewrite Hp.
      rewrite Ho1 in Ho1'. inversion Ho1'; subst o1. simpl. by attr_lookup.
Qed.

End Dragging.

(** A cube under the scene root 0 is dragged in global mode by the
    arrow 5 and released at once. *)
Lemma drag_then_release_without_movement_witness :
  let s := Ctx {[1 := Sample.placed "WhiteCube" 0 Sample.origin]} 2 ∅
               (with_selection [1] (Sample.scene_of [1])) in
  let s2 := exec (GizmoArrow.drop true)
                 (exec (GizmoArrow.drag 5 6 true) s) in
  NoDup (selection (scene s)) ∧ selection_in_registry (scene s) ∧
  selection_placed s ∧ log_of s2 = log_of s ∧
  ∃ o2, heap s2 !! 1 = Some o2 ∧ attrs o2 !! "parent" = Some (VRef 0).
Proof.
  intros s s2.
  assert (Hnd : NoDup (selection (scene s))).
  { apply NoDup_cons. split; [apply not_elem_of_nil|apply NoDup_nil_2]. }
  assert (Hreg : selection_in_registry (scene s)) by (intros e He; exact He).
  assert (Hplaced : selection_placed s).
  { intros e He. apply list_elem_of_singleton in He as ->.
    eexists. split; [reflexivity|]. eexists. reflexivity. }
  destruct (drag_then_release_without_movement s 5 6 true true
              Hnd Hreg Hplaced) as (_ & _ & Hlog & Hsel).
  destruct (Hsel 1) as [_ (o2 & Ho2 & Hp)]; [by apply list_elem_of_singleton|].
  split; [exact Hnd|]. split; [exact Hreg|]. split; [exact Hplaced|].
  split; [exact Hlog|]. exists o2. split; [exact Ho2|]. rewrite Hp. reflexivity.
Defined.

(** ** Box scaling without a hit *)

Section BoxScaling.
Context `{!Python}.

Lemma with_attr_twice k v o : with_attr k v (with_attr k v o) = with_attr k v o.
Proof. unfold with_attr. simpl. by rewrite insert_insert_eq. Qed.

Lemma wp_enable_collision (s : ctx) (l : list ref) :
  wp (for_each l (λ e, setattr e "collision" (VBool true)))
     (λ _ s1, scene s1 = scene s ∧
              ∀ r, heap s1 !! r =
                     if decide (r ∈ l)
                     then with_attr "collision" (VBool true) <$> heap s !! r
                     else heap s !! r)
     (λ _ _, False) s.
Proof.
  apply (wp_for_each_prefix (λ pre s1,
           scene s1 = scene s ∧
           ∀ r, heap s1 !! r =
                  if decide (r ∈ pre)
                  then with_attr "collision" (VBool true) <$> heap s !! r
                  else heap s !! r)).
  - split; [done|]. intros r. by rewrite decide_False by apply not_elem_of_nil.
  - intros pre x s1 Hx [Hsc Hheap]. wp_step. split; [done|].
    intros r. cbn [heap with_heap]. destruct (decide (r = x)) as [->|Hne].
    + rewrite lookup_alter_eq, Hheap.
      rewrite (decide_True (P := x ∈ pre ++ [x]))
        by (apply elem_of_app; right; by left).
      destruct (decide (x ∈ pre)); [|done].
      destruct (heap s !! x) as [o|]; [|done]. simpl. by rewrite with_attr_twice.
    + rewrite lookup_alter_ne, Hheap by done.
      destruct (decide (r ∈ pre)) as [Hin|Hout].
      * rewrite decide_True by (apply elem_of_app; by left). done.
      * rewrite decide_False; [done|].
        intros [?|Hr%list_elem_of_singleton]%elem_of_app; done.
  - intros s1 HI. exact HI.
Qed.

(** X30. Pressing the box-scaling key while the mouse is over no
    registered entity, or over one without a usable normal, starts
    nothing: the call ends normally, the scene (its registry, its
    selection and its log) is untouched, and the only change is that
    every registered entity has [collision] set. *)
Theorem box_scaling_without_a_hit_only_enables_collision
    (s : ctx) (helper scaler : ref) (hovered_entity : option ref)
    (normal : option Vec3) :
  missed s hovered_entity normal →
  let s' := exec (BoxGizmo.start_scaling helper scaler hovered_entity normal) s in
  result (BoxGizmo.start_scaling helper scaler hovered_entity normal) s = Ok tt ∧
  scene s' = scene s ∧
  ∀ r, heap s' !! r =
         if decide (r ∈ entities (scene s))
         then with_attr "collision" (VBool true) <$> heap s !! r
         else heap s !! r.
Proof.
  intros Hmiss s'.
  assert (Hwp : wp (BoxGizmo.start_scaling helper scaler hovered_entity normal)
                   (λ _ s1, scene s1 = scene s ∧
                            ∀ r, heap s1 !! r =
                                   if decide (r ∈ entities (scene s))
                                   then with_attr "collision" (VBool true) <$> heap s !! r
                                   else heap s !! r)
                   (λ _ _, False) s).
  { unfold BoxGizmo.start_scaling. do 3 wp_step.
    eapply wp_mono; [apply wp_enable_collision| |done].
    intros [] s1 HI. cbn beta.
    destruct hovered_entity as [target|]; [|cbn iota; by wp_step].
    destruct normal as [n|]; [|cbn iota; by wp_step].
    destruct Hmiss as [Hout|Hzero].
    - rewrite bool_decide_eq_false_2 by done. cbn [andb]. by wp_step.
    - rewrite Hzero, andb_false_r. by wp_step. }
  destruct (wp_ok _ _ _ Hwp) as ([] & Hres & Hpost). done.
Qed.

End BoxScaling.

(** The mouse is over entity 9, which is not registered. *)
Lemma box_scaling_without_a_hit_only_enables_collision_witness :
  let s := Ctx {[1 := Sample.entity "WhiteCube"]} 2 ∅ (Sample.scene_of [1]) in
  let s' := exec (BoxGizmo.start_scaling 7 8 (Some 9) (Some (0, 1, 0)%Q)) s in
  missed s (Some 9) (Some (0, 1, 0)%Q) ∧ scene s' = scene s ∧
  heap s' !! 1 = Some (with_attr "collision" (VBool true) (Sample.entity "WhiteCube")).
Proof.
  intros s s'.
  assert (Hmiss : missed s (Some 9) (Some (0, 1, 0)%Q)).
  { left. simpl. intros Hin. apply list_elem_of_singleton in Hin. discriminate. }
  destruct (box_scaling_without_a_hit_only_enables_collision s 7 8 (Some 9)
              (Some (0, 1, 0)%Q) Hmiss) as (_ & Hsc & Hheap).
  split; [exact Hmiss|]. split; [exact Hsc|].
  exact (Hheap 1).
Defined.
